(** * NMS.TXT: the turn-processing pipeline of [js/game.js]

    A shallow embedding of the dice resolver, the skill classifier, the
    response parser, the state reducer and the turn orchestrator of
    [js/game.js] (the revision with death detection and the sound system),
    with the properties stated about them.

    Conventions of the embedding.
    - A JavaScript string is a [string]; each character stands for one
      UTF-16 code unit below 256 (the Latin-1 range), which is where the
      regular expressions, [trim] and [toLowerCase] of the source are
      modelled.
    - A JavaScript number is an integer [Z]; [parseInt] yields [None]
      for NaN. The counts of the inventory, which the reducer can turn
      into NaN, have a type of their own ([Count]).
    - A JavaScript object used as a dictionary is a finite map of its own
      properties ([gmap string _]). Where the script indexes an object
      literal with a text of the backend, the members that the object
      inherits from [Object.prototype] are looked up too ([readKey],
      [writeKey]).
    - [Math.random], [Date.now] and the answer of the AI backend are inputs
      of the functions that consume them.
    - A turn runs to completion with no other handler in between: the
      timers it starts are pending when it ends. *)

From Stdlib Require Import ZArith QArith Qround Ascii String List Bool Lia.
From stdpp Require Import base option list strings gmap fin_maps.

Local Open Scope string_scope.
Local Open Scope Z_scope.

(** ** Characters and strings *)

Module Js.

Definition code (c : ascii) : N := N_of_ascii c.

Definition between (lo hi : N) (c : ascii) : bool :=
  ((lo <=? code c) && (code c <=? hi))%N.

Definition LF : ascii := ascii_of_N 10.
Definition CR : ascii := ascii_of_N 13.

(** WhiteSpace and LineTerminator code units below 256: TAB, LF, VT, FF,
    CR, SPACE and NBSP. *)
Definition isSpace (c : ascii) : bool :=
  between 9 13 c || (code c =? 32)%N || (code c =? 160)%N.

Definition isDigit (c : ascii) : bool := between 48 57 c.

Definition isUpperAZ (c : ascii) : bool := between 65 90 c.
Definition isLowerAZ (c : ascii) : bool := between 97 122 c.

(** [\w] is [A-Za-z0-9_]. *)
Definition isWord (c : ascii) : bool :=
  isUpperAZ c || isLowerAZ c || isDigit c || (code c =? 95)%N.

(** [.] excludes the line terminators. *)
Definition isLineTerminator (c : ascii) : bool :=
  (code c =? 10)%N || (code c =? 13)%N.

Definition shift (d : Z) (c : ascii) : ascii :=
  ascii_of_N (Z.to_N (Z.of_N (code c) + d)).

(** [String.prototype.toLowerCase], one code unit at a time. *)
Definition lowerChar (c : ascii) : ascii :=
  if isUpperAZ c then shift 32 c
  else if between 192 222 c && negb (code c =? 215)%N then shift 32 c
  else c.

(** Canonicalize of a case-insensitive regular expression (the upper-case
    mapping, kept only when it stays a single code unit of the range). *)
Definition canonChar (c : ascii) : ascii :=
  if isLowerAZ c then shift (-32) c
  else if between 224 254 c && negb (code c =? 247)%N then shift (-32) c
  else c.

Fixpoint toLowerCase (s : string) : string :=
  match s with
  | EmptyString => EmptyString
  | String c t => String (lowerChar c) (toLowerCase t)
  end.

Fixpoint trimStart (s : string) : string :=
  match s with
  | String c t => if isSpace c then trimStart t else s
  | EmptyString => EmptyString
  end.

(** Drops the trailing white space; [trimEnd s] is read right to left. *)
Fixpoint trimEnd (s : string) : string :=
  match s with
  | EmptyString => EmptyString
  | String c t =>
      match trimEnd t with
      | EmptyString => if isSpace c then EmptyString else String c EmptyString
      | t' => String c t'
      end
  end.

Definition trim (s : string) : string := trimEnd (trimStart s).

Fixpoint startsWith (p s : string) : bool :=
  match p, s with
  | EmptyString, _ => true
  | String a p', String b s' => Ascii.eqb a b && startsWith p' s'
  | String _ _, EmptyString => false
  end.

(** [s.includes(p)] *)
Fixpoint includes (s p : string) : bool :=
  startsWith p s ||
  match s with
  | EmptyString => false
  | String _ t => includes t p
  end.

(** [s.split(sep)] for a one-character separator: never empty. *)
Fixpoint split (sep : ascii) (s : string) : list string :=
  match s with
  | EmptyString => [EmptyString]
  | String c t =>
      if Ascii.eqb c sep then EmptyString :: split sep t
      else match split sep t with
           | h :: r => String c h :: r
           | [] => [String c EmptyString]
           end
  end.

(** [parts.join(sep)] *)
Fixpoint join (sep : string) (parts : list string) : string :=
  match parts with
  | [] => EmptyString
  | [p] => p
  | p :: r => p +:+ sep +:+ join sep r
  end.

Definition lines (l : list string) : string := join (String LF EmptyString) l.

(** [s.substring(0, n)] *)
Fixpoint take (n : nat) (s : string) : string :=
  match n, s with
  | S n', String c t => String c (take n' t)
  | _, _ => EmptyString
  end.

Fixpoint drop (n : nat) (s : string) : string :=
  match n, s with
  | S n', String _ t => drop n' t
  | _, _ => s
  end.

Definition digitVal (c : ascii) : Z := Z.of_N (code c) - 48.

Fixpoint digitsFrom (acc : Z) (s : string) : Z :=
  match s with
  | String c t => if isDigit c then digitsFrom (10 * acc + digitVal c) t else acc
  | EmptyString => acc
  end.

Definition startsWithDigit (s : string) : bool :=
  match s with
  | String c _ => isDigit c
  | EmptyString => false
  end.

(** [parseInt(s)] in radix 10: leading white space, an optional sign, the
    longest run of digits; [None] is NaN. *)
Definition parseInt (s : string) : option Z :=
  match trimStart s with
  | String c t =>
      if Ascii.eqb c "-" then
        if startsWithDigit t then Some (- digitsFrom 0 t) else None
      else if Ascii.eqb c "+" then
        if startsWithDigit t then Some (digitsFrom 0 t) else None
      else if isDigit c then Some (digitsFrom 0 (String c t))
      else None
  | EmptyString => None
  end.

End Js.

(** ** Regular expressions

    A backtracking matcher with the priorities of ECMAScript: alternatives
    left to right, greedy quantifiers longest first, lazy ones shortest
    first, an iteration that consumes nothing rejected. *)

Module Re.

Inductive atom : Type :=
  | Lit (c : ascii)           (* a literal character *)
  | AnyChar                   (* [\s\S] *)
  | Dot                       (* . *)
  | Space                     (* \s *)
  | Word                      (* \w *)
  | Digit                     (* \d *)
  | OneOf (l : list ascii).   (* [...] *)

Inductive regex : Type :=
  | Empty
  | Atom (a : atom)
  | Seq (r1 r2 : regex)
  | Alt (r1 r2 : regex)
  | Star (greedy : bool) (r : regex)
  | Opt (r : regex)                 (* r? , greedy *)
  | Group (i : nat) (r : regex)     (* capturing group number i *)
  | Bol                             (* ^ without the m flag *)
  | Eol                             (* $ without the m flag *)
  | LookAhead (r : regex).          (* (?=r) *)

(** r+ and r+? *)
Definition Plus (greedy : bool) (r : regex) : regex := Seq r (Star greedy r).

Fixpoint Str (s : string) : regex :=
  match s with
  | EmptyString => Empty
  | String c EmptyString => Atom (Lit c)
  | String c t => Seq (Atom (Lit c)) (Str t)
  end.

Fixpoint Seqs (l : list regex) : regex :=
  match l with
  | [] => Empty
  | [r] => r
  | r :: t => Seq r (Seqs t)
  end.

Fixpoint Alts (l : list regex) : regex :=
  match l with
  | [] => Empty
  | [r] => r
  | r :: t => Alt r (Alts t)
  end.

Definition atomMatches (ic : bool) (a : atom) (c : ascii) : bool :=
  match a with
  | Lit x => if ic then Ascii.eqb (Js.canonChar x) (Js.canonChar c) else Ascii.eqb x c
  | AnyChar => true
  | Dot => negb (Js.isLineTerminator c)
  | Space => Js.isSpace c
  | Word => Js.isWord c
  | Digit => Js.isDigit c
  | OneOf l =>
      if ic then existsb (fun x => Ascii.eqb (Js.canonChar x) (Js.canonChar c)) l
      else existsb (fun x => Ascii.eqb x c) l
  end.

(** A matcher state: the index reached, the text from there on, and the
    captures made so far (most recent first). *)
Record mstate : Type := MState {
  pos : nat;
  rest : string;
  caps : list (nat * string)
}.

Definition cont : Type := mstate -> option mstate.

Definition orElse (a : option mstate) (b : unit -> option mstate) : option mstate :=
  match a with
  | Some x => Some x
  | None => b tt
  end.

Fixpoint starLoop (fuel : nat) (greedy : bool) (body : cont -> cont)
    (k : cont) (s : mstate) : option mstate :=
  match fuel with
  | O => k s
  | S fuel' =>
      let again (_ : unit) :=
        body (fun s' => if Nat.eqb (pos s') (pos s) then None
                        else starLoop fuel' greedy body k s') s in
      if greedy then orElse (again tt) (fun _ => k s)
      else orElse (k s) again
  end.

Fixpoint run (ic : bool) (r : regex) (k : cont) (s : mstate) : option mstate :=
  match r with
  | Empty => k s
  | Atom a =>
      match rest s with
      | String c t =>
          if atomMatches ic a c then k (MState (S (pos s)) t (caps s)) else None
      | EmptyString => None
      end
  | Seq r1 r2 => run ic r1 (run ic r2 k) s
  | Alt r1 r2 => orElse (run ic r1 k s) (fun _ => run ic r2 k s)
  | Star greedy r1 => starLoop (String.length (rest s)) greedy (run ic r1) k s
  | Opt r1 =>
      orElse (run ic r1 (fun s' => if Nat.eqb (pos s') (pos s) then None else k s') s)
             (fun _ => k s)
  | Group i r1 =>
      run ic r1 (fun s' =>
        k (MState (pos s') (rest s')
             ((i, Js.take (pos s' - pos s) (rest s)) :: caps s'))) s
  | Bol => if Nat.eqb (pos s) 0 then k s else None
  | Eol => match rest s with EmptyString => k s | _ => None end
  | LookAhead r1 =>
      match run ic r1 Some s with
      | Some s' => k (MState (pos s) (rest s) (caps s'))
      | None => None
      end
  end.

(** The least number of characters a match of [r] consumes. *)
Fixpoint minLen (r : regex) : nat :=
  match r with
  | Atom _ => 1
  | Seq r1 r2 => minLen r1 + minLen r2
  | Alt r1 r2 => Nat.min (minLen r1) (minLen r2)
  | Group _ r1 => minLen r1
  | Empty | Star _ _ | Opt _ | Bol | Eol | LookAhead _ => 0
  end.

(** [s'] is at least [n] characters further than [s] into the same text. *)
Definition advances (n : nat) (s s' : mstate) : Prop :=
  (pos s + n <= pos s')%nat /\
  (pos s' + String.length (rest s') = pos s + String.length (rest s))%nat.

(** A matcher that, when it succeeds, has handed its continuation a state
    at least [n] characters further on. *)
Definition progressive (n : nat) (body : cont -> cont) : Prop :=
  forall k s e, body k s = Some e -> exists s', k s' = Some e /\ advances n s s'.

(** The result of [exec]: where the match starts and ends, and its groups. *)
Record result : Type := Result {
  first : nat;
  last : nat;
  groups : list (nat * string)
}.

(** Tries the start positions from [p] on, [t] being the text from [p]. *)
Fixpoint execFrom (ic : bool) (r : regex) (p : nat) (t : string) : option result :=
  match run ic r Some (MState p t []) with
  | Some e => Some (Result p (pos e) (caps e))
  | None =>
      match t with
      | EmptyString => None
      | String _ t' => execFrom ic r (S p) t'
      end
  end.

(** A regular expression literal: its pattern and its [i] flag. *)
Record t : Type := Make { pattern : regex; ignoreCase : bool }.

(** [s.match(re)] and [re.exec(s)] for a regular expression without [g]. *)
Definition exec (re : t) (s : string) : option result :=
  execFrom (ignoreCase re) (pattern re) 0 s.

(** [re.exec(s)] of a [g] regular expression whose [lastIndex] is [i]. *)
Definition execAt (re : t) (s : string) (i : nat) : option result :=
  if Nat.ltb (String.length s) i then None
  else execFrom (ignoreCase re) (pattern re) i (Js.drop i s).

(** [re.test(s)] *)
Definition test (re : t) (s : string) : bool :=
  match exec re s with Some _ => true | None => false end.

(** [m[i]]; [None] is [undefined]. *)
Fixpoint assoc (i : nat) (l : list (nat * string)) : option string :=
  match l with
  | [] => None
  | (j, v) :: l' => if Nat.eqb i j then Some v else assoc i l'
  end.

Definition group (i : nat) (m : result) : option string := assoc i (groups m).

(** [s.replace(re, '')] for a regular expression without [g]. *)
Definition remove (re : t) (s : string) : string :=
  match exec re s with
  | Some m => Js.take (first m) s +:+ Js.drop (last m) s
  | None => s
  end.

End Re.

(** ** Configuration constants *)

Definition maxConversationHistory : nat := 20.
Definition maxActionHistory : nat := 50.
Definition autoSaveDelay : Z := 30000.

Definition DIFFICULTY_DC : gmap string Z :=
  list_to_map [("easy", 6); ("medium", 9); ("hard", 13); ("very hard", 17)].

(** [v || d] for a number that may be [undefined]. *)
Definition orNumber (v : option Z) (d : Z) : Z :=
  match v with
  | Some n => if n =? 0 then d else n
  | None => d
  end.

(** ** Object literals used as tables

    [gameState.inventory], a parsed inventory delta and [DIFFICULTY_DC]
    are object literals, indexed with texts that come out of the
    backend's answer. A key that is not an own property of such an
    object is looked up in [Object.prototype]. *)

(** The methods of [Object.prototype]. *)
Definition prototypeMethods : list string :=
  ["constructor"; "hasOwnProperty"; "isPrototypeOf"; "propertyIsEnumerable";
   "toLocaleString"; "toString"; "valueOf";
   "__defineGetter__"; "__defineSetter__"; "__lookupGetter__"; "__lookupSetter__"].

Definition isPrototypeMethod (key : string) : bool :=
  existsb (String.eqb key) prototypeMethods.

(** [__proto__] is an accessor of [Object.prototype]: read, it gives the
    prototype; written with a number, it does nothing. *)
Definition isProto (key : string) : bool := String.eqb key "__proto__".

(** What [object[key]] evaluates to: the own property, a member of
    [Object.prototype] (a function, or the prototype itself), or
    [undefined]. *)
Inductive Looked (A : Type) : Type :=
  | Own (v : A)
  | Inherited
  | Undefined.

Arguments Own {A} v.
Arguments Inherited {A}.
Arguments Undefined {A}.

Definition readKey {A : Type} (key : string) (object : gmap string A) : Looked A :=
  match object !! key with
  | Some v => Own v
  | None => if isPrototypeMethod key || isProto key then Inherited else Undefined
  end.

(** [object[key] = v] for a number [v]: the own property is written or
    created, except through the accessor [__proto__]. *)
Definition writeKey {A : Type} (key : string) (v : A) (object : gmap string A)
    : gmap string A :=
  match object !! key with
  | Some _ => <[key := v]> object
  | None => if isProto key then object else <[key := v]> object
  end.

(** A count of the inventory as the script can make it: a number, [NaN],
    or [null], which is what a save keeps of [NaN]. *)
Inductive Count : Type :=
  | Num (n : Z)
  | NaN
  | Null.

(** [count + amount]; [null] counts as 0. *)
Definition addAmount (count : Count) (amount : Z) : Count :=
  match count with
  | Num n => Num (n + amount)
  | NaN => NaN
  | Null => Num amount
  end.

(** [Math.max(0, count)] *)
Definition maxZero (count : Count) : Count :=
  match count with
  | Num n => Num (Z.max 0 n)
  | NaN => NaN
  | Null => Num 0
  end.

(** ** The game state *)

Record Location : Type := mkLocation {
  planetName : string;
  planetType : string;
  systemName : string;
  distanceFromCenter : Z
}.

Record Ship : Type := mkShip {
  health : Z;
  fuel : Z;
  warpCapable : bool;
  launchCapable : bool
}.

Record Stats : Type := mkStats {
  planetsVisited : Z;
  aliensEncountered : Z;
  resourcesGathered : Z;
  jumpsCompleted : Z;
  deathCount : Z;
  actionsToken : Z;
  closestDistance : option Z      (* stats.distanceFromCenter, absent at first *)
}.

Record Skill : Type := mkSkill {
  level : Z;
  xp : Z;
  points : Z
}.

Record Message : Type := mkMessage {
  role : string;
  content : string
}.

(** An entry of [currentOptions] and of [parsed.options]. *)
Record Choice : Type := mkChoice {
  text : string;
  difficulty : string
}.

Record ActionEntry : Type := mkActionEntry {
  timestamp : Z;
  action : string;
  result : string
}.

Record GameState : Type := mkGameState {
  version : string;
  saveSlot : Z;
  lastSaved : Z;
  currentLocation : Location;
  ship : Ship;
  inventory : gmap string Count;
  conversationHistory : list Message;
  currentNarrative : string;
  currentOptions : list Choice;
  stats : Stats;
  skills : gmap string Skill;
  actionHistory : list ActionEntry
}.

Definition createInitialGameState (now : Z) : GameState :=
  {| version := "1.0.0";
     saveSlot := 0;
     lastSaved := now;
     currentLocation := mkLocation "Unknown" "unknown" "Unknown" 715342;
     ship := mkShip 15 0 false false;
     inventory :=
       list_to_map [("carbon", Num 0); ("iron", Num 0); ("plutonium", Num 0);
                    ("heridium", Num 0); ("zinc", Num 0); ("titanium", Num 0)];
     conversationHistory := [];
     currentNarrative := "";
     currentOptions := [];
     stats := mkStats 1 0 0 0 0 0 None;
     skills :=
       list_to_map [("survival", mkSkill 1 0 0); ("technology", mkSkill 1 0 0);
                    ("exploration", mkSkill 2 0 0); ("combat", mkSkill 1 0 0)];
     actionHistory := [] |}.

(** Field updates, one per assignment form of the source. *)

Definition setShip (f : Ship -> Ship) (g : GameState) : GameState :=
  mkGameState (version g) (saveSlot g) (lastSaved g) (currentLocation g)
    (f (ship g)) (inventory g) (conversationHistory g) (currentNarrative g)
    (currentOptions g) (stats g) (skills g) (actionHistory g).

Definition setHealth (v : Z) (s : Ship) : Ship :=
  mkShip v (fuel s) (warpCapable s) (launchCapable s).

Definition setFuel (v : Z) (s : Ship) : Ship :=
  mkShip (health s) v (warpCapable s) (launchCapable s).

Definition setLocation (f : Location -> Location) (g : GameState) : GameState :=
  mkGameState (version g) (saveSlot g) (lastSaved g) (f (currentLocation g))
    (ship g) (inventory g) (conversationHistory g) (currentNarrative g)
    (currentOptions g) (stats g) (skills g) (actionHistory g).

Definition setDistance (v : Z) (l : Location) : Location :=
  mkLocation (planetName l) (planetType l) (systemName l) v.

Definition setInventory (m : gmap string Count) (g : GameState) : GameState :=
  mkGameState (version g) (saveSlot g) (lastSaved g) (currentLocation g)
    (ship g) m (conversationHistory g) (currentNarrative g)
    (currentOptions g) (stats g) (skills g) (actionHistory g).

Definition setConversationHistory (h : list Message) (g : GameState) : GameState :=
  mkGameState (version g) (saveSlot g) (lastSaved g) (currentLocation g)
    (ship g) (inventory g) h (currentNarrative g)
    (currentOptions g) (stats g) (skills g) (actionHistory g).

Definition setCurrentNarrative (n : string) (g : GameState) : GameState :=
  mkGameState (version g) (saveSlot g) (lastSaved g) (currentLocation g)
    (ship g) (inventory g) (conversationHistory g) n
    (currentOptions g) (stats g) (skills g) (actionHistory g).

Definition setCurrentOptions (o : list Choice) (g : GameState) : GameState :=
  mkGameState (version g) (saveSlot g) (lastSaved g) (currentLocation g)
    (ship g) (inventory g) (conversationHistory g) (currentNarrative g)
    o (stats g) (skills g) (actionHistory g).

Definition setStats (f : Stats -> Stats) (g : GameState) : GameState :=
  mkGameState (version g) (saveSlot g) (lastSaved g) (currentLocation g)
    (ship g) (inventory g) (conversationHistory g) (currentNarrative g)
    (currentOptions g) (f (stats g)) (skills g) (actionHistory g).

Definition setResourcesGathered (v : Z) (s : Stats) : Stats :=
  mkStats (planetsVisited s) (aliensEncountered s) v (jumpsCompleted s)
    (deathCount s) (actionsToken s) (closestDistance s).

Definition setDeathCount (v : Z) (s : Stats) : Stats :=
  mkStats (planetsVisited s) (aliensEncountered s) (resourcesGathered s)
    (jumpsCompleted s) v (actionsToken s) (closestDistance s).

Definition setClosestDistance (v : Z) (s : Stats) : Stats :=
  mkStats (planetsVisited s) (aliensEncountered s) (resourcesGathered s)
    (jumpsCompleted s) (deathCount s) (actionsToken s) (Some v).

Definition setSkills (m : gmap string Skill) (g : GameState) : GameState :=
  mkGameState (version g) (saveSlot g) (lastSaved g) (currentLocation g)
    (ship g) (inventory g) (conversationHistory g) (currentNarrative g)
    (currentOptions g) (stats g) m (actionHistory g).

Definition setPoints (v : Z) (s : Skill) : Skill := mkSkill (level s) (xp s) v.

Definition setActionHistory (h : list ActionEntry) (g : GameState) : GameState :=
  mkGameState (version g) (saveSlot g) (lastSaved g) (currentLocation g)
    (ship g) (inventory g) (conversationHistory g) (currentNarrative g)
    (currentOptions g) (stats g) (skills g) h.

(** ** Dice and skill system *)

(** [rollDice(sides)], [rnd] being the value of [Math.random()]. *)
Definition rollDice (rnd : Q) (sides : Z) : Z :=
  Qfloor (rnd * inject_Z sides) + 1.

(** The difficulty class of a check, [DIFFICULTY_DC[key] || 12]: a number,
    or for the keys [constructor] and [__proto__] the member that the
    table inherits, which is truthy and so is kept. *)
Inductive Dc : Type :=
  | DcNumber (n : Z)
  | DcMember (key : string).

(** [total >= dc]; a function or an object compares as [NaN]. *)
Definition reaches (total : Z) (dc : Dc) : bool :=
  match dc with
  | DcNumber n => total >=? n
  | DcMember _ => false
  end.

(** The object that [performSkillCheck] returns. Its field [success] is
    [total >= dc], fixed when the object is made and never written
    again; it is read off the two fields here. *)
Record SkillCheck : Type := mkSkillCheck {
  roll : Z;
  bonuses : Z;
  total : Z;
  dc : Dc;
  criticalSuccess : bool;
  criticalFailure : bool;
  checkDifficulty : string;          (* the field difficulty *)
  skillUsed : option string
}.

Definition success (check : SkillCheck) : bool := reaches (total check) (dc check).

Definition performSkillCheck (rnd : Q) (difficulty : string) (bonuses : Z)
    (skillName : option string) : SkillCheck :=
  let roll := rollDice rnd 20 in
  let total := roll + bonuses in
  let dc :=
    match readKey (Js.toLowerCase difficulty) DIFFICULTY_DC with
    | Own n => DcNumber (orNumber (Some n) 12)
    | Inherited => DcMember (Js.toLowerCase difficulty)
    | Undefined => DcNumber 12
    end in
  {| roll := roll;
     bonuses := bonuses;
     total := total;
     dc := dc;
     criticalSuccess := roll =? 20;
     criticalFailure := roll =? 1;
     checkDifficulty := difficulty;
     skillUsed := skillName |}.

Definition combatKeywords : list string :=
  ["attack"; "fight"; "shoot"; "defend"; "weapon"; "kill";
   "battle"; "combat"; "strike"; "hit"; "dodge"; "block";
   "charge"; "assault"; "aggressive"].

Definition technologyKeywords : list string :=
  ["repair"; "fix"; "craft"; "build"; "upgrade"; "modify";
   "engineer"; "construct"; "assemble"; "calibrate"; "system";
   "computer"; "terminal"; "code"; "hack"; "program"; "wire";
   "circuit"; "technology"; "device"; "tool"].

Definition survivalKeywords : list string :=
  ["gather"; "collect"; "harvest"; "hunt"; "forage"; "scavenge";
   "water"; "food"; "shelter"; "medicine"; "heal"; "survive";
   "resource"; "toxin"; "radiation"; "temperature"; "hazard";
   "environmental"; "adapt"].

Definition explorationKeywords : list string :=
  ["explore"; "search"; "investigate"; "examine"; "look";
   "scout"; "survey"; "navigate"; "map"; "discover"; "find";
   "study"; "analyze"; "inspect"; "observe"; "wander"; "trek";
   "journey"; "travel"; "climb"; "descend"; "venture"].

(** [for (const keyword of keywords) if (text.includes(keyword)) return ...] *)
Definition anyKeyword (text : string) (keywords : list string) : bool :=
  existsb (fun keyword => Js.includes text keyword) keywords.

Definition detectSkillFromAction (actionText : string) : string :=
  let text := Js.toLowerCase actionText in
  if anyKeyword text combatKeywords then "combat"
  else if anyKeyword text technologyKeywords then "technology"
  else if anyKeyword text survivalKeywords then "survival"
  else if anyKeyword text explorationKeywords then "exploration"
  else "exploration".

Record SkillProgress : Type := mkSkillProgress {
  pointsAwarded : bool;
  pointsEarned : Z;
  newTotal : Z;
  progressSkill : string             (* the field skillName *)
}.

(** [awardSkillPoints]: the state after the call and the value returned
    ([None] is [null]). The script calls it with a name that
    [detectSkillFromAction] gives. *)
Definition awardSkillPoints (g : GameState) (skillName : string)
    (diceRollResult : SkillCheck) : GameState * option SkillProgress :=
  match skills g !! skillName with
  | None => (g, None)
  | Some skill =>
      if negb (success diceRollResult) then (g, None)
      else
        match dc diceRollResult with
        | DcNumber d =>
            let marginOfSuccess := total diceRollResult - d in
            let pointsEarned := Z.max 1 marginOfSuccess in
            let skill' := setPoints (points skill + pointsEarned) skill in
            (setSkills (<[skillName := skill']> (skills g)) g,
             Some (mkSkillProgress true pointsEarned (points skill') skillName))
        | DcMember _ =>
            (* no check succeeds against a member of [Object.prototype] *)
            (g, None)
        end
  end.

(** ** Response parsing *)

Import Re.

Definition chr (s : string) : ascii :=
  match s with
  | String c _ => c
  | EmptyString => Ascii.zero
  end.

Definition sp : regex := Atom Space.
Definition wd : regex := Atom Word.
Definition dg : regex := Atom Digit.

(** The patterns of [detectDeathInNarrative], in the order of the source. *)
Definition deathPhrases : list Re.t :=
  map (fun p => Re.Make p false)
  [ (* /you\s+(die|died|have died|are dead)/ *)
    Seqs [Str "you"; Plus true sp;
          Group 1 (Alts [Str "die"; Str "died"; Str "have died"; Str "are dead"])];
    (* /your\s+death/ *)
    Seqs [Str "your"; Plus true sp; Str "death"];
    (* /(succumb|perish|perished)/ *)
    Group 1 (Alts [Str "succumb"; Str "perish"; Str "perished"]);
    (* /(life|consciousness)\s+(fades|slips away)/ *)
    Seqs [Group 1 (Alts [Str "life"; Str "consciousness"]); Plus true sp;
          Group 2 (Alts [Str "fades"; Str "slips away"])];
    (* /(last|final)\s+breath/ *)
    Seqs [Group 1 (Alts [Str "last"; Str "final"]); Plus true sp; Str "breath"];
    (* /cease\s+to\s+exist/ *)
    Seqs [Str "cease"; Plus true sp; Str "to"; Plus true sp; Str "exist"];
    (* /game\s+over/ *)
    Seqs [Str "game"; Plus true sp; Str "over"];
    (* /the\s+end\s+(has\s+)?come/ *)
    Seqs [Str "the"; Plus true sp; Str "end"; Plus true sp;
          Opt (Group 1 (Seq (Str "has") (Plus true sp))); Str "come"];
    (* /no\s+survivors/ *)
    Seqs [Str "no"; Plus true sp; Str "survivors"];
    (* /you\s+are\s+dead/ *)
    Seqs [Str "you"; Plus true sp; Str "are"; Plus true sp; Str "dead"];
    (* /breath\s+stops/ *)
    Seqs [Str "breath"; Plus true sp; Str "stops"];
    (* /consciousness\s+fades/ *)
    Seqs [Str "consciousness"; Plus true sp; Str "fades"] ].

Definition detectDeathInNarrative (narrative : string) : bool :=
  let text := Js.toLowerCase narrative in
  existsb (fun pattern => Re.test pattern text) deathPhrases.

(** The delta parsed from a STATE UPDATE section; an absent field is
    [None]. *)
Record StateUpdate : Type := mkStateUpdate {
  uShip : option Z;
  uFuel : option Z;
  uDistance : option Z;
  uInventory : option (gmap string Z)
}.

Record ParsedResponse : Type := mkParsedResponse {
  narrative : string;
  stateUpdate : option StateUpdate;
  options : list Choice;
  isPlayerDead : bool
}.

(** /([+-])?\s*(\w+)\s*x\s*(\d+)/gi *)
Definition inventoryRe : Re.t :=
  Re.Make
    (Seqs [Opt (Group 1 (Atom (OneOf [chr "+"; chr "-"]))); Star true sp;
           Group 2 (Plus true wd); Star true sp; Atom (Lit (chr "x"));
           Star true sp; Group 3 (Plus true dg)])
    true.

(** The [while ((match = regex.exec(text)) !== null)] loop of
    [parseInventoryChange]; [None] when [fuel] iterations do not reach the
    end of the loop. *)
Fixpoint inventoryLoop (fuel : nat) (text : string) (lastIndex : nat)
    (changes : gmap string Z) : option (gmap string Z) :=
  match fuel with
  | O => None
  | S fuel' =>
      match Re.execAt inventoryRe text lastIndex with
      | None => Some changes
      | Some m =>
          let sign :=
            match Re.group 1 m with
            | Some EmptyString | None => "+"
            | Some s => s
            end in
          let item := Js.toLowerCase (default "" (Re.group 2 m)) in
          let amount := default 0 (Js.parseInt (default "" (Re.group 3 m))) in
          inventoryLoop fuel' text (Re.last m)
            (writeKey item (if String.eqb sign "+" then amount else - amount) changes)
      end
  end.

Definition parseInventoryChange (text : string) : option (gmap string Z) :=
  inventoryLoop (S (String.length text)) text 0 ∅.

(** /ship/i, /fuel/i, /distance/i, /inventory/i *)
Definition wordRe (w : string) : Re.t := Re.Make (Str w) true.

(** /([+-]?\d+)%?/ *)
Definition percentRe : Re.t :=
  Re.Make
    (Seq (Group 1 (Seq (Opt (Atom (OneOf [chr "+"; chr "-"]))) (Plus true dg)))
         (Opt (Atom (Lit (chr "%")))))
    false.

(** /([+-]?\d+)/ *)
Definition signedRe : Re.t :=
  Re.Make
    (Group 1 (Seq (Opt (Atom (OneOf [chr "+"; chr "-"]))) (Plus true dg)))
    false.

(** [parseInt(match[1])] after [if (match)]; the captured text is a signed
    run of digits, for which [parseInt] is a number. *)
Definition capturedInt (re : Re.t) (s : string) : option Z :=
  match Re.exec re s with
  | Some m => Js.parseInt (default "" (Re.group 1 m))
  | None => None
  end.

(** The body of [parts.forEach] in [parseStateUpdate]. *)
Definition parseClause (updates : StateUpdate) (part : string) : option StateUpdate :=
  let trimmed := Js.trim part in
  let u1 :=
    if Re.test (wordRe "ship") trimmed then
      match capturedInt percentRe trimmed with
      | Some n => mkStateUpdate (Some n) (uFuel updates) (uDistance updates) (uInventory updates)
      | None => updates
      end
    else updates in
  let u2 :=
    if Re.test (wordRe "fuel") trimmed then
      match capturedInt signedRe trimmed with
      | Some n => mkStateUpdate (uShip u1) (Some n) (uDistance u1) (uInventory u1)
      | None => u1
      end
    else u1 in
  let u3 :=
    if Re.test (wordRe "distance") trimmed then
      match capturedInt signedRe trimmed with
      | Some n => mkStateUpdate (uShip u2) (uFuel u2) (Some n) (uInventory u2)
      | None => u2
      end
    else u2 in
  if Re.test (wordRe "inventory") trimmed then
    changes ← parseInventoryChange trimmed;
    Some (mkStateUpdate (uShip u3) (uFuel u3) (uDistance u3) (Some changes))
  else Some u3.

Fixpoint parseClauses (updates : StateUpdate) (parts : list string) : option StateUpdate :=
  match parts with
  | [] => Some updates
  | part :: parts' =>
      updates' ← parseClause updates part;
      parseClauses updates' parts'
  end.

Definition parseStateUpdate (updateText : string) : option StateUpdate :=
  parseClauses (mkStateUpdate None None None None) (Js.split (chr "|") updateText).

(** The tail shared by the option patterns:
    \s*(.+?)\s*\((\w+(?:\s+\w+)?)\)\s*$ with groups [i] and [i+1]. *)
Definition optionTail (i : nat) : list regex :=
  [Star true sp; Group i (Plus false (Atom Dot)); Star true sp;
   Atom (Lit (chr "("));
   Group (S i) (Seq (Plus true wd) (Opt (Seq (Plus true sp) (Plus true wd))));
   Atom (Lit (chr ")")); Star true sp; Eol].

(** /^\d+\.\s*(.+?)\s*\((\w+(?:\s+\w+)?)\)\s*$/i *)
Definition optionRe : Re.t :=
  Re.Make (Seqs ([Bol; Plus true dg; Atom (Lit (chr "."))] ++ optionTail 1)%list) true.

Definition parseOptions (optionsText : string) : list Choice :=
  let lines := Js.split Js.LF optionsText in
  fold_left (fun options line =>
      match Re.exec optionRe line with
      | Some m =>
          (options ++ [mkChoice (Js.trim (default "" (Re.group 1 m)))
                                (Js.trim (default "" (Re.group 2 m)))])%list
      | None => options
      end) lines [].

(** /^\s*(\d+)\.\s*(.+?)\s*\((\w+(?:\s+\w+)?)\)\s*$/i *)
Definition withDiffRe : Re.t :=
  Re.Make
    (Seqs ([Bol; Star true sp; Group 1 (Plus true dg); Atom (Lit (chr "."))]
           ++ optionTail 2)%list)
    true.

(** /^\s*(\d+)\.\s*(.+?)\s*$/i *)
Definition noDiffRe : Re.t :=
  Re.Make
    (Seqs [Bol; Star true sp; Group 1 (Plus true dg); Atom (Lit (chr "."));
           Star true sp; Group 2 (Plus false (Atom Dot)); Star true sp; Eol])
    true.

(** The difficulty inferred for a numbered line without a parenthetical. *)
Definition inferDifficulty (actionText : string) : string :=
  let lowerText := Js.toLowerCase actionText in
  if Js.includes lowerText "search" || Js.includes lowerText "look"
     || Js.includes lowerText "gather" || Js.includes lowerText "collect"
  then "Easy"
  else if Js.includes lowerText "explore" || Js.includes lowerText "investigate"
          || Js.includes lowerText "examine"
  then "Medium"
  else if Js.includes lowerText "repair" || Js.includes lowerText "climb"
          || Js.includes lowerText "fight" || Js.includes lowerText "attack"
  then "Hard"
  else "Medium".

(** The body of [lines.forEach] in [parseOptionsFromAnywhere]: the option
    pushed for [line], if any. *)
Definition optionOfLine (line : string) : option Choice :=
  let matchWithDiff := Re.exec withDiffRe line in
  let matchNoDiff := Re.exec noDiffRe line in
  match matchWithDiff with
  | Some m =>
      Some (mkChoice (Js.trim (default "" (Re.group 2 m)))
                     (Js.trim (default "" (Re.group 3 m))))
  | None =>
      match matchNoDiff with
      | Some m =>
          let actionText := Js.trim (default "" (Re.group 2 m)) in
          if (5 <? String.length actionText)%nat
          then Some (mkChoice actionText (inferDifficulty actionText))
          else None
      | None => None
      end
  end.

Definition parseOptionsFromAnywhere (text : string) : list Choice :=
  let lines := Js.split Js.LF text in
  fold_left (fun options line =>
      match optionOfLine line with
      | Some o => (options ++ [o])%list
      | None => options
      end) lines [].

(** /\[STATE UPDATE\]([\s\S]*?)(?:\[OPTIONS\]|$)/i *)
Definition stateMatchRe : Re.t :=
  Re.Make
    (Seqs [Str "[STATE UPDATE]"; Group 1 (Star false (Atom AnyChar));
           Alt (Str "[OPTIONS]") Eol])
    true.

(** /\[STATE UPDATE\][\s\S]*?(?=\[OPTIONS\]|$)/i *)
Definition stateRemoveRe : Re.t :=
  Re.Make
    (Seqs [Str "[STATE UPDATE]"; Star false (Atom AnyChar);
           LookAhead (Alt (Str "[OPTIONS]") Eol)])
    true.

(** /\[OPTIONS\]([\s\S]*?)$/i *)
Definition optionsMatchRe : Re.t :=
  Re.Make (Seqs [Str "[OPTIONS]"; Group 1 (Star false (Atom AnyChar)); Eol]) true.

(** /\[OPTIONS\][\s\S]*$/ *)
Definition optionsRemoveRe : Re.t :=
  Re.Make (Seqs [Str "[OPTIONS]"; Star true (Atom AnyChar); Eol]) false.

(** /^\s*\d+\.\s*.+/ *)
Definition optionLineRe : Re.t :=
  Re.Make
    (Seqs [Bol; Star true sp; Plus true dg; Atom (Lit (chr "."));
           Star true sp; Plus true (Atom Dot)])
    false.

Definition defaultOptions : list Choice :=
  [mkChoice "Continue exploring" "Easy";
   mkChoice "Look around carefully" "Medium";
   mkChoice "Try something risky" "Hard"].

(** The options read from the delimited OPTIONS section of the working
    text ([[]] when there is no such section). *)
Definition sectionOptions (text : string) : list Choice :=
  match Re.exec optionsMatchRe text with
  | Some m => parseOptions (Js.trim (default "" (Re.group 1 m)))
  | None => []
  end.

(** The working text once the STATE UPDATE section is taken out. *)
Definition withoutStateUpdate (text : string) : string :=
  match Re.exec stateMatchRe text with
  | Some _ => Re.remove stateRemoveRe text
  | None => text
  end.

Definition parseGameMasterResponse (text : string) : option ParsedResponse :=
  let originalText := text in
  (* Extract state update *)
  stateUpdate ←
    match Re.exec stateMatchRe text with
    | Some m => Some <$> parseStateUpdate (Js.trim (default "" (Re.group 1 m)))
    | None => Some None
    end;
  let text1 := withoutStateUpdate text in
  (* Extract options *)
  let options1 := sectionOptions text1 in
  let text2 :=
    match Re.exec optionsMatchRe text1 with
    | Some _ => Re.remove optionsRemoveRe text1
    | None => text1
    end in
  (* Fallback: numbered lines from anywhere in the original text *)
  let options2 :=
    match options1 with
    | [] => parseOptionsFromAnywhere originalText
    | _ => options1
    end in
  let text3 :=
    match options1, options2 with
    | [], _ :: _ =>
        Js.join (String Js.LF EmptyString)
          (List.filter (fun line => negb (Re.test optionLineRe line))
                       (Js.split Js.LF text2))
    | _, _ => text2
    end in
  let narrative := Js.trim text3 in
  let isPlayerDead := detectDeathInNarrative narrative in
  (* If still no options, provide default ones *)
  let options3 :=
    match options2 with
    | [] => defaultOptions
    | _ => options2
    end in
  Some (mkParsedResponse narrative stateUpdate options3 isPlayerDead).

(** The options of a parsed response: those of the OPTIONS section, else
    those of the numbered lines of the whole text, else the defaults. *)
Definition chosenOptions (rawText : string) : list Choice :=
  match sectionOptions (withoutStateUpdate rawText) with
  | [] =>
      match parseOptionsFromAnywhere rawText with
      | [] => defaultOptions
      | fallback => fallback
      end
  | primary => primary
  end.

(** ** State management *)

(** [l.slice(-n)] *)
Definition sliceLast {A : Type} (n : nat) (l : list A) : list A :=
  drop (length l - n) l.

Definition pruneConversationHistory (g : GameState) : GameState :=
  if (maxConversationHistory <? length (conversationHistory g))%nat
  then setConversationHistory (sliceLast maxConversationHistory (conversationHistory g)) g
  else g.

(** The conversation kept by [pruneConversationHistory]. *)
Definition pruned (h : list Message) : list Message :=
  if (maxConversationHistory <? length h)%nat
  then sliceLast maxConversationHistory h
  else h.

(** The body of [Object.entries(updates.inventory).forEach]. *)
Definition applyInventoryEntry (item : string) (amount : Z) (g : GameState) : GameState :=
  (* Initialize item if it doesn't exist *)
  let inv :=
    match readKey item (inventory g) with
    | Undefined => writeKey item (Num 0) (inventory g)
    | _ => inventory g
    end in
  let sum :=
    match readKey item inv with
    | Own count => addAmount count amount
    | _ => NaN             (* a function or an object and a number make a text *)
    end in
  let g1 := setInventory (writeKey item (maxZero sum) inv) g in
  if 0 <? amount
  then setStats (setResourcesGathered (resourcesGathered (stats g1) + amount)) g1
  else g1.

Definition applyStateUpdates (g : GameState) (updates : option StateUpdate) : GameState :=
  match updates with
  | None => g
  | Some u =>
      let g1 :=
        match uShip u with
        | Some d => setShip (setHealth (Z.max 0 (Z.min 100 (health (ship g) + d)))) g
        | None => g
        end in
      let g2 :=
        match uFuel u with
        | Some d => setShip (setFuel (Z.max 0 (fuel (ship g1) + d))) g1
        | None => g1
        end in
      let g3 :=
        match uDistance u with
        | Some d =>
            let g' :=
              setLocation
                (setDistance (Z.max 0 (distanceFromCenter (currentLocation g2) + d))) g2 in
            (* Track closest distance reached (for stats) *)
            if d <? 0
            then setStats (setClosestDistance (distanceFromCenter (currentLocation g'))) g'
            else g'
        | None => g2
        end in
      match uInventory u with
      | Some changes => map_fold applyInventoryEntry g3 changes
      | None => g3
      end
  end.

(** The sum of the positive amounts of an inventory delta. *)
Definition gathered (changes : gmap string Z) : Z :=
  map_fold (fun _ amount acc => acc + Z.max 0 amount) 0 changes.

(** The bounds the reducer is to maintain: every count is a number, at 0
    or above. *)
Definition inBounds (g : GameState) : Prop :=
  0 <= health (ship g) <= 100 /\
  0 <= fuel (ship g) /\
  forall item count, inventory g !! item = Some count ->
    exists n, count = Num n /\ 0 <= n.

(** The same bounds with the count of one item left free. *)
Definition inBoundsExcept (free : string) (g : GameState) : Prop :=
  0 <= health (ship g) <= 100 /\
  0 <= fuel (ship g) /\
  forall item count, inventory g !! item = Some count -> item <> free ->
    exists n, count = Num n /\ 0 <= n.

(** The count of [item] once an entry of an inventory delta is applied to
    an inventory, [None] when the item is then no own property. *)
Definition countAfter (inv : gmap string Count) (item : string) (amount : Z)
    : option Count :=
  match inv !! item with
  | Some count => Some (maxZero (addAmount count amount))
  | None =>
      if isPrototypeMethod item then Some NaN
      else if isProto item then None
      else Some (Num (Z.max 0 amount))
  end.

(** ** Game logic *)

(** The callbacks handed to [setTimeout], and [DiceFrame], the frame of
    the dice animation, handed to [setInterval]. *)
Inductive Callback : Type :=
  | AutoSave
  | ShowGameOverModal
  | ShowApiKeyModal
  | DiceFrame.

Record Timer : Type := mkTimer {
  timerId : nat;
  callback : Callback;
  delay : Z
}.

(** The module-level variables of the script and what the page shows of
    them: the running game, the in-flight guard, the staged action, the
    handle of the auto-save timer, the pending timeouts, the error banner
    and the skill-spending modal. *)
Record World : Type := mkWorld {
  gameState : GameState;
  isProcessingAction : bool;
  pendingAction : option (string * string);
  autoSaveTimeout : option nat;
  timers : list Timer;
  nextTimer : nat;
  errorShown : option string;
  skillSpendModal : bool
}.

Definition setGameState (g : GameState) (w : World) : World :=
  mkWorld g (isProcessingAction w) (pendingAction w) (autoSaveTimeout w)
    (timers w) (nextTimer w) (errorShown w) (skillSpendModal w).

Definition setProcessing (b : bool) (w : World) : World :=
  mkWorld (gameState w) b (pendingAction w) (autoSaveTimeout w)
    (timers w) (nextTimer w) (errorShown w) (skillSpendModal w).

Definition showError (message : string) (w : World) : World :=
  mkWorld (gameState w) (isProcessingAction w) (pendingAction w) (autoSaveTimeout w)
    (timers w) (nextTimer w) (Some message) (skillSpendModal w).

Definition hideError (w : World) : World :=
  mkWorld (gameState w) (isProcessingAction w) (pendingAction w) (autoSaveTimeout w)
    (timers w) (nextTimer w) None (skillSpendModal w).

(** [setTimeout(cb, d)]: the world with the timer pending, and its handle. *)
Definition setTimeout (cb : Callback) (d : Z) (w : World) : World * nat :=
  (mkWorld (gameState w) (isProcessingAction w) (pendingAction w) (autoSaveTimeout w)
     (timers w ++ [mkTimer (nextTimer w) cb d]) (S (nextTimer w))
     (errorShown w) (skillSpendModal w),
   nextTimer w).

(** [setInterval(cb, d)]: the handle comes from the counter that
    [setTimeout] uses, and the timer stays pending until it is cleared. *)
Definition setInterval (cb : Callback) (d : Z) (w : World) : World * nat :=
  (mkWorld (gameState w) (isProcessingAction w) (pendingAction w) (autoSaveTimeout w)
     (timers w ++ [mkTimer (nextTimer w) cb d]) (S (nextTimer w))
     (errorShown w) (skillSpendModal w),
   nextTimer w).

(** [animateDiceRoll(check, skillProgress, callback)] as far as the call
    itself goes: the interval of the frames is started. The frames run
    later; they write to the dice display, and the last one clears the
    interval and sets the timeouts of the sounds and of the points line. *)
Definition animateDiceRoll (w : World) : World := fst (setInterval DiceFrame 100 w).

Definition clearTimeout (id : nat) (w : World) : World :=
  mkWorld (gameState w) (isProcessingAction w) (pendingAction w) (autoSaveTimeout w)
    (List.filter (fun t => negb (Nat.eqb (timerId t) id)) (timers w)) (nextTimer w)
    (errorShown w) (skillSpendModal w).

Definition scheduleAutoSave (w : World) : World :=
  let w1 :=
    match autoSaveTimeout w with
    | Some (S id) => clearTimeout (S id) w
    | _ => w
    end in
  let '(w2, id) := setTimeout AutoSave autoSaveDelay w1 in
  mkWorld (gameState w2) (isProcessingAction w2) (pendingAction w2) (Some id)
    (timers w2) (nextTimer w2) (errorShown w2) (skillSpendModal w2).

(** What [await callAI(userMessage)] comes back with. *)
Inductive AiResult : Type :=
  | Threw (message : string)        (* the call rejects with [Error(message)] *)
  | Returned (response : string).

(** [spentPoints === undefined] *)
Definition isUndefined (v : option Z) : bool :=
  match v with
  | None => true
  | Some _ => false
  end.

(** A string argument is truthy when it is neither [null] nor empty. *)
Definition truthy (s : option string) : bool :=
  match s with
  | Some (String _ _) => true
  | _ => false
  end.

(** The timer that a turn with a difficulty adds for its animation. *)
Definition diceTimers (w : World) (difficulty : option string) : list Timer :=
  if truthy difficulty then [mkTimer (nextTimer w) DiceFrame 100] else [].

(** A turn goes to the backend when it is not staged for the wager and no
    other turn is in flight. *)
Definition reachesOracle (w : World) (difficulty : option string)
    (spentPoints : option Z) : Prop :=
  (truthy difficulty && isUndefined spentPoints) = false /\
  isProcessingAction w = false.

Section Turn.

(** The collaborators of a turn: the text sent to the backend for a state,
    an action and a roll, and the backend itself, called with the
    conversation so far and that text. *)
Variable formatUserMessage : GameState -> string -> option SkillCheck -> string.
Variable callAI : list Message -> string -> AiResult.

(** The dice part of a turn with a difficulty: the wager is deducted, the
    check rolled, the points awarded. *)
Definition rollForAction (g : GameState) (actionText difficulty : string)
    (spentPoints : option Z) (rnd : Q) : GameState * SkillCheck :=
  let skillBonus := orNumber spentPoints 0 in
  let appliedSkill := detectSkillFromAction actionText in
  (* Deduct points before roll *)
  let g1 :=
    match spentPoints, skills g !! appliedSkill with
    | Some n, Some skill =>
        if 0 <? n
        then setSkills (<[appliedSkill := setPoints (points skill - n) skill]> (skills g)) g
        else g
    | _, _ => g
    end in
  let diceRoll := performSkillCheck rnd difficulty skillBonus (Some appliedSkill) in
  (* Calculate skill progress immediately (before AI) *)
  (fst (awardSkillPoints g1 appliedSkill diceRoll), diceRoll).

(** The state and the roll at the moment the backend is called. *)
Definition beforeOracle (g : GameState) (actionText : string)
    (difficulty : option string) (spentPoints : option Z) (rnd : Q)
    : GameState * option SkillCheck :=
  if truthy difficulty
  then
    let '(g', check) :=
      rollForAction g actionText (default "" difficulty) spentPoints rnd in
    (g', Some check)
  else (g, None).

(** The text sent to the backend for the turn. *)
Definition sentMessage (g : GameState) (actionText : string)
    (difficulty : option string) (spentPoints : option Z) (rnd : Q) : string :=
  let '(g1, diceRoll) := beforeOracle g actionText difficulty spentPoints rnd in
  formatUserMessage g1 actionText diceRoll.

(** The answer of the backend for the turn. *)
Definition oracleAnswer (g : GameState) (actionText : string)
    (difficulty : option string) (spentPoints : option Z) (rnd : Q) : AiResult :=
  let '(g1, diceRoll) := beforeOracle g actionText difficulty spentPoints rnd in
  callAI (conversationHistory g1) (formatUserMessage g1 actionText diceRoll).

(** The [catch] block. *)
Definition catchError (message : string) (w : World) : World :=
  let w1 := showError message w in
  if Js.includes message "API key"
  then fst (setTimeout ShowApiKeyModal 2000 w1)
  else w1.

(** The [finally] block. *)
Definition finallyIdle (w : World) : World := setProcessing false w.

(** One call of [processPlayerAction], run to completion with no other
    handler in between, so that the frames of the dice animation come
    after it; [rnd] is the draw of [Math.random] and [now] the value of
    [Date.now]. [None] when the parser does not return. *)
Definition processPlayerAction (w : World) (actionText : string)
    (difficulty : option string) (spentPoints : option Z)
    (rnd : Q) (now : Z) : option World :=
  (* If difficulty specified but no points decision made yet, show modal first *)
  if truthy difficulty && isUndefined spentPoints then
    Some (mkWorld (gameState w) (isProcessingAction w)
            (Some (actionText, default "" difficulty)) (autoSaveTimeout w)
            (timers w) (nextTimer w) (errorShown w) true)
  else if isProcessingAction w then Some w
  else
    let w1 := hideError (setProcessing true w) in
    (* Perform dice roll if difficulty specified *)
    let '(g1, diceRoll) :=
      beforeOracle (gameState w1) actionText difficulty spentPoints rnd in
    let w2 :=
      (* Animate dice roll with skill progress *)
      if truthy difficulty then animateDiceRoll (setGameState g1 w1)
      else setGameState g1 w1 in
    let userMessage := formatUserMessage g1 actionText diceRoll in
    match callAI (conversationHistory g1) userMessage with
    | Threw message => Some (finallyIdle (catchError message w2))
    | Returned response =>
        (* Update conversation history *)
        let g2 :=
          pruneConversationHistory
            (setConversationHistory
               (conversationHistory g1 ++
                  [mkMessage "user" userMessage; mkMessage "assistant" response]) g1) in
        parsed ← parseGameMasterResponse response;
        let g3 := applyStateUpdates g2 (stateUpdate parsed) in
        if isPlayerDead parsed then
          let g4 :=
            setCurrentOptions []
              (setCurrentNarrative (narrative parsed)
                 (setStats (setDeathCount (deathCount (stats g3) + 1)) g3)) in
          let w3 := fst (setTimeout ShowGameOverModal 1500 (setGameState g4 w2)) in
          Some (finallyIdle w3)
        else
          let g4 := setCurrentOptions (options parsed)
                      (setCurrentNarrative (narrative parsed) g3) in
          let entry :=
            mkActionEntry now actionText (Js.take 100 (narrative parsed) +:+ "...") in
          let h := entry :: actionHistory g4 in
          let h' := if (maxActionHistory <? length h)%nat then removelast h else h in
          let w3 := scheduleAutoSave (setGameState (setActionHistory h' g4) w2) in
          Some (finallyIdle w3)
    end.

End Turn.

(** The script right after a new game is created: nothing in flight,
    nothing staged, no timer pending. *)
Definition newWorld (now : Z) : World :=
  mkWorld (createInitialGameState now) false None None [] 1 None false.

(** Collaborators for closed examples: the message is the action text, the
    backend answers the same whatever it is asked. *)
Definition plainMessage (g : GameState) (actionText : string)
    (diceRoll : option SkillCheck) : string := actionText.

Definition fixedAnswer (r : AiResult) (history : list Message) (userMessage : string)
    : AiResult := r.

From Stdlib Require Import DecimalString.

(** * Further functions of the script *)

(** ** The skill-spending modal and its buttons *)

(** [gameState.skills[skill]?.points || 0] in [showSkillSpendModal]. *)
Definition availablePoints (g : GameState) (actionText : string) : Z :=
  orNumber (points <$> skills g !! detectSkillFromAction actionText) 0.

(** The [max] that [showSkillSpendModal] gives the points slider. *)
Definition sliderMax (g : GameState) (actionText : string) : Z :=
  Z.min 5 (availablePoints g actionText).

(** [hideModal('skill-spend-modal')] *)
Definition hideSkillSpendModal (w : World) : World :=
  mkWorld (gameState w) (isProcessingAction w) (pendingAction w) (autoSaveTimeout w)
    (timers w) (nextTimer w) (errorShown w) false.

(** [pendingAction = null] *)
Definition clearPending (w : World) : World :=
  mkWorld (gameState w) (isProcessingAction w) None (autoSaveTimeout w)
    (timers w) (nextTimer w) (errorShown w) (skillSpendModal w).

Section Buttons.

Variable formatUserMessage : GameState -> string -> option SkillCheck -> string.
Variable callAI : list Message -> string -> AiResult.

(** The click listener that [updateGameUI] puts on an option button. *)
Definition clickOption (w : World) (choice : Choice) (rnd : Q) (now : Z) : option World :=
  processPlayerAction formatUserMessage callAI w (text choice)
    (Some (difficulty choice)) None rnd now.

(** The listener of the spend-and-roll button, [points] being the value of
    the slider. Without a staged action the listener stops at
    [pendingAction.actionText], the modal already hidden. *)
Definition spendAndRoll (w : World) (points : Z) (rnd : Q) (now : Z) : option World :=
  let w1 := hideSkillSpendModal w in
  match pendingAction w1 with
  | Some (actionText, difficulty) =>
      w2 ← processPlayerAction formatUserMessage callAI w1 actionText
             (Some difficulty) (Some points) rnd now;
      Some (clearPending w2)
  | None => Some w1
  end.

(** The listener of the skip button. *)
Definition skipSpend (w : World) (rnd : Q) (now : Z) : option World :=
  let w1 := hideSkillSpendModal w in
  match pendingAction w1 with
  | Some (actionText, difficulty) =>
      w2 ← processPlayerAction formatUserMessage callAI w1 actionText
             (Some difficulty) (Some 0) rnd now;
      Some (clearPending w2)
  | None => Some w1
  end.

(** The listener of the cancel button. *)
Definition cancelAction (w : World) : World :=
  clearPending (hideSkillSpendModal w).

(** The submit listener of the custom action form, [input] being the
    value of the text field. *)
Definition submitCustomAction (w : World) (input : string) (rnd : Q) (now : Z)
    : option World :=
  let action := Js.trim input in
  match action with
  | EmptyString => Some w
  | _ => processPlayerAction formatUserMessage callAI w action None None rnd now
  end.

End Buttons.

(** The timers are in order when the handles handed out so far are
    positive and below [nextTimer], no two pending timers share a handle,
    and the pending timer that [autoSaveTimeout] names, if any, is an
    auto-save timer and the only one. *)
Definition timersOk (w : World) : Prop :=
  (1 <= nextTimer w)%nat /\
  (forall t, In t (timers w) -> (1 <= timerId t < nextTimer w)%nat) /\
  List.NoDup (map timerId (timers w)) /\
  (forall id, autoSaveTimeout w = Some id -> (id < nextTimer w)%nat) /\
  (forall t, In t (timers w) ->
     callback t = AutoSave <-> autoSaveTimeout w = Some (timerId t)).

Definition isAutoSave (t : Timer) : bool :=
  match callback t with
  | AutoSave => true
  | _ => false
  end.

(** The action history after [unshift] and the [pop] that keeps it within
    [maxActionHistory]. *)
Definition cappedHistory (h : list ActionEntry) : list ActionEntry :=
  if (maxActionHistory <? length h)%nat then removelast h else h.

(** The world with the staged action and the modal flag replaced. *)
Definition withPending (pending : option (string * string)) (modal : bool)
    (w : World) : World :=
  mkWorld (gameState w) (isProcessingAction w) pending (autoSaveTimeout w)
    (timers w) (nextTimer w) (errorShown w) modal.

(** ** Saving and loading *)

(** [String(n)] and [`${n}`] for an integer. *)
Definition numberToString (n : Z) : string :=
  DecimalString.NilZero.string_of_int (Z.to_int n).

(** 4.5 * 1024 * 1024 *)
Definition maxSaveSize : Z := 4718592.

(** A skill as a saved game may hold it: a bare level in the oldest
    saves, then an object with level and xp and no points (either may be
    missing), now an object with level, xp and points. *)
Inductive SavedSkill : Type :=
  | SkillNumber (level : Z)
  | SkillLevels (level xp : option Z)
  | SkillPoints (level xp points : Z).

(** The game state of a save: the state, and apart from it the skills in
    the format they were saved in ([None] when the save has no skills;
    the skills of [savedState] are not looked at). *)
Record SavedGame : Type := mkSavedGame {
  savedState : GameState;
  savedSkills : option (gmap string SavedSkill)
}.

Record Thumbnail : Type := mkThumbnail {
  thumbLocation : string;
  thumbStats : string;
  thumbLastAction : string
}.

Record SaveData : Type := mkSaveData {
  saveId : Z;
  saveTimestamp : Z;
  saveGameState : SavedGame;
  saveThumbnail : Thumbnail
}.

(** What a slot of the local storage holds: a text that [JSON.parse]
    rejects with [message], or the text of a save. *)
Inductive Stored : Type :=
  | Unparsable (message : string)
  | Parsed (data : SaveData).

(** A count as [JSON.stringify] writes it and [JSON.parse] reads it back:
    [NaN] is written as [null]. *)
Definition jsonCount (count : Count) : Count :=
  match count with
  | NaN => Null
  | _ => count
  end.

(** [JSON.parse(JSON.stringify(gameState))] *)
Definition toSaved (g : GameState) : SavedGame :=
  mkSavedGame (setInventory (jsonCount <$> inventory g) g)
    (Some ((fun sk => SkillPoints (level sk) (xp sk) (points sk)) <$> skills g)).

Definition defaultSkills : gmap string Skill :=
  list_to_map [("survival", mkSkill 1 0 0); ("technology", mkSkill 1 0 0);
               ("exploration", mkSkill 2 0 0); ("combat", mkSkill 1 0 0)].

(** The two migration steps of [loadGame] on one skill. *)
Definition migrateSkill (saved : SavedSkill) : Skill :=
  match saved with
  | SkillNumber n =>
      (* Convert old number format; its points are then defined *)
      mkSkill n 0 0
  | SkillLevels level xp =>
      (* Convert old level/xp format to new points format *)
      let oldLevel := orNumber level 1 in
      let oldXP := orNumber xp 0 in
      let convertedPoints := (oldLevel - 1) * 5 + oldXP / 2 in
      mkSkill 1 0 (Z.max 0 convertedPoints)
  | SkillPoints l x p => mkSkill l x p
  end.

Definition thumbnailOf (g : GameState) : Thumbnail :=
  mkThumbnail (planetName (currentLocation g))
    (numberToString (planetsVisited (stats g)) +:+ " planets")
    (match head (actionHistory g) with
     | Some (mkActionEntry _ (String c a) _) => String c a
     | _ => "New Game"
     end).

Section Storage.

(** The length of [JSON.stringify(saveData)]. *)
Variable serializedLength : SaveData -> Z.

(** [saveGame(slotNumber)] with a game running: the world, the save slots
    and the value returned. [writeError] is the message of the exception
    that [localStorage.setItem] throws, if it throws. *)
Definition saveGame (w : World) (storage : gmap Z Stored) (slotNumber now : Z)
    (writeError : option string) : World * gmap Z Stored * bool :=
  let saveData :=
    mkSaveData slotNumber now (toSaved (gameState w)) (thumbnailOf (gameState w)) in
  if maxSaveSize <? serializedLength saveData
  then (showError "Failed to save: Save file too large" w, storage, false)
  else
    match writeError with
    | Some message => (showError ("Failed to save: " +:+ message) w, storage, false)
    | None => (w, <[slotNumber := Parsed saveData]> storage, true)
    end.

(** [autoSave()], [autoSaveOn] being [getSettings().autoSave]. *)
Definition autoSave (autoSaveOn : bool) (w : World) (storage : gmap Z Stored)
    (now : Z) (writeError : option string) : World * gmap Z Stored :=
  if autoSaveOn then fst (saveGame w storage 0 now writeError) else (w, storage).

End Storage.

(** [loadGame(slotNumber)]: the world and the value returned. *)
Definition loadGame (w : World) (storage : gmap Z Stored) (slotNumber : Z)
    : World * bool :=
  match storage !! slotNumber with
  | None => (showError ("No save found in slot " +:+ numberToString slotNumber) w, false)
  | Some (Unparsable message) => (showError ("Failed to load: " +:+ message) w, false)
  | Some (Parsed saveData) =>
      let saved := saveGameState saveData in
      let migrated :=
        match savedSkills saved with
        | None => defaultSkills
        | Some sk => migrateSkill <$> sk
        end in
      (setGameState (setSkills migrated (savedState saved)) w, true)
  end.

(** An entry of [listSaveSlots()]; [slotSave] is [None] for [empty: true]. *)
Record SlotInfo : Type := mkSlotInfo {
  slot : Z;
  slotSave : option (Z * Thumbnail)
}.

Definition listSaveSlots (storage : gmap Z Stored) : list SlotInfo :=
  map (fun i =>
         match storage !! i with
         | Some (Parsed saveData) =>
             mkSlotInfo i (Some (saveTimestamp saveData, saveThumbnail saveData))
         | _ => mkSlotInfo i None
         end) [0; 1; 2; 3; 4; 5].

(** ** Starting a game *)

Record Scenario : Type := mkScenario {
  scenarioId : string;
  scenarioName : string;
  shipHealth : Z;
  scenarioFuel : Z;
  scenarioInventory : gmap string Z;
  prompt : string;
  systemContext : string
}.

Definition STARTING_SCENARIOS : list Scenario :=
  [
  {| scenarioId := "crash_landing";
     scenarioName := "Crash Landing";
     shipHealth := 15;
     scenarioFuel := 0;
     scenarioInventory := list_to_map [];
     prompt :=
       "Begin the game. The player wakes up disoriented inside their " +:+
       "crashed ship on a strange alien planet. The hull is " +:+
       "breached, alarms are blaring, and acrid smoke fills the " +:+
       "cockpit. Describe their immediate surroundings as they " +:+
       "stumble out of the wreckage.";
     systemContext := "Crashed on random planet, ship 15% functional, no fuel" |};
  {| scenarioId := "adrift_space";
     scenarioName := "Adrift in Space";
     shipHealth := 40;
     scenarioFuel := 5;
     scenarioInventory := list_to_map [("plutonium", 3); ("carbon", 2)];
     prompt :=
       "Begin the game. The player awakens from cryosleep aboard " +:+
       "their drifting ship. Life support is failing, the engines " +:+
       "are offline, and they are floating in space near an unknown " +:+
       "planet. Describe the eerie silence of the ship and the " +:+
       "strange world visible through the viewport.";
     systemContext := "Adrift in space near planet, ship 40% functional, minimal fuel" |};
  {| scenarioId := "underwater_pod";
     scenarioName := "Underwater Escape Pod";
     shipHealth := 5;
     scenarioFuel := 0;
     scenarioInventory := list_to_map [("oxygen", 50)];
     prompt :=
       "Begin the game. The player is trapped in an emergency escape " +:+
       "pod that has crashed into an alien ocean. Water is slowly " +:+
       "leaking in, emergency lights are flickering red, and through " +:+
       "the small window they can see bizarre aquatic life forms " +:+
       "circling. They must reach the surface and find land. " +:+
       "Describe this desperate situation.";
     systemContext := "Trapped in escape pod in alien ocean, ship 5% functional, critical oxygen supply" |};
  {| scenarioId := "derelict_freighter";
     scenarioName := "Derelict Freighter";
     shipHealth := 30;
     scenarioFuel := 15;
     scenarioInventory := list_to_map [("iron", 10); ("zinc", 5)];
     prompt :=
       "Begin the game. The player wakes up in the cargo bay of an " +:+
       "abandoned freighter orbiting a dead planet. Their small ship " +:+
       "is docked nearby but damaged. The freighter is dark, filled " +:+
       "with debris, and something is making scratching sounds in " +:+
       "the corridors. Describe this ominous awakening.";
     systemContext := "Aboard derelict freighter, ship 30% functional, limited fuel" |};
  {| scenarioId := "alien_study";
     scenarioName := "Alien Research Facility";
     shipHealth := 50;
     scenarioFuel := 20;
     scenarioInventory := list_to_map [("nanites", 5)];
     prompt :=
       "Begin the game. The player regains consciousness on a cold " +:+
       "metallic table in a sterile alien laboratory. Strange beings " +:+
       "with too many eyes are observing them, taking notes in an " +:+
       "incomprehensible language. Medical instruments hover nearby. " +:+
       "Through a translucent wall, they can see their ship intact " +:+
       "in a containment field. Describe this unsettling moment of " +:+
       "awakening.";
     systemContext := "Being studied by aliens in clinical facility, ship 50% functional and intact" |};
  {| scenarioId := "frozen_tundra";
     scenarioName := "Frozen Wasteland";
     shipHealth := 25;
     scenarioFuel := 8;
     scenarioInventory := list_to_map [("heridium", 7); ("titanium", 3)];
     prompt :=
       "Begin the game. The player awakens to freezing cold inside " +:+
       "their ship on an ice world. Frost covers every surface, the " +:+
       "heating system is failing, and howling winds batter the " +:+
       "hull. Through the viewport, they see strange ice formations " +:+
       "and what might be caves. Describe this frozen nightmare.";
     systemContext := "Crashed on ice world, ship 25% functional, heating failing" |}
  ].

Section NewGame.

Variable serializedLength : SaveData -> Z.
Variable callAI : list Message -> string -> AiResult.

(** [startNewGame()]: [rnd1] and [rnd2] are its two draws of
    [Math.random], [now] the time the state is created, and
    [autoSaveOn], [saveNow] and [writeError] what the final [autoSave]
    meets. Outside 0..5 the scenario is [undefined] and the function
    stops before it assigns anything. *)
Definition startNewGame (w : World) (storage : gmap Z Stored) (rnd1 rnd2 : Q)
    (now : Z) (autoSaveOn : bool) (saveNow : Z) (writeError : option string)
    : option (World * gmap Z Stored) :=
  let index := Qfloor (rnd1 * inject_Z (Z.of_nat (length STARTING_SCENARIOS))) in
  match (if index <? 0 then None else STARTING_SCENARIOS !! Z.to_nat index) with
  | None => Some (w, storage)
  | Some scenario =>
      let g0 := createInitialGameState now in
      (* Apply scenario-specific starting conditions *)
      let g1 := setShip (setHealth (shipHealth scenario)) g0 in
      let g2 := setShip (setFuel (scenarioFuel scenario)) g1 in
      let g3 := setInventory ((Num <$> scenarioInventory scenario) ∪ inventory g2) g2 in
      (* Randomize starting distance *)
      let randomDistance := 650000 + Qfloor (rnd2 * inject_Z 130000) in
      let g4 := setLocation (setDistance randomDistance) g3 in
      let w1 := hideError (setGameState g4 w) in
      match callAI (conversationHistory g4) (prompt scenario) with
      | Threw message =>
          Some (showError ("Failed to start game: " +:+ message) w1, storage)
      | Returned response =>
          let g5 :=
            setConversationHistory
              (conversationHistory g4 ++ [mkMessage "assistant" response]) g4 in
          parsed ← parseGameMasterResponse response;
          let g6 := applyStateUpdates g5 (stateUpdate parsed) in
          let g7 :=
            setCurrentOptions (options parsed)
              (setCurrentNarrative (narrative parsed) g6) in
          Some (autoSave serializedLength autoSaveOn (setGameState g7 w1) storage
                  saveNow writeError)
      end
  end.

End NewGame.

(** ** The API key and the Claude backend *)

(** The API key is kept as [getApiKey()] returns it: [None] is [null].
    An empty key encodes to the empty text, which [getApiKey] reads as
    no key. *)
Definition saveApiKey (key : string) : option string :=
  match key with
  | EmptyString => None
  | _ => Some key
  end.

(** [importApiKeyFromUrl()]: [keyParam] is the [key] parameter of the
    page address ([None] when absent); the result is the key now stored
    and the value returned. *)
Definition importApiKeyFromUrl (keyParam : option string) (apiKey : option string)
    : option string * bool :=
  if truthy keyParam && truthy (Some (Js.trim (default "" keyParam))) then
    (* Validate key format (basic check for Anthropic key) *)
    if Js.startsWith "sk-ant-" (default "" keyParam)
    then (saveApiKey (Js.trim (default "" keyParam)), true)
    else (apiKey, false)
  else (apiKey, false).

(** What the body of a successful response gives: the text of
    [data.content[0].text], or the message of the exception raised on
    the way to it. *)
Inductive ResponseBody : Type :=
  | BadBody (message : string)
  | TextBody (text : string).

(** What [fetch] comes back with: a rejection, or a response with its
    status. *)
Inductive FetchResult : Type :=
  | FetchFailed (message : string)
  | HttpResponse (status : Z) (body : ResponseBody).

(** [response.ok] *)
Definition statusOk (status : Z) : bool := (200 <=? status) && (status <=? 299).

(** [callClaudeBackend(userMessage)]: the key stored afterwards and the
    outcome. [fetch] answers a request made with a key for a list of
    messages. *)
Definition callClaudeBackend (fetch : string -> list Message -> FetchResult)
    (apiKey : option string) (history : list Message) (userMessage : string)
    : option string * AiResult :=
  if negb (truthy apiKey) then (apiKey, Threw "API key required")
  else
    let messages := (history ++ [mkMessage "user" userMessage])%list in
    match fetch (default "" apiKey) messages with
    | FetchFailed message => (apiKey, Threw message)
    | HttpResponse status body =>
        if negb (statusOk status) then
          if status =? 401
          then (None, Threw "Invalid API key. Please enter a new one.")
          else (apiKey, Threw ("API error: " +:+ numberToString status))
        else
          match body with
          | BadBody message => (apiKey, Threw message)
          | TextBody text => (apiKey, Returned text)
          end
    end.

Section ClaudeTurn.

Variable formatUserMessage : GameState -> string -> option SkillCheck -> string.
Variable fetch : string -> list Message -> FetchResult.

(** The backend of a turn played with the Claude backend and the key
    [apiKey]. *)
Definition claudeAI (apiKey : option string) (history : list Message)
    (userMessage : string) : AiResult :=
  snd (callClaudeBackend fetch apiKey history userMessage).

(** The key stored after such a turn: the backend is called once, when
    the turn gets that far. *)
Definition keyAfterTurn (apiKey : option string) (w : World) (actionText : string)
    (difficulty : option string) (spentPoints : option Z) (rnd : Q) : option string :=
  if (truthy difficulty && isUndefined spentPoints) || isProcessingAction w
  then apiKey
  else
    let '(g1, diceRoll) :=
      beforeOracle (gameState w) actionText difficulty spentPoints rnd in
    fst (callClaudeBackend fetch apiKey (conversationHistory g1)
           (formatUserMessage g1 actionText diceRoll)).

End ClaudeTurn.

(** The keys of the inventory delta of a STATE UPDATE section are in lower
    case, and [__proto__] is none of them. *)
Definition lowerKeys (u : StateUpdate) : Prop :=
  forall changes, uInventory u = Some changes ->
    (forall item amount, changes !! item = Some amount -> Js.toLowerCase item = item) /\
    changes !! "__proto__" = None.

(** Every character, for checks by enumeration. *)
Definition allAscii : list ascii := map ascii_of_nat (seq 0 256).

(** A word of lower-case letters a..z. *)
Fixpoint isLowerWord (w : string) : bool :=
  match w with
  | EmptyString => true
  | String c t => Js.isLowerAZ c && isLowerWord t
  end.

(** The words that make a clause of a STATE UPDATE section count. *)
Definition clauseWords : list string := ["ship"; "fuel"; "distance"; "inventory"].

(** The phrases of [deathPhrases] written with single spaces. *)
Definition deathWords : list string :=
  ["you die"; "you have died"; "you are dead"; "your death";
   "succumb"; "perish";
   "life fades"; "life slips away"; "consciousness fades"; "consciousness slips away";
   "last breath"; "final breath"; "cease to exist"; "game over";
   "the end come"; "the end has come"; "no survivors"; "breath stops"].

(** * Properties *)

(** ** Dice resolver *)

Lemma rollDice_range (rnd : Q) :
  (0 <= rnd)%Q -> (rnd < 1)%Q -> 1 <= rollDice rnd 20 <= 20.
Proof.
  intros Hlo Hhi. unfold rollDice.
  assert (Hnn : (inject_Z 0 <= rnd * inject_Z 20)%Q).
  { apply Qmult_le_0_compat; [exact Hlo | discriminate]. }
  assert (Hlt : (rnd * inject_Z 20 < inject_Z 20)%Q).
  { apply Qlt_le_trans with (1 * inject_Z 20)%Q.
    - apply Qmult_lt_compat_r; [reflexivity | exact Hhi].
    - rewrite Qmult_1_l. apply Qle_refl. }
  assert (H0 : 0 <= Qfloor (rnd * inject_Z 20)).
  { rewrite <- (Qfloor_Z 0). apply Qfloor_resp_le. exact Hnn. }
  assert (H1 : Qfloor (rnd * inject_Z 20) < 20).
  { rewrite Zlt_Qlt. eapply Qle_lt_trans; [apply Qfloor_le | exact Hlt]. }
  lia.
Qed.

Lemma dc_of_tier (rnd : Q) (difficulty : string) (bonus : Z) (skill : option string) (v : Z) :
  DIFFICULTY_DC !! Js.toLowerCase difficulty = Some v -> v <> 0 ->
  dc (performSkillCheck rnd difficulty bonus skill) = DcNumber v.
Proof.
  intros Hv Hnz. cbn [performSkillCheck dc]. unfold readKey. rewrite Hv. unfold orNumber.
  destruct (Z.eqb_spec v 0); [contradiction | reflexivity].
Qed.

(** A tier string that is no key of the table and no member of
    [Object.prototype] is checked against 12. *)
Lemma dc_of_unlisted_tier (rnd : Q) (difficulty : string) (bonus : Z) (skill : option string) :
  DIFFICULTY_DC !! Js.toLowerCase difficulty = None ->
  isPrototypeMethod (Js.toLowerCase difficulty) || isProto (Js.toLowerCase difficulty)
    = false ->
  dc (performSkillCheck rnd difficulty bonus skill) = DcNumber 12.
Proof.
  intros Hv Hm. cbn [performSkillCheck dc]. unfold readKey. rewrite Hv, Hm. reflexivity.
Qed.

(** The members of [Object.prototype] are no keys of the table. *)
Lemma inherited_tier_unlisted (key : string) :
  isPrototypeMethod key || isProto key = true -> DIFFICULTY_DC !! key = None.
Proof.
  intros Hm. destruct (DIFFICULTY_DC !! key) as [v |] eqn:Hv; [| reflexivity].
  apply elem_of_list_to_map_2 in Hv. exfalso.
  repeat (apply elem_of_cons in Hv as [[= -> ->] | Hv]; [vm_compute in Hm; discriminate Hm |]).
  apply elem_of_nil in Hv. exact Hv.
Qed.

(** A tier string that names a member of [Object.prototype] is checked
    against that member, and the check fails whatever the roll. *)
Lemma dc_of_inherited_tier (rnd : Q) (difficulty : string) (bonus : Z)
    (skill : option string) :
  isPrototypeMethod (Js.toLowerCase difficulty) || isProto (Js.toLowerCase difficulty)
    = true ->
  dc (performSkillCheck rnd difficulty bonus skill) = DcMember (Js.toLowerCase difficulty) /\
  success (performSkillCheck rnd difficulty bonus skill) = false.
Proof.
  intros Hm. unfold success. cbn [performSkillCheck dc total]. unfold readKey.
  rewrite (inherited_tier_unlisted _ Hm), Hm. split; reflexivity.
Qed.

(** C4, as amended: for every tier string and bonus the check has
    total = roll + bonus with the roll in 1..20; the difficulty class of
    the tiers easy, medium, hard and very hard (in any letter case) is
    6, 9, 13 and 17; success holds exactly when total >= dc, which no
    total is when the tier names a member of [Object.prototype] and the
    dc is no number; a critical
    success is a raw roll of 20 and a critical failure a raw roll of 1,
    whatever the bonus and the outcome. *)
Theorem performSkillCheck_spec (rnd : Q) (difficulty : string) (bonus : Z)
    (skill : option string) :
  (0 <= rnd)%Q -> (rnd < 1)%Q ->
  let c := performSkillCheck rnd difficulty bonus skill in
  roll c = rollDice rnd 20 /\
  1 <= roll c <= 20 /\
  total c = roll c + bonus /\
  (Js.toLowerCase difficulty = "easy" -> dc c = DcNumber 6) /\
  (Js.toLowerCase difficulty = "medium" -> dc c = DcNumber 9) /\
  (Js.toLowerCase difficulty = "hard" -> dc c = DcNumber 13) /\
  (Js.toLowerCase difficulty = "very hard" -> dc c = DcNumber 17) /\
  (success c = true <-> exists d, dc c = DcNumber d /\ d <= total c) /\
  (criticalSuccess c = true <-> roll c = 20) /\
  (criticalFailure c = true <-> roll c = 1).
Proof.
  intros Hlo Hhi c.
  split; [reflexivity |].
  split; [exact (rollDice_range rnd Hlo Hhi) |].
  split; [reflexivity |].
  repeat split.
  - intros H. apply dc_of_tier with (v := 6); [rewrite H; reflexivity | lia].
  - intros H. apply dc_of_tier with (v := 9); [rewrite H; reflexivity | lia].
  - intros H. apply dc_of_tier with (v := 13); [rewrite H; reflexivity | lia].
  - intros H. apply dc_of_tier with (v := 17); [rewrite H; reflexivity | lia].
  - unfold success. destruct (dc c) as [d | key]; cbn [reaches]; [| discriminate].
    intros H. exists d. split; [reflexivity |]. apply Z.geb_le in H. lia.
  - unfold success. intros (d & -> & H). cbn [reaches]. apply Z.geb_le. lia.
  - subst c. cbn [criticalSuccess roll performSkillCheck]. apply Z.eqb_eq.
  - subst c. cbn [criticalSuccess roll performSkillCheck]. apply Z.eqb_eq.
  - subst c. cbn [criticalFailure roll performSkillCheck]. apply Z.eqb_eq.
  - subst c. cbn [criticalFailure roll performSkillCheck]. apply Z.eqb_eq.
Qed.

Lemma performSkillCheck_spec_witness :
  dc (performSkillCheck (19 # 20) "Very Hard" 2 None) = DcNumber 17 /\
  success (performSkillCheck (19 # 20) "Very Hard" 2 None) = true.
Proof.
  pose proof (performSkillCheck_spec (19 # 20) "Very Hard" 2 None) as H.
  assert (Hlo : (0 <= 19 # 20)%Q) by (unfold Qle; simpl; lia).
  assert (Hhi : (19 # 20 < 1)%Q) by (unfold Qlt; simpl; lia).
  specialize (H Hlo Hhi). cbv zeta in H.
  destruct H as (_ & _ & _ & _ & _ & _ & Hvh & Hs & _).
  split; [apply Hvh; reflexivity |].
  apply Hs. exists 17. split; [apply Hvh; reflexivity |]. vm_compute. discriminate.
Defined.

(** C4 as stated fails: the easy tier is checked against 6, not 8, so a
    total of 7 succeeds. *)
Lemma performSkillCheck_easy_not_8 :
  let c := performSkillCheck (3 # 10) "Easy" 0 None in
  total c = 7 /\ dc c = DcNumber 6 /\ dc c <> DcNumber 8 /\ success c = true /\
  ~ (success c = true <-> 8 <= total c).
Proof.
  vm_compute. repeat split; try discriminate.
  intros [H _]. specialize (H eq_refl). apply H. reflexivity.
Qed.

(** ** Skill classifier *)

Lemma anyKeyword_true (text : string) (keywords : list string) :
  anyKeyword text keywords = true <->
  exists keyword, In keyword keywords /\ Js.includes text keyword = true.
Proof. unfold anyKeyword. apply existsb_exists. Qed.

Lemma anyKeyword_false (text : string) (keywords : list string) :
  anyKeyword text keywords = false <->
  forall keyword, In keyword keywords -> Js.includes text keyword = false.
Proof.
  unfold anyKeyword. rewrite <- not_true_iff_false, existsb_exists. split.
  - intros H k Hk. apply not_true_iff_false. intros Hi. apply H. eauto.
  - intros H (k & Hk & Hi). rewrite (H k Hk) in Hi. discriminate.
Qed.

(** C8: the classification depends on the lower-cased text only; the
    categories are tried in the order combat, technology, survival,
    exploration and the first with a keyword in the text wins, so a text
    with a combat keyword is combat whatever else it contains; a text with
    no keyword is exploration. *)
Theorem detectSkillFromAction_precedence (actionText : string) :
  let text := Js.toLowerCase actionText in
  (forall other, Js.toLowerCase other = text ->
     detectSkillFromAction other = detectSkillFromAction actionText) /\
  ((exists k, In k combatKeywords /\ Js.includes text k = true) ->
     detectSkillFromAction actionText = "combat") /\
  ((forall k, In k combatKeywords -> Js.includes text k = false) ->
   (exists k, In k technologyKeywords /\ Js.includes text k = true) ->
     detectSkillFromAction actionText = "technology") /\
  ((forall k, In k (combatKeywords ++ technologyKeywords) -> Js.includes text k = false) ->
   (exists k, In k survivalKeywords /\ Js.includes text k = true) ->
     detectSkillFromAction actionText = "survival") /\
  ((forall k, In k (combatKeywords ++ technologyKeywords ++ survivalKeywords) ->
      Js.includes text k = false) ->
     detectSkillFromAction actionText = "exploration") /\
  ((exists k, In k combatKeywords /\ Js.includes text k = true) ->
   (exists k, In k explorationKeywords /\ Js.includes text k = true) ->
     detectSkillFromAction actionText = "combat").
Proof.
  intros text. unfold detectSkillFromAction. fold text.
  split; [intros other Ho; unfold detectSkillFromAction; rewrite Ho; reflexivity |].
  split; [intros Hc; apply anyKeyword_true in Hc; rewrite Hc; reflexivity |].
  split.
  { intros Hc Ht. apply anyKeyword_false in Hc. apply anyKeyword_true in Ht.
    rewrite Hc, Ht. reflexivity. }
  split.
  { intros Hn Hs.
    assert (Hc : anyKeyword text combatKeywords = false).
    { apply anyKeyword_false. intros k Hk. apply Hn, in_or_app. auto. }
    assert (Ht : anyKeyword text technologyKeywords = false).
    { apply anyKeyword_false. intros k Hk. apply Hn, in_or_app. auto. }
    apply anyKeyword_true in Hs. rewrite Hc, Ht, Hs. reflexivity. }
  split.
  { intros Hn.
    assert (Hc : anyKeyword text combatKeywords = false).
    { apply anyKeyword_false. intros k Hk. apply Hn, in_or_app. auto. }
    assert (Ht : anyKeyword text technologyKeywords = false).
    { apply anyKeyword_false. intros k Hk. apply Hn, in_or_app. right.
      apply in_or_app. auto. }
    assert (Hs : anyKeyword text survivalKeywords = false).
    { apply anyKeyword_false. intros k Hk. apply Hn, in_or_app. right.
      apply in_or_app. auto. }
    rewrite Hc, Ht, Hs. destruct (anyKeyword text explorationKeywords); reflexivity. }
  intros Hc _. apply anyKeyword_true in Hc. rewrite Hc. reflexivity.
Qed.

Lemma detectSkillFromAction_precedence_witness :
  detectSkillFromAction "Explore the ridge, then ATTACK the sentinel" = "combat".
Proof.
  apply (proj2 (proj2 (proj2 (proj2 (proj2
           (detectSkillFromAction_precedence
              "Explore the ridge, then ATTACK the sentinel")))))).
  - exists "attack". split; [simpl; auto | reflexivity].
  - exists "explore". split; [simpl; auto | reflexivity].
Defined.

(** ** Skill points *)

(** C6: the balance of the checked skill grows by max(1, total - dc) when
    the check succeeded and is left alone when it failed, critical or not;
    the other skills are never touched. A success of 15 against 12 earns 3
    points, a success of 9 against 8 earns 1. *)
Theorem awardSkillPoints_spec (g : GameState) (skillName : string)
    (skill : Skill) (check : SkillCheck) :
  skills g !! skillName = Some skill ->
  let g' := fst (awardSkillPoints g skillName check) in
  let earned :=
    match dc check with
    | DcNumber d => if success check then Z.max 1 (total check - d) else 0
    | DcMember _ => 0
    end in
  (points <$> skills g' !! skillName) = Some (points skill + earned) /\
  (success check = true -> 1 <= earned /\
     snd (awardSkillPoints g skillName check) =
       Some (mkSkillProgress true earned (points skill + earned) skillName)) /\
  (success check = false -> g' = g /\ snd (awardSkillPoints g skillName check) = None) /\
  (forall other, other <> skillName -> skills g' !! other = skills g !! other) /\
  (success check = true -> total check = 15 -> dc check = DcNumber 12 -> earned = 3) /\
  (success check = true -> total check = 9 -> dc check = DcNumber 8 -> earned = 1).
Proof.
  intros Hs g' earned. subst g' earned. unfold awardSkillPoints. rewrite Hs.
  destruct (success check) eqn:Hsucc; cbn [negb fst snd].
  - destruct (dc check) as [d | key] eqn:Hdc;
      [| unfold success in Hsucc; rewrite Hdc in Hsucc; discriminate].
    repeat split.
    + cbn. rewrite lookup_insert_eq. reflexivity.
    + lia.
    + discriminate.
    + discriminate.
    + intros other Hne. cbn. rewrite lookup_insert_ne by congruence. reflexivity.
    + intros _ Ht [= Hd]. rewrite Ht, Hd. reflexivity.
    + intros _ Ht [= Hd]. rewrite Ht, Hd. reflexivity.
  - assert (He : match dc check with DcNumber _ | DcMember _ => 0 end = 0)
      by (destruct (dc check); reflexivity).
    rewrite He. repeat split; try discriminate.
    rewrite Hs. cbn. f_equal. lia.
Qed.

Lemma awardSkillPoints_spec_witness :
  (points <$>
     skills (fst (awardSkillPoints (createInitialGameState 0) "combat"
                    (mkSkillCheck 13 2 15 (DcNumber 12) false false "Medium"
                       (Some "combat"))))
       !! "combat") = Some 3.
Proof.
  apply (awardSkillPoints_spec (createInitialGameState 0) "combat" (mkSkill 1 0 0)
           (mkSkillCheck 13 2 15 (DcNumber 12) false false "Medium" (Some "combat"))).
  reflexivity.
Defined.

(** ** State reducer *)

Lemma gathered_empty : gathered ∅ = 0.
Proof. unfold gathered. apply map_fold_empty. Qed.

Lemma gathered_insert (item : string) (amount : Z) (changes : gmap string Z) :
  changes !! item = None ->
  gathered (<[item := amount]> changes) = gathered changes + Z.max 0 amount.
Proof.
  intros Hfresh. unfold gathered.
  apply (map_fold_insert_L (fun _ a acc => acc + Z.max 0 a)); [| exact Hfresh].
  intros; cbn beta; lia.
Qed.

Lemma gathered_nonneg (changes : gmap string Z) : 0 <= gathered changes.
Proof.
  unfold gathered.
  apply (map_fold_weak_ind (fun r _ => 0 <= r)); [lia |].
  intros; cbn beta; lia.
Qed.

(** What one inventory entry does to the state. *)
Lemma applyInventoryEntry_eq (item : string) (amount : Z) (g : GameState) :
  exists inv,
    applyInventoryEntry item amount g =
      setStats (setResourcesGathered (resourcesGathered (stats g) + Z.max 0 amount))
        (setInventory inv g) /\
    inv !! item = countAfter (inventory g) item amount /\
    forall other, other <> item -> inv !! other = inventory g !! other.
Proof.
  assert (Hstats : forall inv,
    (if 0 <? amount
     then setStats (setResourcesGathered
                      (resourcesGathered (stats (setInventory inv g)) + amount))
            (setInventory inv g)
     else setInventory inv g) =
    setStats (setResourcesGathered (resourcesGathered (stats g) + Z.max 0 amount))
      (setInventory inv g)).
  { intros inv. destruct g as [? ? ? ? ? ? ? ? ? st ? ?]; destruct st.
    destruct (Z.ltb_spec 0 amount); cbn.
    - replace (Z.max 0 amount) with amount by lia. reflexivity.
    - replace (Z.max 0 amount) with 0 by lia. rewrite Z.add_0_r. reflexivity. }
  unfold applyInventoryEntry. rewrite Hstats. eexists. split; [reflexivity |].
  unfold countAfter, readKey, writeKey.
  destruct (inventory g !! item) as [count |] eqn:Hown.
  - rewrite Hown. split; [apply lookup_insert_eq |].
    intros other Hne. apply lookup_insert_ne. congruence.
  - destruct (isPrototypeMethod item) eqn:Hm, (isProto item) eqn:Hp; cbn [orb];
      rewrite ?Hown, ?lookup_insert_eq; cbn [addAmount maxZero].
    + apply String.eqb_eq in Hp. subst item. discriminate Hm.
    + split; [reflexivity |].
      intros other Hne. apply lookup_insert_ne. congruence.
    + split; reflexivity.
    + rewrite Z.add_0_l. split; [reflexivity |].
      intros other Hne. rewrite !lookup_insert_ne by congruence. reflexivity.
Qed.

Lemma countAfter_ext (inv inv' : gmap string Count) (item : string) (amount : Z) :
  inv !! item = inv' !! item ->
  countAfter inv item amount = countAfter inv' item amount.
Proof. intros H. unfold countAfter. rewrite H. reflexivity. Qed.

(** The inventory loop as a whole: only the inventory and the
    resources-gathered counter change, each item of the delta exactly once
    and from its value before the loop. *)
Lemma applyInventory_fold (g : GameState) (changes : gmap string Z) :
  exists inv,
    map_fold applyInventoryEntry g changes =
      setStats (setResourcesGathered (resourcesGathered (stats g) + gathered changes))
        (setInventory inv g) /\
    forall item,
      inv !! item =
      match changes !! item with
      | Some amount => countAfter (inventory g) item amount
      | None => inventory g !! item
      end.
Proof.
  apply (map_fold_weak_ind
    (fun r m =>
       exists inv,
         r = setStats (setResourcesGathered (resourcesGathered (stats g) + gathered m))
               (setInventory inv g) /\
         forall item,
           inv !! item =
           match m !! item with
           | Some amount => countAfter (inventory g) item amount
           | None => inventory g !! item
           end)).
  - exists (inventory g). rewrite gathered_empty. split.
    + destruct g as [? ? ? ? ? ? ? ? ? st ? ?]; destruct st; cbn.
      rewrite Z.add_0_r. reflexivity.
    + intros item. rewrite lookup_empty. reflexivity.
  - intros i x m r Hfresh (inv & -> & Hlook).
    destruct (applyInventoryEntry_eq i x
                (setStats (setResourcesGathered
                             (resourcesGathered (stats g) + gathered m))
                   (setInventory inv g))) as (inv' & -> & Hi & Hother).
    rewrite (gathered_insert _ _ _ Hfresh).
    exists inv'. split.
    + cbn. rewrite Z.add_assoc. reflexivity.
    + cbn [inventory setStats setInventory] in Hi, Hother.
      intros item. destruct (decide (i = item)) as [-> | Hne].
      * rewrite lookup_insert_eq, Hi. apply countAfter_ext.
        rewrite Hlook, Hfresh. reflexivity.
      * rewrite lookup_insert_ne by exact Hne.
        rewrite Hother by congruence. apply Hlook.
Qed.

(** The fields the reducer never writes. *)
Lemma applyStateUpdates_frame (g : GameState) (u : option StateUpdate) :
  let g' := applyStateUpdates g u in
  conversationHistory g' = conversationHistory g /\
  currentNarrative g' = currentNarrative g /\
  currentOptions g' = currentOptions g /\
  skills g' = skills g /\
  actionHistory g' = actionHistory g /\
  deathCount (stats g') = deathCount (stats g).
Proof.
  destruct u as [[[d1 |] [d2 |] [d3 |] [changes |]] |];
    cbn [applyStateUpdates uShip uFuel uDistance uInventory];
    try destruct (d3 <? 0);
    try (match goal with |- context [map_fold _ ?g3 _] =>
           destruct (applyInventory_fold g3 changes) as (inv & -> & _)
         end);
    cbn; tauto.
Qed.

(** What the reducer computes: the clamped health and fuel, the inventory
    item by item, and the resources counter. *)
Lemma applyStateUpdates_effect (g : GameState) (u : option StateUpdate) :
  let g' := applyStateUpdates g u in
  let changes := default ∅ (u ≫= uInventory) in
  (0 <= health (ship g) <= 100 -> 0 <= health (ship g') <= 100) /\
  (0 <= fuel (ship g) -> 0 <= fuel (ship g')) /\
  (forall item,
     inventory g' !! item =
     match changes !! item with
     | Some amount => countAfter (inventory g) item amount
     | None => inventory g !! item
     end) /\
  resourcesGathered (stats g') = resourcesGathered (stats g) + gathered changes.
Proof.
  cbv zeta.
  destruct u as [[[d1 |] [d2 |] [d3 |] [changes |]] |];
    cbn [applyStateUpdates uShip uFuel uDistance uInventory mbind option_bind default];
    try destruct (d3 <? 0);
    try (match goal with |- context [map_fold _ ?g3 _] =>
           destruct (applyInventory_fold g3 changes) as (inv & -> & Hl)
         end);
    cbn; rewrite ?gathered_empty;
    (split; [lia | split; [lia | split; [| lia]]]);
    intros item; rewrite ?Hl, ?lookup_empty; reflexivity.
Qed.

(** A count that an entry leaves is a number at 0 or above when the count
    before it was one, or when the item is new and names no method of
    [Object.prototype]. *)
Lemma countAfter_bounds (inv : gmap string Count) (item : string) (amount : Z)
    (count : Count) :
  countAfter inv item amount = Some count ->
  (forall old, inv !! item = Some old -> exists n, old = Num n /\ 0 <= n) ->
  (inv !! item = None -> isPrototypeMethod item = false) ->
  exists n, count = Num n /\ 0 <= n.
Proof.
  unfold countAfter. intros Hc Hold Hnew.
  destruct (inv !! item) as [old |].
  - destruct (Hold old eq_refl) as (n & -> & Hn). injection Hc as <-.
    cbn. eexists. split; [reflexivity | lia].
  - rewrite (Hnew eq_refl) in Hc. destruct (isProto item); [discriminate |].
    injection Hc as <-. eexists. split; [reflexivity | lia].
Qed.

(** The reducer keeps the bounds when the delta names no method of
    [Object.prototype] that the inventory does not hold. *)
Lemma applyStateUpdates_inBounds (g : GameState) (u : option StateUpdate) :
  inBounds g ->
  (forall item, is_Some (default ∅ (u ≫= uInventory) !! item) ->
     inventory g !! item = None -> isPrototypeMethod item = false) ->
  inBounds (applyStateUpdates g u).
Proof.
  intros (Hh & Hf & Hi) Hkeys.
  pose proof (applyStateUpdates_effect g u) as (Hh' & Hf' & Hl & _).
  split; [exact (Hh' Hh) | split; [exact (Hf' Hf) |]].
  intros item count. rewrite Hl.
  destruct (default ∅ (u ≫= uInventory) !! item) as [amount |] eqn:Hc; [| apply Hi].
  intros Hcount. apply (countAfter_bounds _ _ _ _ Hcount).
  - intros old Hold. exact (Hi item old Hold).
  - apply Hkeys. rewrite Hc. eexists. reflexivity.
Qed.

(** Whatever the delta, the reducer keeps the bounds of every item but
    [free] when [free] is the only method of [Object.prototype] that the
    delta may name. *)
Lemma applyStateUpdates_inBoundsExcept (free : string) (g : GameState)
    (u : option StateUpdate) :
  inBoundsExcept free g ->
  (forall item, is_Some (default ∅ (u ≫= uInventory) !! item) ->
     isPrototypeMethod item = true -> item = free) ->
  inBoundsExcept free (applyStateUpdates g u).
Proof.
  intros (Hh & Hf & Hi) Hkeys.
  pose proof (applyStateUpdates_effect g u) as (Hh' & Hf' & Hl & _).
  split; [exact (Hh' Hh) | split; [exact (Hf' Hf) |]].
  intros item count. rewrite Hl.
  destruct (default ∅ (u ≫= uInventory) !! item) as [amount |] eqn:Hc; [| apply Hi].
  intros Hcount Hfree. apply (countAfter_bounds _ _ _ _ Hcount).
  - intros old Hold. exact (Hi item old Hold Hfree).
  - intros _. destruct (isPrototypeMethod item) eqn:Hm; [| reflexivity].
    exfalso. apply Hfree, Hkeys; [rewrite Hc; eexists; reflexivity | exact Hm].
Qed.

(** The bounds survive any sequence of deltas that keep away from the
    methods of [Object.prototype]. *)
Lemma applyStateUpdates_sequence (deltas : list (option StateUpdate)) (g : GameState) :
  inBounds g ->
  Forall (fun u => forall item, is_Some (default ∅ (u ≫= uInventory) !! item) ->
                     isPrototypeMethod item = false) deltas ->
  inBounds (fold_left applyStateUpdates deltas g).
Proof.
  revert g. induction deltas as [| u deltas IH]; intros g Hg Hkeys; [exact Hg |].
  apply Forall_cons in Hkeys as [Hu Hrest].
  cbn. apply IH; [| exact Hrest]. apply applyStateUpdates_inBounds; [exact Hg |].
  intros item Hitem _. exact (Hu item Hitem).
Qed.

(** Away from the members of [Object.prototype] the reducer does what is
    asked of it: from a state within bounds, a delta whose new items name
    none of them leaves the ship health in 0..100, the fuel and every
    inventory count at 0 or above; an item of the delta ends at
    max(0, old + amount), a missing item counting as 0 before the amount
    is added; items outside the delta keep their count; the
    resources-gathered counter grows by the sum of the positive amounts
    and never shrinks. *)
Lemma applyStateUpdates_own_items (g : GameState) (u : option StateUpdate) :
  inBounds g ->
  let g' := applyStateUpdates g u in
  let changes := default ∅ (u ≫= uInventory) in
  (forall item, is_Some (changes !! item) -> inventory g !! item = None ->
     isPrototypeMethod item || isProto item = false) ->
  inBounds g' /\
  (forall item amount, changes !! item = Some amount ->
     inventory g' !! item =
       Some (maxZero (addAmount (default (Num 0) (inventory g !! item)) amount))) /\
  (forall item, changes !! item = None -> inventory g' !! item = inventory g !! item) /\
  resourcesGathered (stats g') = resourcesGathered (stats g) + gathered changes /\
  resourcesGathered (stats g) <= resourcesGathered (stats g').
Proof.
  intros Hg g' changes Hkeys.
  pose proof (applyStateUpdates_effect g u) as (_ & _ & Hl & Hr).
  fold g' changes in Hl, Hr.
  split.
  { apply applyStateUpdates_inBounds; [exact Hg |].
    intros item Hitem Hnew. specialize (Hkeys item Hitem Hnew).
    apply orb_false_iff in Hkeys as [Hm _]. exact Hm. }
  split.
  { intros item amount Hc. rewrite Hl, Hc. unfold countAfter.
    destruct (inventory g !! item) as [old |] eqn:Hold; [reflexivity |].
    assert (Hm := Hkeys item ltac:(rewrite Hc; eexists; reflexivity) Hold).
    apply orb_false_iff in Hm as [-> ->]. cbn. rewrite Z.add_0_l. reflexivity. }
  split; [intros item Hc; rewrite Hl, Hc; reflexivity |].
  split; [exact Hr |].
  rewrite Hr. pose proof (gathered_nonneg changes). lia.
Qed.

Lemma applyStateUpdates_own_items_witness :
  inBounds
    (applyStateUpdates (createInitialGameState 0)
       (Some (mkStateUpdate (Some (-100)) (Some (-5)) None
                (Some (<["carbon" := -5]> {["iron" := 3]}))))).
Proof.
  apply (applyStateUpdates_own_items (createInitialGameState 0)).
  - split; [cbn; lia | split; [cbn; lia |]].
    assert (H : map_Forall (fun _ count => exists n, count = Num n /\ 0 <= n)
                  (inventory (createInitialGameState 0))).
    { intros item count Hcount. apply elem_of_list_to_map_2 in Hcount.
      repeat (apply elem_of_cons in Hcount as [[= -> ->] | Hcount];
              [exists 0; split; [reflexivity | lia] |]).
      apply elem_of_nil in Hcount. destruct Hcount. }
    exact H.
  - intros item [amount Hitem] _. cbn in Hitem.
    destruct (decide (item = "carbon")) as [-> | Hc]; [reflexivity |].
    rewrite lookup_insert_ne in Hitem by congruence.
    apply lookup_singleton_Some in Hitem as [<- _]. reflexivity.
Defined.

(** C2: the claim fails on the code for an item whose name is a method
    that every object literal inherits from [Object.prototype]. The
    backend's line [Inventory: +Atlas Constructor x1] parses to the delta
    constructor: +1; the fresh inventory has no such item of its own, yet
    [gameState.inventory[item] === undefined] is false for it, so no zero
    is created, the sum of the inherited function and 1 is a text, and
    the count stored is [NaN], not 1: the state is out of bounds. *)
Theorem applyStateUpdates_inherited_item :
  let response :=
    Js.lines ["You pry an Atlas constructor from the wreck.";
              "[STATE UPDATE]"; "Inventory: +Atlas Constructor x1"] in
  let g := createInitialGameState 0 in
  exists parsed,
    parseGameMasterResponse response = Some parsed /\
    (stateUpdate parsed ≫= uInventory) = Some {["constructor" := 1]} /\
    inventory g !! "constructor" = None /\
    inBounds g /\
    inventory (applyStateUpdates g (stateUpdate parsed)) !! "constructor" = Some NaN /\
    inventory (applyStateUpdates g (stateUpdate parsed)) !! "constructor" <> Some (Num 1) /\
    ~ inBounds (applyStateUpdates g (stateUpdate parsed)) /\
    resourcesGathered (stats (applyStateUpdates g (stateUpdate parsed))) = 1.
Proof.
  cbv zeta.
  assert (Hp : parseGameMasterResponse
                 (Js.lines ["You pry an Atlas constructor from the wreck.";
                            "[STATE UPDATE]"; "Inventory: +Atlas Constructor x1"]) =
               Some (mkParsedResponse "You pry an Atlas constructor from the wreck."
                       (Some (mkStateUpdate None None None (Some {["constructor" := 1]})))
                       defaultOptions false))
    by (vm_compute; reflexivity).
  eexists. split; [exact Hp |].
  assert (Hnan : inventory (applyStateUpdates (createInitialGameState 0)
                   (Some (mkStateUpdate None None None (Some {["constructor" := 1]}))))
                 !! "constructor" = Some NaN)
    by (vm_compute; reflexivity).
  cbn [stateUpdate].
  split; [reflexivity |]. split; [reflexivity |].
  split.
  { split; [cbn; lia | split; [cbn; lia |]].
    intros item count Hcount. apply elem_of_list_to_map_2 in Hcount.
    repeat (apply elem_of_cons in Hcount as [[= -> ->] | Hcount];
            [exists 0; split; [reflexivity | lia] |]).
    apply elem_of_nil in Hcount. destruct Hcount. }
  split; [exact Hnan |].
  split; [rewrite Hnan; discriminate |].
  split; [| vm_compute; reflexivity].
  intros (_ & _ & Hi). destruct (Hi "constructor" NaN Hnan) as (n & Hn & _).
  discriminate.
Qed.

(** ** Regular expressions: a match never moves backwards *)

Section Progress.

Variable ic : bool.

Lemma advances_refl (s : Re.mstate) : Re.advances 0 s s.
Proof. unfold advances. lia. Qed.

Lemma advances_trans (n m : nat) (s1 s2 s3 : Re.mstate) :
  advances n s1 s2 -> advances m s2 s3 -> advances (n + m) s1 s3.
Proof. unfold advances. lia. Qed.

Lemma advances_weaken (n m : nat) (s s' : Re.mstate) :
  (m <= n)%nat -> advances n s s' -> advances m s s'.
Proof. unfold advances. lia. Qed.

Lemma starLoop_progress (greedy : bool) (body : Re.cont -> Re.cont) :
  progressive 0 body ->
  forall fuel, progressive 0 (Re.starLoop fuel greedy body).
Proof.
  intros Hbody fuel. induction fuel as [| fuel IH]; intros k s e H.
  - exists s. split; [exact H | apply advances_refl].
  - cbn in H.
    assert (Hagain : forall e',
      body (fun s' => if Nat.eqb (Re.pos s') (Re.pos s) then None
                      else Re.starLoop fuel greedy body k s') s = Some e' ->
      exists s', k s' = Some e' /\ advances 0 s s').
    { intros e' He'. apply Hbody in He' as (s1 & Hk & Ha).
      destruct (Nat.eqb (Re.pos s1) (Re.pos s)); [discriminate |].
      apply IH in Hk as (s2 & Hk2 & Ha2). exists s2. split; [exact Hk2 |].
      exact (advances_trans 0 0 _ _ _ Ha Ha2). }
    destruct greedy; unfold Re.orElse in H.
    + destruct (body _ s) as [x |] eqn:Hb.
      * injection H as ->. apply Hagain. reflexivity.
      * exists s. split; [exact H | apply advances_refl].
    + destruct (k s) as [x |] eqn:Hk.
      * injection H as ->. exists s. split; [exact Hk | apply advances_refl].
      * apply Hagain. exact H.
Qed.

Lemma run_progress (r : Re.regex) : progressive (Re.minLen r) (Re.run ic r).
Proof.
  induction r as [| a | r1 IH1 r2 IH2 | r1 IH1 r2 IH2 | g r1 IH1 | r1 IH1
                  | i r1 IH1 | | | r1 IH1]; intros k s e H; cbn in H |- *.
  - exists s. split; [exact H | apply advances_refl].
  - destruct (Re.rest s) as [| c t] eqn:Hrest; [discriminate |].
    destruct (Re.atomMatches ic a c); [| discriminate].
    eexists. split; [exact H |]. unfold advances. cbn. rewrite Hrest. cbn. lia.
  - apply IH1 in H as (s1 & H1 & Ha1). apply IH2 in H1 as (s2 & H2 & Ha2).
    exists s2. split; [exact H2 | exact (advances_trans _ _ _ _ _ Ha1 Ha2)].
  - unfold Re.orElse in H. destruct (Re.run ic r1 k s) as [x |] eqn:H1.
    + injection H as ->. apply IH1 in H1 as (s1 & Hk & Ha). exists s1.
      split; [exact Hk | eapply advances_weaken; [| exact Ha]; lia].
    + apply IH2 in H as (s1 & Hk & Ha). exists s1.
      split; [exact Hk | eapply advances_weaken; [| exact Ha]; lia].
  - apply (starLoop_progress g (Re.run ic r1)) in H; [exact H |].
    intros k' s' e' H'. apply IH1 in H' as (s1 & Hk & Ha). exists s1.
    split; [exact Hk | eapply advances_weaken; [| exact Ha]; lia].
  - unfold Re.orElse in H.
    destruct (Re.run ic r1 _ s) as [x |] eqn:H1.
    + injection H as ->. apply IH1 in H1 as (s1 & Hk & Ha).
      destruct (Nat.eqb (Re.pos s1) (Re.pos s)); [discriminate |].
      exists s1. split; [exact Hk | eapply advances_weaken; [| exact Ha]; lia].
    + exists s. split; [exact H | apply advances_refl].
  - apply IH1 in H as (s1 & Hk & Ha). eexists. split; [exact Hk |]. exact Ha.
  - destruct (Nat.eqb (Re.pos s) 0); [| discriminate].
    exists s. split; [exact H | apply advances_refl].
  - destruct (Re.rest s) eqn:Hrest; [| discriminate].
    exists s. split; [exact H | apply advances_refl].
  - destruct (Re.run ic r1 Some s) as [s1 |]; [| discriminate].
    eexists. split; [exact H |]. unfold advances. cbn. lia.
Qed.

Lemma execFrom_bounds (r : Re.regex) (t : string) :
  forall p m, Re.execFrom ic r p t = Some m ->
    (p <= Re.first m /\ Re.first m + Re.minLen r <= Re.last m /\
     Re.last m <= p + String.length t)%nat.
Proof.
  induction t as [| c t IH]; intros p m H; cbn in H.
  - destruct (Re.run ic r Some _) as [e |] eqn:Hrun; [| discriminate].
    injection H as <-. apply run_progress in Hrun as (s' & [= ->] & Ha).
    unfold advances in Ha. cbn in *. lia.
  - destruct (Re.run ic r Some _) as [e |] eqn:Hrun.
    + injection H as <-. apply run_progress in Hrun as (s' & [= ->] & Ha).
      unfold advances in Ha. cbn in *. lia.
    + apply IH in H. cbn. lia.
Qed.

End Progress.

(** ** The matcher on small patterns *)

(** /a[\s\S]*b/ takes the longest match, /a[\s\S]*?b/ the shortest. *)
Example greedy_star_longest :
  Re.exec (Re.Make (Seqs [Atom (Lit (chr "a")); Star true (Atom AnyChar);
                          Atom (Lit (chr "b"))]) false) "xaYbZb" =
  Some (Re.Result 1 6 []).
Proof. vm_compute. reflexivity. Qed.

Example lazy_star_shortest :
  Re.exec (Re.Make (Seqs [Atom (Lit (chr "a")); Star false (Atom AnyChar);
                          Atom (Lit (chr "b"))]) false) "xaYbZb" =
  Some (Re.Result 1 4 []).
Proof. vm_compute. reflexivity. Qed.

(** The [i] flag decides whether [options] is found by \[OPTIONS\]. *)
Example marker_case :
  Re.test (Re.Make (Str "[OPTIONS]") true) "see [options]" = true /\
  Re.test (Re.Make (Str "[OPTIONS]") false) "see [options]" = false /\
  Re.test (Re.Make (Str "[OPTIONS]") false) "see [OPTIONS]" = true.
Proof. vm_compute. auto. Qed.

(** An optional group that does not take part is [undefined]. *)
Example inventory_groups :
  (fun m => (Re.group 1 m, Re.group 2 m, Re.group 3 m)) <$>
    Re.exec inventoryRe "Inventory: Iron x5" =
  Some (None, Some "Iron", Some "5").
Proof. vm_compute. reflexivity. Qed.

Example remove_first_match :
  Re.remove stateRemoveRe "a [State Update] fuel -1 [OPTIONS] 1. x" =
  "a [OPTIONS] 1. x".
Proof. vm_compute. reflexivity. Qed.

(** ** Death detection *)

Example death_detected : detectDeathInNarrative "You have died." = true.
Proof. vm_compute. reflexivity. Qed.

Example survival_not_death :
  detectDeathInNarrative "You barely survive the fall." = false.
Proof. vm_compute. reflexivity. Qed.

(** ** Response parser: it always returns *)

Lemma drop_length (i : nat) (s : string) :
  (i <= String.length s)%nat ->
  (i + String.length (Js.drop i s) = String.length s)%nat.
Proof.
  revert s. induction i as [| i IH]; intros s Hi.
  - destruct s; reflexivity.
  - destruct s as [| c t]; cbn in *; [lia |]. rewrite IH; lia.
Qed.

Lemma execAt_bounds (re : Re.t) (s : string) (i : nat) (m : Re.result) :
  Re.execAt re s i = Some m ->
  (i + Re.minLen (Re.pattern re) <= Re.last m /\ Re.last m <= String.length s)%nat.
Proof.
  unfold Re.execAt. destruct (Nat.ltb_spec (String.length s) i); [discriminate |].
  intros H'. apply execFrom_bounds in H'. rewrite drop_length in H' by lia. lia.
Qed.

(** Every match of the inventory pattern has at least three characters, so
    the [lastIndex] of the loop grows and the loop ends within the length
    of the text. *)
Lemma inventoryLoop_terminates (text : string) :
  forall steps lastIndex changes,
    (lastIndex <= String.length text)%nat ->
    (String.length text < lastIndex + steps)%nat ->
    is_Some (inventoryLoop steps text lastIndex changes).
Proof.
  intros steps.
  induction steps as [| steps IH]; intros lastIndex changes Hle Hfuel; [lia |].
  cbn [inventoryLoop].
  destruct (Re.execAt inventoryRe text lastIndex) as [m |] eqn:Hm; [| eauto].
  apply execAt_bounds in Hm. cbn in Hm. apply IH; lia.
Qed.

Lemma parseInventoryChange_total (text : string) :
  is_Some (parseInventoryChange text).
Proof. apply inventoryLoop_terminates; lia. Qed.

Lemma parseClause_total (updates : StateUpdate) (part : string) :
  is_Some (parseClause updates part).
Proof.
  unfold parseClause.
  destruct (Re.test (wordRe "inventory") (Js.trim part)); [| eauto].
  destruct (parseInventoryChange_total (Js.trim part)) as [changes ->]. cbn. eauto.
Qed.

Lemma parseStateUpdate_total (updateText : string) :
  is_Some (parseStateUpdate updateText).
Proof.
  unfold parseStateUpdate. generalize (mkStateUpdate None None None None).
  induction (Js.split (chr "|") updateText) as [| part parts IH]; intros updates.
  - cbn. eauto.
  - cbn [parseClauses]. destruct (parseClause_total updates part) as [updates' ->].
    cbn. apply IH.
Qed.

Lemma parseGameMasterResponse_options (rawText : string) :
  exists parsed,
    parseGameMasterResponse rawText = Some parsed /\
    options parsed = chosenOptions rawText.
Proof.
  unfold parseGameMasterResponse, chosenOptions.
  destruct (Re.exec stateMatchRe rawText) as [m |].
  - destruct (parseStateUpdate_total (Js.trim (default "" (Re.group 1 m)))) as [u ->].
    cbn. eexists. split; [reflexivity |]. cbn.
    destruct (sectionOptions (withoutStateUpdate rawText)); [| reflexivity].
    destruct (parseOptionsFromAnywhere rawText); reflexivity.
  - cbn. eexists. split; [reflexivity |]. cbn.
    destruct (sectionOptions (withoutStateUpdate rawText)); [| reflexivity].
    destruct (parseOptionsFromAnywhere rawText); reflexivity.
Qed.

(** C1: for every text the parser returns a response, its options are not
    empty, and when neither the OPTIONS section nor the numbered lines give
    an option they are the three defaults: Continue exploring (Easy), Look
    around carefully (Medium), Try something risky (Hard). *)
Theorem parseGameMasterResponse_total (rawText : string) :
  exists parsed,
    parseGameMasterResponse rawText = Some parsed /\
    options parsed <> [] /\
    (sectionOptions (withoutStateUpdate rawText) = [] ->
     parseOptionsFromAnywhere rawText = [] ->
     options parsed =
       [mkChoice "Continue exploring" "Easy";
        mkChoice "Look around carefully" "Medium";
        mkChoice "Try something risky" "Hard"]).
Proof.
  destruct (parseGameMasterResponse_options rawText) as (parsed & Hp & Ho).
  exists parsed. split; [exact Hp |]. rewrite Ho. unfold chosenOptions. split.
  - destruct (sectionOptions (withoutStateUpdate rawText)); [| discriminate].
    destruct (parseOptionsFromAnywhere rawText); discriminate.
  - intros -> ->. reflexivity.
Qed.

Lemma parseGameMasterResponse_total_witness :
  exists parsed,
    parseGameMasterResponse "The wind howls over the dunes." = Some parsed /\
    options parsed = defaultOptions.
Proof.
  destruct (parseGameMasterResponse_total "The wind howls over the dunes.")
    as (parsed & Hp & _ & Hd).
  exists parsed. split; [exact Hp |]. apply Hd; reflexivity.
Defined.

(** ** Response parser: sections and numbered lines *)

(** The scenario of the specification: both sections in upper case. *)
Example parse_scrap_scenario :
  parseGameMasterResponse
    (Js.lines ["You find scrap."; ""; "[STATE UPDATE]";
               "Ship: +5% | Inventory: +Iron x3"; ""; "[OPTIONS]";
               "1. Rest (Easy)"; "2. Dig further (Hard)"]) =
  Some (mkParsedResponse "You find scrap."
          (Some (mkStateUpdate (Some 5) None None (Some {["iron" := 3]})))
          [mkChoice "Rest" "Easy"; mkChoice "Dig further" "Hard"] false).
Proof. vm_compute. reflexivity. Qed.

(** C5: with the OPTIONS marker written in lower case the options and the
    delta are read as for the upper-case marker, but the section is not
    taken out: it stays in the narrative from the marker to the end of the
    text. *)
Theorem parse_lowercase_options_marker :
  parseGameMasterResponse
    (Js.lines ["You rest."; ""; "[STATE UPDATE]"; "Fuel: -1"; "";
               "[OPTIONS]"; "1. Rest (Easy)"]) =
  Some (mkParsedResponse "You rest."
          (Some (mkStateUpdate None (Some (-1)) None None))
          [mkChoice "Rest" "Easy"] false) /\
  parseGameMasterResponse
    (Js.lines ["You rest."; ""; "[STATE UPDATE]"; "Fuel: -1"; "";
               "[options]"; "1. Rest (Easy)"]) =
  Some (mkParsedResponse
          (Js.lines ["You rest."; ""; "[options]"; "1. Rest (Easy)"])
          (Some (mkStateUpdate None (Some (-1)) None None))
          [mkChoice "Rest" "Easy"] false).
Proof. split; vm_compute; reflexivity. Qed.

Lemma collect_options (f : string -> option Choice) (lines : list string) :
  forall acc,
    fold_left (fun options line =>
        match f line with
        | Some o => (options ++ [o])%list
        | None => options
        end) lines acc = (acc ++ omap f lines)%list.
Proof.
  induction lines as [| line lines IH]; intros acc; cbn.
  - rewrite app_nil_r. reflexivity.
  - rewrite IH. destruct (f line); [rewrite <- app_assoc |]; reflexivity.
Qed.

Example short_line_ignored : optionOfLine "1. Go" = None.
Proof. vm_compute. reflexivity. Qed.

Example five_characters_ignored : optionOfLine "2. Climb" = None.
Proof. vm_compute. reflexivity. Qed.

Example six_characters_accepted :
  optionOfLine "3. Ascend" = Some (mkChoice "Ascend" "Medium").
Proof. vm_compute. reflexivity. Qed.

Example short_line_with_difficulty_accepted :
  optionOfLine "1. Go (Hard)" = Some (mkChoice "Go" "Hard").
Proof. vm_compute. reflexivity. Qed.



(** ** Turn orchestrator *)

Lemma setSkills_same (g : GameState) : setSkills (skills g) g = g.
Proof. destruct g; reflexivity. Qed.

(** The dice part of a turn writes the skills and nothing else. *)
Lemma rollForAction_frame (g : GameState) (actionText difficulty : string)
    (spentPoints : option Z) (rnd : Q) :
  exists sk, fst (rollForAction g actionText difficulty spentPoints rnd) = setSkills sk g.
Proof.
  unfold rollForAction. cbn [fst].
  set (g1 := match spentPoints, skills g !! detectSkillFromAction actionText with
             | Some n, Some skill => _
             | _, _ => g
             end).
  assert (H1 : exists sk, g1 = setSkills sk g).
  { subst g1. destruct spentPoints as [n |]; [| exists (skills g); symmetry; apply setSkills_same].
    destruct (skills g !! detectSkillFromAction actionText);
      [| exists (skills g); symmetry; apply setSkills_same].
    destruct (0 <? n); [eexists; reflexivity |].
    exists (skills g); symmetry; apply setSkills_same. }
  destruct H1 as (sk1 & ->).
  unfold awardSkillPoints.
  destruct (skills (setSkills sk1 g) !! detectSkillFromAction actionText);
    [| eexists; reflexivity].
  destruct (negb _); [eexists; reflexivity |].
  destruct (dc _); cbn [fst]; eexists; reflexivity.
Qed.

Lemma beforeOracle_frame (g : GameState) (actionText : string)
    (difficulty : option string) (spentPoints : option Z) (rnd : Q) :
  (exists sk, fst (beforeOracle g actionText difficulty spentPoints rnd) = setSkills sk g) /\
  (truthy difficulty = false ->
   beforeOracle g actionText difficulty spentPoints rnd = (g, None)).
Proof.
  unfold beforeOracle. destruct (truthy difficulty).
  - split; [| discriminate].
    destruct (rollForAction_frame g actionText (default "" difficulty) spentPoints rnd)
      as (sk & Hsk).
    destruct (rollForAction _ _ _ _ _) as [g' check]. exists sk. exact Hsk.
  - split; [| reflexivity]. exists (skills g). symmetry. apply setSkills_same.
Qed.

Lemma applyInventoryEntry_setSkills (sk : gmap string Skill) (item : string)
    (amount : Z) (g : GameState) :
  applyInventoryEntry item amount (setSkills sk g) =
  setSkills sk (applyInventoryEntry item amount g).
Proof.
  unfold applyInventoryEntry. cbn [inventory setSkills].
  destruct (0 <? amount); reflexivity.
Qed.

Lemma applyInventoryEntry_setConversationHistory (h : list Message) (item : string)
    (amount : Z) (g : GameState) :
  applyInventoryEntry item amount (setConversationHistory h g) =
  setConversationHistory h (applyInventoryEntry item amount g).
Proof.
  unfold applyInventoryEntry. cbn [inventory setConversationHistory].
  destruct (0 <? amount); reflexivity.
Qed.

(** The reducer does not read the skills or the conversation. *)
Lemma applyStateUpdates_setSkills (sk : gmap string Skill) (g : GameState)
    (u : option StateUpdate) :
  applyStateUpdates (setSkills sk g) u = setSkills sk (applyStateUpdates g u).
Proof.
  destruct u as [[[d1 |] [d2 |] [d3 |] [changes |]] |];
    cbn [applyStateUpdates uShip uFuel uDistance uInventory];
    try destruct (d3 <? 0);
    try reflexivity;
    match goal with
    | |- map_fold _ ?a _ = setSkills _ (map_fold _ ?b _) =>
        change a with (setSkills sk b);
        apply (map_fold_comm_acc applyInventoryEntry (setSkills sk));
        intros; apply applyInventoryEntry_setSkills
    end.
Qed.

Lemma applyStateUpdates_setConversationHistory (h : list Message) (g : GameState)
    (u : option StateUpdate) :
  applyStateUpdates (setConversationHistory h g) u =
  setConversationHistory h (applyStateUpdates g u).
Proof.
  destruct u as [[[d1 |] [d2 |] [d3 |] [changes |]] |];
    cbn [applyStateUpdates uShip uFuel uDistance uInventory];
    try destruct (d3 <? 0);
    try reflexivity;
    match goal with
    | |- map_fold _ ?a _ = setConversationHistory _ (map_fold _ ?b _) =>
        change a with (setConversationHistory h b);
        apply (map_fold_comm_acc applyInventoryEntry (setConversationHistory h));
        intros; apply applyInventoryEntry_setConversationHistory
    end.
Qed.

Lemma pruneConversationHistory_eq (g : GameState) :
  pruneConversationHistory g = setConversationHistory (pruned (conversationHistory g)) g.
Proof.
  unfold pruneConversationHistory, pruned.
  destruct (maxConversationHistory <? length (conversationHistory g))%nat;
    [reflexivity | destruct g; reflexivity].
Qed.

(** The world once the dice animation of a turn is started, if the turn
    has one. *)
Lemma animated_world (w : World) (difficulty : option string) :
  (if truthy difficulty then animateDiceRoll w else w) =
  mkWorld (gameState w) (isProcessingAction w) (pendingAction w) (autoSaveTimeout w)
    (timers w ++ diceTimers w difficulty)
    (nextTimer w + length (diceTimers w difficulty))
    (errorShown w) (skillSpendModal w).
Proof.
  unfold diceTimers, animateDiceRoll, setInterval.
  destruct (truthy difficulty); cbn [fst length].
  - rewrite Nat.add_1_r. reflexivity.
  - rewrite app_nil_r, Nat.add_0_r. destruct w; reflexivity.
Qed.

Section TurnProperties.

Variable formatUserMessage : GameState -> string -> option SkillCheck -> string.
Variable callAI : list Message -> string -> AiResult.

(** The world a death turn ends in, field by field. *)
Lemma death_turn_world (w : World) (actionText : string) (difficulty : option string)
    (spentPoints : option Z) (rnd : Q) (now : Z) (response : string)
    (parsed : ParsedResponse) :
  reachesOracle w difficulty spentPoints ->
  oracleAnswer formatUserMessage callAI (gameState w) actionText difficulty spentPoints rnd
    = Returned response ->
  parseGameMasterResponse response = Some parsed ->
  isPlayerDead parsed = true ->
  exists sk,
    processPlayerAction formatUserMessage callAI w actionText difficulty spentPoints rnd now =
    Some (mkWorld
            (setCurrentOptions []
               (setCurrentNarrative (narrative parsed)
                  (setStats
                     (setDeathCount
                        (deathCount (stats (applyStateUpdates (gameState w)
                                              (stateUpdate parsed))) + 1))
                     (setConversationHistory
                        (pruned (conversationHistory (gameState w) ++
                                   [mkMessage "user"
                                      (sentMessage formatUserMessage (gameState w)
                                         actionText difficulty spentPoints rnd);
                                    mkMessage "assistant" response]))
                        (setSkills sk
                           (applyStateUpdates (gameState w) (stateUpdate parsed)))))))
            false (pendingAction w) (autoSaveTimeout w)
            ((timers w ++ diceTimers w difficulty) ++
               [mkTimer (nextTimer w + length (diceTimers w difficulty))
                  ShowGameOverModal 1500])
            (S (nextTimer w + length (diceTimers w difficulty))) None
            (skillSpendModal w)).
Proof.
  intros [Hstaged Hidle] Hanswer Hparsed Hdead.
  unfold processPlayerAction, oracleAnswer, sentMessage in *.
  rewrite Hstaged, Hidle. cbn [hideError setProcessing gameState].
  destruct (beforeOracle_frame (gameState w) actionText difficulty spentPoints rnd)
    as [(sk & Hsk) _].
  destruct (beforeOracle (gameState w) actionText difficulty spentPoints rnd)
    as [g1 diceRoll].
  cbn [fst] in Hsk. subst g1. exists sk.
  rewrite Hanswer, Hparsed. cbn [mbind option_bind]. rewrite Hdead.
  rewrite animated_world.
  rewrite pruneConversationHistory_eq.
  rewrite applyStateUpdates_setConversationHistory.
  rewrite applyStateUpdates_setConversationHistory.
  rewrite applyStateUpdates_setSkills.
  reflexivity.
Qed.

(** C7: a turn whose parsed response has death detected ends with the
    current options empty, the death counter one higher than before the
    turn, and the parsed narrative as current narrative. *)
Theorem death_turn_clears_options (w : World) (actionText : string)
    (difficulty : option string) (spentPoints : option Z) (rnd : Q) (now : Z)
    (response : string) (parsed : ParsedResponse) :
  reachesOracle w difficulty spentPoints ->
  oracleAnswer formatUserMessage callAI (gameState w) actionText difficulty spentPoints rnd
    = Returned response ->
  parseGameMasterResponse response = Some parsed ->
  isPlayerDead parsed = true ->
  exists w',
    processPlayerAction formatUserMessage callAI w actionText difficulty spentPoints rnd now
      = Some w' /\
    currentOptions (gameState w') = [] /\
    deathCount (stats (gameState w')) = deathCount (stats (gameState w)) + 1 /\
    currentNarrative (gameState w') = narrative parsed.
Proof.
  intros Hreach Hanswer Hparsed Hdead.
  destruct (death_turn_world w actionText difficulty spentPoints rnd now response parsed
              Hreach Hanswer Hparsed Hdead) as (sk & ->).
  eexists. split; [reflexivity |]. cbn.
  pose proof (applyStateUpdates_frame (gameState w) (stateUpdate parsed)) as Hframe.
  cbv zeta in Hframe. destruct Hframe as (_ & _ & _ & _ & _ & ->).
  repeat split.
Qed.

(** C10: on such a turn the action history is the one from before the
    turn and no auto-save is scheduled (the handle of the auto-save timer
    is untouched, the pending auto-save timers are those from before the
    turn, and the only timers added are the interval of the dice
    animation, when the turn has a difficulty, and after it the timeout
    of the game-over modal), while the conversation has the two messages
    of the turn appended and pruned, and the ship, the inventory, the
    location and the resources counter are those the reducer computes
    from the parsed delta. *)
Theorem death_turn_returns_early (w : World) (actionText : string)
    (difficulty : option string) (spentPoints : option Z) (rnd : Q) (now : Z)
    (response : string) (parsed : ParsedResponse) :
  reachesOracle w difficulty spentPoints ->
  oracleAnswer formatUserMessage callAI (gameState w) actionText difficulty spentPoints rnd
    = Returned response ->
  parseGameMasterResponse response = Some parsed ->
  isPlayerDead parsed = true ->
  exists w',
    processPlayerAction formatUserMessage callAI w actionText difficulty spentPoints rnd now
      = Some w' /\
    actionHistory (gameState w') = actionHistory (gameState w) /\
    autoSaveTimeout w' = autoSaveTimeout w /\
    timers w' =
      ((timers w ++ diceTimers w difficulty) ++
         [mkTimer (nextTimer w + length (diceTimers w difficulty))
            ShowGameOverModal 1500])%list /\
    List.filter isAutoSave (timers w') = List.filter isAutoSave (timers w) /\
    conversationHistory (gameState w') =
      pruned (conversationHistory (gameState w) ++
                [mkMessage "user"
                   (sentMessage formatUserMessage (gameState w) actionText difficulty
                      spentPoints rnd);
                 mkMessage "assistant" response]) /\
    (let reduced := applyStateUpdates (gameState w) (stateUpdate parsed) in
     ship (gameState w') = ship reduced /\
     inventory (gameState w') = inventory reduced /\
     currentLocation (gameState w') = currentLocation reduced /\
     resourcesGathered (stats (gameState w')) = resourcesGathered (stats reduced)).
Proof.
  intros Hreach Hanswer Hparsed Hdead.
  destruct (death_turn_world w actionText difficulty spentPoints rnd now response parsed
              Hreach Hanswer Hparsed Hdead) as (sk & ->).
  eexists. split; [reflexivity |]. cbn.
  pose proof (applyStateUpdates_frame (gameState w) (stateUpdate parsed)) as Hframe.
  cbv zeta in Hframe. destruct Hframe as (_ & _ & _ & _ & -> & _).
  repeat split.
  rewrite !List.filter_app. unfold diceTimers.
  destruct (truthy difficulty); cbn; rewrite ?app_nil_r; reflexivity.
Qed.

(** For contrast, a turn that is survived records the action first in the
    action history, replaces the options and arms the auto-save timer. *)
Lemma surviving_turn_records (w : World) (actionText : string)
    (difficulty : option string) (spentPoints : option Z) (rnd : Q) (now : Z)
    (response : string) (parsed : ParsedResponse) :
  reachesOracle w difficulty spentPoints ->
  oracleAnswer formatUserMessage callAI (gameState w) actionText difficulty spentPoints rnd
    = Returned response ->
  parseGameMasterResponse response = Some parsed ->
  isPlayerDead parsed = false ->
  exists w',
    processPlayerAction formatUserMessage callAI w actionText difficulty spentPoints rnd now
      = Some w' /\
    head (actionHistory (gameState w')) =
      Some (mkActionEntry now actionText (Js.take 100 (narrative parsed) +:+ "...")) /\
    currentOptions (gameState w') = options parsed /\
    autoSaveTimeout w' = Some (nextTimer w + length (diceTimers w difficulty))%nat /\
    In (mkTimer (nextTimer w + length (diceTimers w difficulty)) AutoSave autoSaveDelay)
       (timers w').
Proof.
  intros [Hstaged Hidle] Hanswer Hparsed Hdead.
  unfold processPlayerAction, oracleAnswer in *.
  rewrite Hstaged, Hidle. cbn [hideError setProcessing gameState].
  destruct (beforeOracle (gameState w) actionText difficulty spentPoints rnd)
    as [g1 diceRoll].
  rewrite Hanswer, Hparsed. cbn [mbind option_bind]. rewrite Hdead.
  rewrite animated_world.
  eexists. split; [reflexivity |].
  assert (Hhead : forall (e : ActionEntry) (old : list ActionEntry),
            head (if (maxActionHistory <? length (e :: old))%nat
                  then removelast (e :: old) else e :: old) = Some e).
  { intros e old. destruct (maxActionHistory <? length (e :: old))%nat eqn:Hlen;
      [| reflexivity].
    destruct old; [discriminate | reflexivity]. }
  unfold finallyIdle, scheduleAutoSave, setGameState, hideError, setProcessing.
  cbn [autoSaveTimeout].
  destruct (autoSaveTimeout w) as [[| id] |];
    cbn [clearTimeout setTimeout setProcessing gameState autoSaveTimeout timers
         nextTimer isProcessingAction pendingAction errorShown skillSpendModal
         actionHistory setActionHistory currentOptions setCurrentOptions
         setCurrentNarrative];
    (split; [apply Hhead | split; [reflexivity | split; [reflexivity |]]]);
    apply in_or_app; right; left; reflexivity.
Qed.

(** C3, as amended: when the backend call of a turn fails, the error
    message is shown, the in-flight guard is released, and the narrative,
    the options, the conversation, the action history, the ship, the
    inventory, the location and the stats are those from before the turn;
    the skills are the only part of the game state that may differ, and a
    turn without a difficulty leaves the whole game state as it was. *)
Theorem oracle_failure_keeps_state (w : World) (actionText : string)
    (difficulty : option string) (spentPoints : option Z) (rnd : Q) (now : Z)
    (message : string) :
  reachesOracle w difficulty spentPoints ->
  oracleAnswer formatUserMessage callAI (gameState w) actionText difficulty spentPoints rnd
    = Threw message ->
  exists w',
    processPlayerAction formatUserMessage callAI w actionText difficulty spentPoints rnd now
      = Some w' /\
    errorShown w' = Some message /\
    isProcessingAction w' = false /\
    gameState w' = setSkills (skills (gameState w')) (gameState w) /\
    (truthy difficulty = false -> gameState w' = gameState w) /\
    currentNarrative (gameState w') = currentNarrative (gameState w) /\
    currentOptions (gameState w') = currentOptions (gameState w) /\
    conversationHistory (gameState w') = conversationHistory (gameState w) /\
    actionHistory (gameState w') = actionHistory (gameState w) /\
    ship (gameState w') = ship (gameState w) /\
    inventory (gameState w') = inventory (gameState w) /\
    currentLocation (gameState w') = currentLocation (gameState w) /\
    stats (gameState w') = stats (gameState w).
Proof.
  intros [Hstaged Hidle] Hanswer.
  unfold processPlayerAction, oracleAnswer in *.
  rewrite Hstaged, Hidle. cbn [hideError setProcessing gameState].
  destruct (beforeOracle_frame (gameState w) actionText difficulty spentPoints rnd)
    as [(sk & Hsk) Hnone].
  destruct (beforeOracle (gameState w) actionText difficulty spentPoints rnd)
    as [g1 diceRoll].
  cbn [fst] in Hsk. rewrite Hanswer, animated_world. eexists. split; [reflexivity |].
  assert (Hn : truthy difficulty = false -> g1 = gameState w).
  { intros Hd. specialize (Hnone Hd). injection Hnone as Hn _. exact Hn. }
  subst g1. unfold finallyIdle, catchError.
  destruct (Js.includes message "API key"); cbn; repeat split; exact Hn.
Qed.

End TurnProperties.

Lemma death_turn_clears_options_witness :
  exists w',
    processPlayerAction plainMessage
      (fixedAnswer (Returned "The cold wins. You have died."))
      (newWorld 0) "Walk into the storm" None None (1 # 2) 0 = Some w' /\
    currentOptions (gameState w') = [] /\
    deathCount (stats (gameState w')) = 1.
Proof.
  assert (Hp : parseGameMasterResponse "The cold wins. You have died." =
               Some (mkParsedResponse "The cold wins. You have died." None
                       defaultOptions true))
    by (vm_compute; reflexivity).
  destruct (death_turn_clears_options plainMessage
              (fixedAnswer (Returned "The cold wins. You have died."))
              (newWorld 0) "Walk into the storm" None None (1 # 2) 0 _ _
              (conj eq_refl eq_refl) eq_refl Hp eq_refl)
    as (w' & Hw & Ho & Hd & _).
  exists w'. split; [exact Hw |]. split; [exact Ho |]. rewrite Hd. reflexivity.
Defined.

Lemma death_turn_returns_early_witness :
  exists w',
    processPlayerAction plainMessage
      (fixedAnswer (Returned (Js.lines ["Your last breath fogs the visor.";
                                        "[STATE UPDATE]"; "Ship: -10%"])))
      (newWorld 0) "Open the airlock" (Some "Hard") (Some 0) (1 # 20) 0 = Some w' /\
    actionHistory (gameState w') = [] /\
    autoSaveTimeout w' = None /\
    timers w' = [mkTimer 1 DiceFrame 100; mkTimer 2 ShowGameOverModal 1500] /\
    health (ship (gameState w')) = 5.
Proof.
  assert (Hp : parseGameMasterResponse
                 (Js.lines ["Your last breath fogs the visor.";
                            "[STATE UPDATE]"; "Ship: -10%"]) =
               Some (mkParsedResponse "Your last breath fogs the visor."
                       (Some (mkStateUpdate (Some (-10)) None None None))
                       defaultOptions true))
    by (vm_compute; reflexivity).
  destruct (death_turn_returns_early plainMessage
              (fixedAnswer (Returned (Js.lines ["Your last breath fogs the visor.";
                                                "[STATE UPDATE]"; "Ship: -10%"])))
              (newWorld 0) "Open the airlock" (Some "Hard") (Some 0) (1 # 20) 0 _ _
              (conj eq_refl eq_refl) eq_refl Hp eq_refl)
    as (w' & Hw & Hh & Ha & Ht & _ & _ & Hs & _).
  exists w'. split; [exact Hw |]. split; [exact Hh |]. split; [exact Ha |].
  split; [exact Ht |]. rewrite Hs. reflexivity.
Defined.

Lemma oracle_failure_keeps_state_witness :
  exists w',
    processPlayerAction plainMessage (fixedAnswer (Threw "API error: 500"))
      (newWorld 0) "Look around" None None (1 # 2) 0 = Some w' /\
    errorShown w' = Some "API error: 500" /\
    isProcessingAction w' = false /\
    gameState w' = createInitialGameState 0.
Proof.
  destruct (oracle_failure_keeps_state plainMessage (fixedAnswer (Threw "API error: 500"))
              (newWorld 0) "Look around" None None (1 # 2) 0 "API error: 500"
              (conj eq_refl eq_refl) eq_refl)
    as (w' & Hw & He & Hi & _ & Hg & _).
  exists w'. split; [exact Hw |]. split; [exact He |]. split; [exact Hi |].
  apply Hg. reflexivity.
Defined.

(** C3 as stated fails: a turn with a difficulty rolls and awards before
    the backend is called, so a failed call leaves the earned points in the
    skills. *)
Lemma oracle_failure_changes_skills :
  exists w',
    processPlayerAction plainMessage (fixedAnswer (Threw "API error: 500"))
      (newWorld 0) "Attack the sentinel" (Some "Easy") (Some 0) (19 # 20) 0 = Some w' /\
    errorShown w' = Some "API error: 500" /\
    (points <$> skills (gameState (newWorld 0)) !! "combat") = Some 0 /\
    (points <$> skills (gameState w') !! "combat") = Some 14 /\
    gameState w' <> gameState (newWorld 0).
Proof.
  eexists. split; [reflexivity |].
  split; [reflexivity |].
  split; [reflexivity |].
  split; [vm_compute; reflexivity |].
  intros H.
  apply (f_equal (fun g => points <$> skills g !! "combat")) in H.
  vm_compute in H. discriminate.
Qed.

(** * Further properties *)

(** ** Lower case, and the members of [Object.prototype] *)

Lemma allAscii_complete (c : ascii) : In c allAscii.
Proof.
  unfold allAscii. rewrite <- (ascii_nat_embedding c).
  apply in_map. apply in_seq. pose proof (nat_ascii_bounded c). lia.
Qed.

Lemma forall_ascii (p : ascii -> bool) :
  forallb p allAscii = true -> forall c, p c = true.
Proof. intros H c. rewrite forallb_forall in H. apply H, allAscii_complete. Qed.

Lemma lowerChar_idempotent (c : ascii) : Js.lowerChar (Js.lowerChar c) = Js.lowerChar c.
Proof.
  assert (H : forallb (fun c => Ascii.eqb (Js.lowerChar (Js.lowerChar c)) (Js.lowerChar c))
                allAscii = true) by (vm_compute; reflexivity).
  apply Ascii.eqb_eq. exact (forall_ascii _ H c).
Qed.

Lemma toLowerCase_idempotent (s : string) :
  Js.toLowerCase (Js.toLowerCase s) = Js.toLowerCase s.
Proof.
  induction s as [| c s IH]; [reflexivity |].
  cbn. rewrite lowerChar_idempotent, IH. reflexivity.
Qed.

(** [constructor] is the only method of [Object.prototype] whose name is
    in lower case. *)
Lemma lowercase_method (key : string) :
  isPrototypeMethod key = true -> Js.toLowerCase key = key -> key = "constructor".
Proof.
  unfold isPrototypeMethod. intros Hm Hlow.
  apply existsb_exists in Hm as (name & Hin & Heq).
  apply String.eqb_eq in Heq. subst name.
  cbn in Hin.
  repeat (destruct Hin as [<- | Hin]; [first [reflexivity | discriminate Hlow] |]).
  destruct Hin.
Qed.

Lemma lowercase_inherited (key : string) :
  isPrototypeMethod key || isProto key = true -> Js.toLowerCase key = key ->
  In key ["constructor"; "__proto__"].
Proof.
  intros Hm Hlow. apply orb_true_iff in Hm as [Hm | Hp].
  - left. symmetry. exact (lowercase_method key Hm Hlow).
  - right. left. symmetry. apply String.eqb_eq. exact Hp.
Qed.

(** What [writeKey] leaves under a key. *)
Lemma writeKey_lookup {A : Type} (key other : string) (v x : A) (m : gmap string A) :
  writeKey key v m !! other = Some x ->
  (other = key /\ x = v) \/ m !! other = Some x.
Proof.
  unfold writeKey. intros H.
  destruct (m !! key); [| destruct (isProto key); [right; exact H |]];
    apply lookup_insert_Some in H as [[<- <-] | [_ H]]; auto.
Qed.

Lemma writeKey_proto {A : Type} (key : string) (v : A) (m : gmap string A) :
  m !! "__proto__" = None -> writeKey key v m !! "__proto__" = None.
Proof.
  unfold writeKey. intros H.
  destruct (m !! key) eqn:Hk.
  - rewrite lookup_insert_ne; [exact H |]. intros ->. congruence.
  - destruct (isProto key) eqn:Hp; [exact H |].
    rewrite lookup_insert_ne; [exact H |]. intros ->. discriminate Hp.
Qed.

(** The keys of a parsed inventory delta are in lower case, and
    [__proto__] is none of them. *)
Lemma inventoryLoop_keys (text : string) :
  forall steps lastIndex changes result,
    (forall item amount, changes !! item = Some amount -> Js.toLowerCase item = item) ->
    changes !! "__proto__" = None ->
    inventoryLoop steps text lastIndex changes = Some result ->
    (forall item amount, result !! item = Some amount -> Js.toLowerCase item = item) /\
    result !! "__proto__" = None.
Proof.
  intros steps. induction steps as [| steps IH];
    intros lastIndex changes result Hc Hp Hr; [discriminate |].
  cbn [inventoryLoop] in Hr.
  destruct (Re.execAt inventoryRe text lastIndex) as [m |].
  - eapply IH; [| | exact Hr].
    + intros item amount Hl. apply writeKey_lookup in Hl as [[-> _] | Hl].
      * apply toLowerCase_idempotent.
      * eapply Hc. exact Hl.
    + apply writeKey_proto. exact Hp.
  - injection Hr as <-. split; [exact Hc | exact Hp].
Qed.

Lemma parseInventoryChange_keys (text : string) (changes : gmap string Z) :
  parseInventoryChange text = Some changes ->
  (forall item amount, changes !! item = Some amount -> Js.toLowerCase item = item) /\
  changes !! "__proto__" = None.
Proof.
  intros Hc. eapply inventoryLoop_keys; [| | exact Hc].
  - intros item amount Hl. rewrite lookup_empty in Hl. discriminate.
  - apply lookup_empty.
Qed.

Lemma parseClause_keys (updates updates' : StateUpdate) (part : string) :
  lowerKeys updates -> parseClause updates part = Some updates' -> lowerKeys updates'.
Proof.
  unfold parseClause. intros Hu.
  set (u1 := if Re.test (wordRe "ship") (Js.trim part) then _ else updates).
  set (u2 := if Re.test (wordRe "fuel") (Js.trim part) then _ else u1).
  set (u3 := if Re.test (wordRe "distance") (Js.trim part) then _ else u2).
  assert (H3 : uInventory u3 = uInventory updates).
  { subst u3 u2 u1.
    destruct (Re.test (wordRe "ship") (Js.trim part));
      destruct (capturedInt percentRe (Js.trim part));
      destruct (Re.test (wordRe "fuel") (Js.trim part));
      destruct (Re.test (wordRe "distance") (Js.trim part));
      destruct (capturedInt signedRe (Js.trim part)); reflexivity. }
  destruct (Re.test (wordRe "inventory") (Js.trim part)).
  - destruct (parseInventoryChange (Js.trim part)) as [changes |] eqn:Hc;
      [| discriminate].
    cbn. intros [= <-]. intros changes' [= <-].
    exact (parseInventoryChange_keys _ _ Hc).
  - intros [= <-]. unfold lowerKeys. rewrite H3. exact Hu.
Qed.

Lemma parseClauses_keys (parts : list string) :
  forall updates updates',
    lowerKeys updates -> parseClauses updates parts = Some updates' -> lowerKeys updates'.
Proof.
  induction parts as [| part parts IH]; intros updates updates' Hu Hp.
  - injection Hp as <-. exact Hu.
  - cbn [parseClauses] in Hp.
    destruct (parseClause updates part) as [u1 |] eqn:H1; [| discriminate].
    cbn in Hp. eapply IH; [| exact Hp]. eapply parseClause_keys; [exact Hu | exact H1].
Qed.

(** Of the members of [Object.prototype], the delta of a parsed response
    can name [constructor] only. *)
Lemma parsed_delta_methods (response : string) (parsed : ParsedResponse) :
  parseGameMasterResponse response = Some parsed ->
  forall item, is_Some (default ∅ (stateUpdate parsed ≫= uInventory) !! item) ->
    isPrototypeMethod item = true -> item = "constructor".
Proof.
  unfold parseGameMasterResponse. intros Hp item Hitem Hm.
  apply lowercase_method; [exact Hm |].
  destruct (Re.exec stateMatchRe response) as [m |].
  - destruct (parseStateUpdate (Js.trim (default "" (Re.group 1 m)))) as [u |] eqn:Hu;
      [| discriminate].
    cbn in Hp. injection Hp as <-. cbn in Hitem.
    assert (Hk : lowerKeys u).
    { eapply parseClauses_keys; [| exact Hu]. intros changes [=]. }
    destruct (uInventory u) as [changes |] eqn:Hc.
    + destruct Hitem as [amount Hitem]. exact (proj1 (Hk changes Hc) item amount Hitem).
    + cbn in Hitem. rewrite lookup_empty in Hitem. destruct Hitem as [? [=]].
  - cbn in Hp. injection Hp as <-. cbn in Hitem.
    rewrite lookup_empty in Hitem. destruct Hitem as [? [=]].
Qed.

(** ** Dice *)

(** X1: for every positive number of sides the die shows 1..sides. *)
Theorem rollDice_in_range (rnd : Q) (sides : Z) :
  (0 <= rnd)%Q -> (rnd < 1)%Q -> 1 <= sides ->
  1 <= rollDice rnd sides <= sides.
Proof.
  intros Hlo Hhi Hs. unfold rollDice.
  assert (Hpos : (inject_Z 0 < inject_Z sides)%Q) by (rewrite <- Zlt_Qlt; lia).
  assert (Hnn : (inject_Z 0 <= rnd * inject_Z sides)%Q).
  { apply Qmult_le_0_compat; [exact Hlo | apply Qlt_le_weak; exact Hpos]. }
  assert (Hlt : (rnd * inject_Z sides < inject_Z sides)%Q).
  { apply Qlt_le_trans with (1 * inject_Z sides)%Q.
    - apply Qmult_lt_compat_r; [exact Hpos | exact Hhi].
    - rewrite Qmult_1_l. apply Qle_refl. }
  assert (H0 : 0 <= Qfloor (rnd * inject_Z sides)).
  { rewrite <- (Qfloor_Z 0). apply Qfloor_resp_le. exact Hnn. }
  assert (H1 : Qfloor (rnd * inject_Z sides) < sides).
  { rewrite Zlt_Qlt. eapply Qle_lt_trans; [apply Qfloor_le | exact Hlt]. }
  lia.
Qed.

Lemma rollDice_in_range_witness : 1 <= rollDice (5 # 6) 6 <= 6.
Proof.
  apply rollDice_in_range; [unfold Qle; simpl; lia | unfold Qlt; simpl; lia | lia].
Defined.

Lemma DIFFICULTY_DC_values (tier : string) (v : Z) :
  DIFFICULTY_DC !! tier = Some v -> v = 6 \/ v = 9 \/ v = 13 \/ v = 17.
Proof.
  intros H. apply elem_of_list_to_map_2 in H.
  repeat (apply elem_of_cons in H as [[= _ ->] | H]; [tauto |]).
  apply elem_of_nil in H. contradiction.
Qed.

(** The difficulty class of a check: one of the five numbers, or for the
    tiers [constructor] and [__proto__], in any letter case, the member
    that the table inherits, against which every check fails. *)
Lemma dc_values (rnd : Q) (difficulty : string) (bonus : Z) (skill : option string) :
  let c := performSkillCheck rnd difficulty bonus skill in
  (exists v, dc c = DcNumber v /\ In v [6; 9; 12; 13; 17]) \/
  (In (Js.toLowerCase difficulty) ["constructor"; "__proto__"] /\
   dc c = DcMember (Js.toLowerCase difficulty) /\ success c = false).
Proof.
  cbv zeta.
  destruct (isPrototypeMethod (Js.toLowerCase difficulty) ||
            isProto (Js.toLowerCase difficulty)) eqn:Hm.
  - right. split.
    + apply lowercase_inherited; [exact Hm | apply toLowerCase_idempotent].
    + apply dc_of_inherited_tier. exact Hm.
  - left. destruct (DIFFICULTY_DC !! Js.toLowerCase difficulty) as [v |] eqn:Hv.
    + pose proof (DIFFICULTY_DC_values _ _ Hv) as Hvals.
      exists v. split; [apply dc_of_tier; [exact Hv | lia] |].
      cbn. lia.
    + exists 12. split; [apply dc_of_unlisted_tier; assumption | cbn; tauto].
Qed.

(** X2: whatever the tier string, the difficulty class is one of 6, 9,
    12, 13 and 17, or, for the tiers constructor and __proto__ in any
    letter case, a member that the table inherits from
    [Object.prototype], against which every check fails; for the same
    draw and tier a larger bonus never turns a success into a failure;
    and with a bonus of 0 or more a raw roll of 17 or above succeeds at
    every tier but those two. *)
Theorem performSkillCheck_bonus (rnd : Q) (difficulty : string) (bonus bonus' : Z)
    (skill skill' : option string) :
  let c := performSkillCheck rnd difficulty bonus skill in
  let c' := performSkillCheck rnd difficulty bonus' skill' in
  ((exists v, dc c = DcNumber v /\ In v [6; 9; 12; 13; 17]) \/
   (In (Js.toLowerCase difficulty) ["constructor"; "__proto__"] /\
    dc c = DcMember (Js.toLowerCase difficulty) /\ success c = false)) /\
  (bonus <= bonus' -> success c = true -> success c' = true) /\
  (0 <= bonus -> 17 <= roll c ->
   ~ In (Js.toLowerCase difficulty) ["constructor"; "__proto__"] -> success c = true).
Proof.
  intros c c'. pose proof (dc_values rnd difficulty bonus skill) as Hdc.
  cbv zeta in Hdc. fold c in Hdc. split; [exact Hdc |].
  split.
  - intros Hb. subst c c'. unfold success.
    cbn [performSkillCheck dc total].
    destruct (match readKey (Js.toLowerCase difficulty) DIFFICULTY_DC with
              | Own n => DcNumber (orNumber (Some n) 12)
              | Inherited => DcMember (Js.toLowerCase difficulty)
              | Undefined => DcNumber 12
              end) as [d | key]; cbn [reaches]; [| discriminate].
    intros Hs. apply Z.geb_le in Hs. apply Z.geb_le. lia.
  - intros Hb Hr Hnot. destruct Hdc as [(v & Hv & Hin) | (Hin & _)]; [| contradiction].
    unfold success. rewrite Hv. cbn [reaches]. apply Z.geb_le.
    assert (Ht : total c = roll c + bonus) by reflexivity.
    cbn in Hin. lia.
Qed.

Lemma performSkillCheck_bonus_witness :
  success (performSkillCheck (1 # 2) "Hard" 0 None) = false /\
  success (performSkillCheck (1 # 2) "Hard" 2 None) = true /\
  success (performSkillCheck (1 # 2) "Hard" 5 None) = true /\
  success (performSkillCheck (19 # 20) "Constructor" 5 None) = false.
Proof.
  split; [reflexivity |]. split; [reflexivity |].
  split.
  - apply (proj1 (proj2 (performSkillCheck_bonus (1 # 2) "Hard" 2 5 None None)));
      [lia | reflexivity].
  - destruct (proj1 (performSkillCheck_bonus (19 # 20) "Constructor" 5 5 None None))
      as [(v & Hv & _) | (_ & _ & Hs)]; [discriminate Hv | exact Hs].
Defined.

(** ** Skill classifier *)

(** X3: the classifier answers with one of the four skill names, so the
    skill it names is always present in a game made by
    [createInitialGameState]. *)
Theorem detectSkillFromAction_known (actionText : string) (now : Z) :
  In (detectSkillFromAction actionText)
     ["combat"; "technology"; "survival"; "exploration"] /\
  is_Some (skills (createInitialGameState now) !! detectSkillFromAction actionText).
Proof.
  unfold detectSkillFromAction.
  destruct (anyKeyword _ combatKeywords); [split; [simpl; tauto | eexists; reflexivity] |].
  destruct (anyKeyword _ technologyKeywords);
    [split; [simpl; tauto | eexists; reflexivity] |].
  destruct (anyKeyword _ survivalKeywords);
    [split; [simpl; tauto | eexists; reflexivity] |].
  destruct (anyKeyword _ explorationKeywords);
    split; try (simpl; tauto); eexists; reflexivity.
Qed.

(** ** Turn orchestrator: the five ways a call ends *)

Section TurnOutcomes.

Variable formatUserMessage : GameState -> string -> option SkillCheck -> string.
Variable callAI : list Message -> string -> AiResult.

(** The world a survived turn ends in. *)
Lemma resolved_turn_world (w : World) (actionText : string) (difficulty : option string)
    (spentPoints : option Z) (rnd : Q) (now : Z) (response : string)
    (parsed : ParsedResponse) :
  reachesOracle w difficulty spentPoints ->
  oracleAnswer formatUserMessage callAI (gameState w) actionText difficulty spentPoints rnd
    = Returned response ->
  parseGameMasterResponse response = Some parsed ->
  isPlayerDead parsed = false ->
  exists sk,
    processPlayerAction formatUserMessage callAI w actionText difficulty spentPoints rnd now =
    Some (finallyIdle (scheduleAutoSave
      (mkWorld
         (setActionHistory
            (cappedHistory
               (mkActionEntry now actionText (Js.take 100 (narrative parsed) +:+ "...")
                :: actionHistory (gameState w)))
            (setCurrentOptions (options parsed)
               (setCurrentNarrative (narrative parsed)
                  (setConversationHistory
                     (pruned (conversationHistory (gameState w) ++
                                [mkMessage "user"
                                   (sentMessage formatUserMessage (gameState w)
                                      actionText difficulty spentPoints rnd);
                                 mkMessage "assistant" response]))
                     (setSkills sk
                        (applyStateUpdates (gameState w) (stateUpdate parsed)))))))
         true (pendingAction w)
                  (autoSaveTimeout w) (timers w ++ diceTimers w difficulty)
                  (nextTimer w + length (diceTimers w difficulty)) None
                  (skillSpendModal w)))).
Proof.
  intros [Hstaged Hidle] Hanswer Hparsed Hdead.
  unfold processPlayerAction, oracleAnswer, sentMessage in *.
  rewrite Hstaged, Hidle. cbn [hideError setProcessing gameState].
  destruct (beforeOracle_frame (gameState w) actionText difficulty spentPoints rnd)
    as [(sk & Hsk) _].
  destruct (beforeOracle (gameState w) actionText difficulty spentPoints rnd)
    as [g1 diceRoll].
  cbn [fst] in Hsk. subst g1. exists sk.
  rewrite Hanswer, Hparsed. cbn [mbind option_bind]. rewrite Hdead.
  rewrite animated_world.
  rewrite pruneConversationHistory_eq.
  rewrite applyStateUpdates_setConversationHistory.
  rewrite applyStateUpdates_setConversationHistory.
  rewrite applyStateUpdates_setSkills.
  pose proof (applyStateUpdates_frame (gameState w) (stateUpdate parsed)) as Hframe.
  cbv zeta in Hframe. destruct Hframe as (_ & _ & _ & _ & Hah & _).
  unfold cappedHistory. cbn. rewrite Hah. reflexivity.
Qed.

(** Every call returns, in one of five ways: staged for the wager,
    refused because a turn is in flight, failed at the backend, ended by
    death, or resolved. *)
Lemma turn_cases (w : World) (actionText : string) (difficulty : option string)
    (spentPoints : option Z) (rnd : Q) (now : Z) :
  exists w',
    processPlayerAction formatUserMessage callAI w actionText difficulty spentPoints rnd now
      = Some w' /\
    ((truthy difficulty && isUndefined spentPoints = true /\
      w' = mkWorld (gameState w) (isProcessingAction w)
             (Some (actionText, default "" difficulty)) (autoSaveTimeout w)
             (timers w) (nextTimer w) (errorShown w) true) \/
     (truthy difficulty && isUndefined spentPoints = false /\
      isProcessingAction w = true /\ w' = w) \/
     (reachesOracle w difficulty spentPoints /\
      exists message sk,
        oracleAnswer formatUserMessage callAI (gameState w) actionText difficulty
          spentPoints rnd = Threw message /\
        w' = finallyIdle (catchError message
               (mkWorld (setSkills sk (gameState w)) true (pendingAction w)
                  (autoSaveTimeout w) (timers w ++ diceTimers w difficulty)
                  (nextTimer w + length (diceTimers w difficulty)) None
                  (skillSpendModal w)))) \/
     (reachesOracle w difficulty spentPoints /\
      exists response parsed sk,
        oracleAnswer formatUserMessage callAI (gameState w) actionText difficulty
          spentPoints rnd = Returned response /\
        parseGameMasterResponse response = Some parsed /\
        isPlayerDead parsed = true /\
        w' = mkWorld
               (setCurrentOptions []
                  (setCurrentNarrative (narrative parsed)
                     (setStats
                        (setDeathCount
                           (deathCount (stats (applyStateUpdates (gameState w)
                                                 (stateUpdate parsed))) + 1))
                        (setConversationHistory
                           (pruned (conversationHistory (gameState w) ++
                                      [mkMessage "user"
                                         (sentMessage formatUserMessage (gameState w)
                                            actionText difficulty spentPoints rnd);
                                       mkMessage "assistant" response]))
                           (setSkills sk
                              (applyStateUpdates (gameState w) (stateUpdate parsed)))))))
               false (pendingAction w) (autoSaveTimeout w)
               ((timers w ++ diceTimers w difficulty) ++
                  [mkTimer (nextTimer w + length (diceTimers w difficulty))
                     ShowGameOverModal 1500])
               (S (nextTimer w + length (diceTimers w difficulty))) None
               (skillSpendModal w)) \/
     (reachesOracle w difficulty spentPoints /\
      exists response parsed sk,
        oracleAnswer formatUserMessage callAI (gameState w) actionText difficulty
          spentPoints rnd = Returned response /\
        parseGameMasterResponse response = Some parsed /\
        isPlayerDead parsed = false /\
        w' = finallyIdle (scheduleAutoSave
               (mkWorld
                  (setActionHistory
                     (cappedHistory
                        (mkActionEntry now actionText
                           (Js.take 100 (narrative parsed) +:+ "...")
                         :: actionHistory (gameState w)))
                     (setCurrentOptions (options parsed)
                        (setCurrentNarrative (narrative parsed)
                           (setConversationHistory
                              (pruned (conversationHistory (gameState w) ++
                                         [mkMessage "user"
                                            (sentMessage formatUserMessage (gameState w)
                                               actionText difficulty spentPoints rnd);
                                          mkMessage "assistant" response]))
                              (setSkills sk
                                 (applyStateUpdates (gameState w)
                                    (stateUpdate parsed)))))))
                  true (pendingAction w)
                  (autoSaveTimeout w) (timers w ++ diceTimers w difficulty)
                  (nextTimer w + length (diceTimers w difficulty)) None
                  (skillSpendModal w))))).
Proof.
  destruct (truthy difficulty && isUndefined spentPoints) eqn:Hstaged.
  { eexists. split; [unfold processPlayerAction; rewrite Hstaged; reflexivity |].
    left. split; reflexivity. }
  destruct (isProcessingAction w) eqn:Hbusy.
  { exists w. split; [unfold processPlayerAction; rewrite Hstaged, Hbusy; reflexivity |].
    right. left. repeat split. }
  assert (Hreach : reachesOracle w difficulty spentPoints) by (split; assumption).
  destruct (oracleAnswer formatUserMessage callAI (gameState w) actionText difficulty
              spentPoints rnd) as [message | response] eqn:Hanswer.
  - destruct (beforeOracle_frame (gameState w) actionText difficulty spentPoints rnd)
      as [(sk & Hsk) _].
    exists (finallyIdle (catchError message
              (mkWorld (setSkills sk (gameState w)) true (pendingAction w)
                 (autoSaveTimeout w) (timers w ++ diceTimers w difficulty)
                 (nextTimer w + length (diceTimers w difficulty)) None
                 (skillSpendModal w)))).
    split.
    2: { right. right. left. split; [exact Hreach |].
         exists message, sk. split; reflexivity. }
    unfold processPlayerAction, oracleAnswer in *. rewrite Hstaged, Hbusy.
    cbn [hideError setProcessing gameState].
    destruct (beforeOracle (gameState w) actionText difficulty spentPoints rnd)
      as [g1 diceRoll].
    cbn [fst] in Hsk. rewrite Hanswer, animated_world. subst g1. reflexivity.
  - destruct (parseGameMasterResponse_options response) as (parsed & Hparsed & _).
    destruct (isPlayerDead parsed) eqn:Hdead.
    + destruct (death_turn_world formatUserMessage callAI w actionText difficulty
                  spentPoints rnd now response parsed Hreach Hanswer Hparsed Hdead)
        as (sk & Hw).
      eexists. split; [exact Hw |]. right. right. right. left.
      split; [exact Hreach |]. exists response, parsed, sk. repeat split; assumption.
    + destruct (resolved_turn_world w actionText difficulty spentPoints rnd now
                  response parsed Hreach Hanswer Hparsed Hdead) as (sk & Hw).
      eexists. split; [exact Hw |]. right. right. right. right.
      split; [exact Hreach |]. exists response, parsed, sk. repeat split; assumption.
Qed.

End TurnOutcomes.

(** ** Conversation and action history *)

Lemma pruned_length (h : list Message) : (length (pruned h) <= maxConversationHistory)%nat.
Proof.
  unfold pruned, sliceLast.
  destruct (Nat.ltb_spec maxConversationHistory (length h)); [| lia].
  rewrite length_drop. lia.
Qed.

Lemma pruned_suffix (h : list Message) : pruned h `suffix_of` h.
Proof.
  unfold pruned, sliceLast.
  destruct (maxConversationHistory <? length h)%nat; [apply suffix_drop | reflexivity].
Qed.

(** X4: pruning keeps at most 20 messages, and those it keeps are the
    newest ones, in order (a suffix of the conversation); a conversation
    of 20 messages or fewer is left as it is; no other field of the state
    is touched. *)
Theorem pruneConversationHistory_keeps_newest (g : GameState) :
  let g' := pruneConversationHistory g in
  (length (conversationHistory g') <= 20)%nat /\
  conversationHistory g' `suffix_of` conversationHistory g /\
  ((length (conversationHistory g) <= 20)%nat -> g' = g) /\
  ((20 < length (conversationHistory g))%nat -> length (conversationHistory g') = 20%nat) /\
  g' = setConversationHistory (conversationHistory g') g.
Proof.
  cbv zeta. rewrite pruneConversationHistory_eq. cbn [conversationHistory setConversationHistory].
  split; [apply pruned_length |]. split; [apply pruned_suffix |].
  split; [| split; [| reflexivity]].
  - intros Hle. unfold pruned, maxConversationHistory.
    destruct (Nat.ltb_spec 20 (length (conversationHistory g))); [lia |].
    destruct g; reflexivity.
  - intros Hlt. unfold pruned, sliceLast, maxConversationHistory.
    destruct (Nat.ltb_spec 20 (length (conversationHistory g))); [| lia].
    rewrite length_drop. lia.
Qed.

Lemma pruneConversationHistory_keeps_newest_witness :
  pruneConversationHistory (createInitialGameState 0) = createInitialGameState 0.
Proof.
  apply (proj1 (proj2 (proj2
           (pruneConversationHistory_keeps_newest (createInitialGameState 0))))).
  cbn. lia.
Defined.

Lemma removelast_length {A : Type} (l : list A) :
  length (removelast l) = pred (length l).
Proof.
  induction l as [| a [| b l] IH]; [reflexivity | reflexivity |].
  change (removelast (a :: b :: l)) with (a :: removelast (b :: l)).
  cbn [length]. rewrite IH. reflexivity.
Qed.

Lemma cappedHistory_length (e : ActionEntry) (h : list ActionEntry) :
  (length h <= maxActionHistory)%nat ->
  (length (cappedHistory (e :: h)) <= maxActionHistory)%nat.
Proof.
  intros Hle. unfold cappedHistory.
  destruct (Nat.ltb_spec maxActionHistory (length (e :: h))); [| lia].
  rewrite removelast_length. cbn [length]. lia.
Qed.

Lemma cappedHistory_head (e : ActionEntry) (h : list ActionEntry) :
  head (cappedHistory (e :: h)) = Some e.
Proof.
  unfold cappedHistory.
  destruct (maxActionHistory <? length (e :: h))%nat eqn:Hlen; [| reflexivity].
  destruct h; [discriminate | reflexivity].
Qed.

Lemma gameState_scheduleAutoSave (w : World) :
  gameState (scheduleAutoSave w) = gameState w.
Proof. unfold scheduleAutoSave. destruct (autoSaveTimeout w) as [[| id] |]; reflexivity. Qed.

Lemma gameState_catchError (message : string) (w : World) :
  gameState (catchError message w) = gameState w.
Proof. unfold catchError. destruct (Js.includes message "API key"); reflexivity. Qed.

Lemma inBounds_same (g g' : GameState) :
  ship g' = ship g -> inventory g' = inventory g -> inBounds g -> inBounds g'.
Proof. unfold inBounds. intros -> ->. tauto. Qed.

Lemma inBoundsExcept_same (free : string) (g g' : GameState) :
  ship g' = ship g -> inventory g' = inventory g ->
  inBoundsExcept free g -> inBoundsExcept free g'.
Proof. unfold inBoundsExcept. intros -> ->. tauto. Qed.

Lemma inBounds_inBoundsExcept (free : string) (g : GameState) :
  inBounds g -> inBoundsExcept free g.
Proof.
  intros (Hh & Hf & Hi). split; [exact Hh | split; [exact Hf |]].
  intros item count Hc _. exact (Hi item count Hc).
Qed.

(** From a state within bounds, a delta that names no method of
    [Object.prototype] but [free] either keeps the bounds or leaves the
    count of [free] at [NaN]. *)
Lemma applyStateUpdates_or_NaN (free : string) (g : GameState) (u : option StateUpdate) :
  inBounds g ->
  (forall item, is_Some (default ∅ (u ≫= uInventory) !! item) ->
     isPrototypeMethod item = true -> item = free) ->
  inBounds (applyStateUpdates g u) \/
  inventory (applyStateUpdates g u) !! free = Some NaN.
Proof.
  intros Hg Hkeys.
  destruct (default ∅ (u ≫= uInventory) !! free) as [amount |] eqn:Hc;
    [destruct (inventory g !! free) as [old |] eqn:Hold;
       [| destruct (isPrototypeMethod free) eqn:Hm] |].
  - left. apply applyStateUpdates_inBounds; [exact Hg |].
    intros item Hitem Hnew. destruct (isPrototypeMethod item) eqn:Hi; [| reflexivity].
    rewrite (Hkeys item Hitem Hi) in Hnew. congruence.
  - right. pose proof (applyStateUpdates_effect g u) as (_ & _ & Hl & _).
    rewrite Hl, Hc. unfold countAfter. rewrite Hold, Hm. reflexivity.
  - left. apply applyStateUpdates_inBounds; [exact Hg |].
    intros item Hitem Hnew. destruct (isPrototypeMethod item) eqn:Hi; [| reflexivity].
    rewrite (Hkeys item Hitem Hi) in Hi. congruence.
  - left. apply applyStateUpdates_inBounds; [exact Hg |].
    intros item Hitem Hnew. destruct (isPrototypeMethod item) eqn:Hi; [| reflexivity].
    rewrite (Hkeys item Hitem Hi), Hc in Hitem. destruct Hitem as [? [=]].
Qed.

Section TurnInvariants.

Variable formatUserMessage : GameState -> string -> option SkillCheck -> string.
Variable callAI : list Message -> string -> AiResult.


(** X6: a call never lets the conversation grow past 20 messages or the
    action history past 50 entries: a state within the caps stays within
    them, and the in-flight flag is after the call what it was before. *)
Theorem turn_keeps_caps (w : World) (actionText : string) (difficulty : option string)
    (spentPoints : option Z) (rnd : Q) (now : Z) :
  (length (conversationHistory (gameState w)) <= 20)%nat ->
  (length (actionHistory (gameState w)) <= 50)%nat ->
  exists w',
    processPlayerAction formatUserMessage callAI w actionText difficulty spentPoints rnd now
      = Some w' /\
    (length (conversationHistory (gameState w')) <= 20)%nat /\
    (length (actionHistory (gameState w')) <= 50)%nat /\
    isProcessingAction w' = isProcessingAction w.
Proof.
  intros Hc Ha.
  destruct (turn_cases formatUserMessage callAI w actionText difficulty spentPoints rnd now)
    as (w' & Hw & Hcases).
  exists w'. split; [exact Hw |].
  destruct Hcases as [(_ & ->) | [(_ & _ & ->) | [([_ Hidle] & message & sk & _ & ->)
    | [([_ Hidle] & response & parsed & sk & _ & _ & _ & ->)
      | ([_ Hidle] & response & parsed & sk & _ & _ & _ & ->)]]]].
  - repeat split; assumption.
  - repeat split; assumption.
  - unfold finallyIdle. cbn [setProcessing gameState isProcessingAction].
    rewrite gameState_catchError. cbn. repeat split; [exact Hc | exact Ha |].
    symmetry. exact Hidle.
  - cbn. pose proof (applyStateUpdates_frame (gameState w) (stateUpdate parsed)) as Hf.
    cbv zeta in Hf. destruct Hf as (_ & _ & _ & _ & -> & _).
    repeat split; [apply pruned_length | exact Ha |]. symmetry. exact Hidle.
  - unfold finallyIdle. cbn [setProcessing gameState isProcessingAction].
    rewrite gameState_scheduleAutoSave. cbn.
    repeat split; [apply pruned_length | apply cappedHistory_length; exact Ha |].
    symmetry. exact Hidle.
Qed.

End TurnInvariants.

Lemma initial_inBounds (now : Z) : inBounds (createInitialGameState now).
Proof.
  split; [cbn; lia | split; [cbn; lia |]].
  intros item count Hcount. apply elem_of_list_to_map_2 in Hcount.
  repeat (apply elem_of_cons in Hcount as [[= -> ->] | Hcount];
          [exists 0; split; [reflexivity | lia] |]).
  apply elem_of_nil in Hcount. destruct Hcount.
Qed.


Lemma turn_keeps_caps_witness :
  exists w',
    processPlayerAction plainMessage (fixedAnswer (Returned "Dust settles."))
      (newWorld 0) "Wait" None None (1 # 2) 0 = Some w' /\
    (length (conversationHistory (gameState w')) <= 20)%nat /\
    (length (actionHistory (gameState w')) <= 50)%nat /\
    isProcessingAction w' = false.
Proof.
  apply (turn_keeps_caps plainMessage (fixedAnswer (Returned "Dust settles."))
           (newWorld 0) "Wait" None None (1 # 2) 0); cbn; lia.
Defined.

Lemma chosenOptions_nonempty (rawText : string) : chosenOptions rawText <> [].
Proof.
  unfold chosenOptions.
  destruct (sectionOptions (withoutStateUpdate rawText)); [| discriminate].
  destruct (parseOptionsFromAnywhere rawText); discriminate.
Qed.

Section ResolvedTurn.

Variable formatUserMessage : GameState -> string -> option SkillCheck -> string.
Variable callAI : list Message -> string -> AiResult.


End ResolvedTurn.


(** ** The wager *)

(** A property of a check holds when it holds of a success against a
    number, of a failure against a number, and of a failure against a
    member of [Object.prototype]. *)
Lemma success_cases (check : SkillCheck) (P : bool -> Dc -> Prop) :
  (forall d, P true (DcNumber d)) ->
  (forall d, P false (DcNumber d)) ->
  (forall key, P false (DcMember key)) ->
  P (success check) (dc check).
Proof.
  intros Hs Hf Hm. unfold success.
  destruct (dc check) as [d | key]; cbn [reaches]; [| apply Hm].
  destruct (total check >=? d); [apply Hs | apply Hf].
Qed.

(** X8: the dice part of a turn changes the skills only. When the skill
    named by the classifier is present, its balance ends at the old
    balance, minus the wager when the wager is positive, plus
    max(1, total - dc) when the check succeeded; the wager is the bonus of
    the check; a wager between 0 and the limit of the slider,
    min(5, available), never takes a non-negative balance below 0. When
    the skill is absent nothing is deducted or awarded, yet the wager is
    still the bonus. *)
Theorem wager_accounting (g : GameState) (actionText difficulty : string)
    (spentPoints : option Z) (rnd : Q) :
  let g' := fst (rollForAction g actionText difficulty spentPoints rnd) in
  let check := snd (rollForAction g actionText difficulty spentPoints rnd) in
  let name := detectSkillFromAction actionText in
  let wager := match spentPoints with
               | Some n => if 0 <? n then n else 0
               | None => 0
               end in
  let earned :=
    match dc check with
    | DcNumber d => if success check then Z.max 1 (total check - d) else 0
    | DcMember _ => 0
    end in
  g' = setSkills (skills g') g /\
  bonuses check = orNumber spentPoints 0 /\
  (forall other, other <> name -> skills g' !! other = skills g !! other) /\
  (forall skill, skills g !! name = Some skill ->
     (points <$> skills g' !! name) = Some (points skill - wager + earned) /\
     (0 <= points skill -> 0 <= wager <= sliderMax g actionText ->
      0 <= points skill - wager + earned)) /\
  (skills g !! name = None -> g' = g).
Proof.
  cbv zeta. unfold rollForAction. cbn [fst snd].
  set (name := detectSkillFromAction actionText).
  set (check := performSkillCheck rnd difficulty (orNumber spentPoints 0) (Some name)).
  split.
  { destruct (rollForAction_frame g actionText difficulty spentPoints rnd) as (sk & Hsk).
    unfold rollForAction in Hsk. cbn [fst] in Hsk. fold name check in Hsk.
    rewrite Hsk. reflexivity. }
  split; [reflexivity |].
  destruct (skills g !! name) as [skill |] eqn:Hskill.
  - assert (Hg1 : exists p,
        match spentPoints with
        | Some n =>
            if 0 <? n
            then setSkills (<[name := setPoints (points skill - n) skill]> (skills g)) g
            else g
        | None => g
        end = setSkills (<[name := setPoints p skill]> (skills g)) g /\
        p = points skill -
            match spentPoints with
            | Some n => if 0 <? n then n else 0
            | None => 0
            end).
    { destruct spentPoints as [n |]; [destruct (0 <? n) |];
        eexists; (split; [| reflexivity]);
        try reflexivity;
        rewrite Z.sub_0_r;
        (replace (setPoints (points skill) skill) with skill by (destruct skill; reflexivity));
        rewrite (insert_id _ _ _ Hskill); symmetry; apply setSkills_same. }
    destruct Hg1 as (p & -> & Hp).
    unfold awardSkillPoints. cbn [skills setSkills]. rewrite lookup_insert_eq.
    split; [| split; [| discriminate]].
    + intros other Hne. apply success_cases; intros;
        cbn [negb fst skills setSkills];
        rewrite ?lookup_insert_ne by congruence; reflexivity.
    + intros skill' [= <-]. split.
      * apply success_cases; intros; cbn [negb fst skills setSkills];
          rewrite lookup_insert_eq; cbn; f_equal; lia.
      * intros Hnn Hw. unfold sliderMax, availablePoints in Hw.
        fold name in Hw. rewrite Hskill in Hw. cbn in Hw. unfold orNumber in Hw.
        apply success_cases; intros; destruct (Z.eqb_spec (points skill) 0); lia.
  - assert (Hg1 : match spentPoints with
                  | Some _ | _ => g
                  end = g) by (destruct spentPoints; reflexivity).
    rewrite Hg1. unfold awardSkillPoints. rewrite Hskill. cbn [fst].
    split; [reflexivity |]. split; [discriminate | reflexivity].
Qed.

Lemma wager_accounting_witness :
  (points <$>
     skills (fst (rollForAction
                    (setSkills (<["combat" := mkSkill 1 0 4]>
                                  (skills (createInitialGameState 0)))
                       (createInitialGameState 0))
                    "Attack" "Very Hard" (Some 3) (1 # 20)))
       !! "combat") = Some 1.
Proof.
  destruct (wager_accounting
              (setSkills (<["combat" := mkSkill 1 0 4]>
                            (skills (createInitialGameState 0)))
                 (createInitialGameState 0))
              "Attack" "Very Hard" (Some 3) (1 # 20)) as (_ & _ & _ & H & _).
  destruct (H (mkSkill 1 0 4) eq_refl) as [Hp _]. exact Hp.
Defined.

(** ** State reducer: distance *)

(** The location after an update. *)
Lemma applyStateUpdates_location (g : GameState) (u : StateUpdate) :
  currentLocation (applyStateUpdates g (Some u)) =
    setDistance (match uDistance u with
                 | Some d => Z.max 0 (distanceFromCenter (currentLocation g) + d)
                 | None => distanceFromCenter (currentLocation g)
                 end) (currentLocation g).
Proof.
  destruct u as [[d1 |] [d2 |] [d3 |] [changes |]];
    cbn [applyStateUpdates uShip uFuel uDistance uInventory];
    try destruct (d3 <? 0) eqn:Hneg;
    try (match goal with |- context [map_fold _ ?g3 _] =>
           destruct (applyInventory_fold g3 changes) as (inv & -> & _)
         end);
    cbn; destruct g as [? ? ? [] ? ? ? ? ? ? ? ?]; reflexivity.
Qed.



(** ** The auto-save timer *)

Lemma isAutoSave_true (t : Timer) : isAutoSave t = true <-> callback t = AutoSave.
Proof. unfold isAutoSave. destruct (callback t); split; congruence. Qed.

(** Clearing the handle removes every auto-save timer and nothing else. *)
Lemma clear_autosave (l : list Timer) (id : nat) :
  (forall t, In t l -> callback t = AutoSave <-> id = timerId t) ->
  List.filter isAutoSave
    (List.filter (fun t => negb (Nat.eqb (timerId t) id)) l) = [] /\
  List.filter (fun t => negb (isAutoSave t))
    (List.filter (fun t => negb (Nat.eqb (timerId t) id)) l) =
  List.filter (fun t => negb (isAutoSave t)) l.
Proof.
  intros Hl. induction l as [| t l IH]; [split; reflexivity |].
  destruct IH as [IH1 IH2]; [intros t' Ht'; apply Hl; right; exact Ht' |].
  specialize (Hl t (or_introl eq_refl)). cbn.
  destruct (Nat.eqb_spec (timerId t) id) as [He | Hne]; cbn.
  - assert (Ha : isAutoSave t = true) by (apply isAutoSave_true, Hl; congruence).
    rewrite Ha. cbn. split; assumption.
  - assert (Ha : isAutoSave t = false).
    { apply not_true_iff_false. rewrite isAutoSave_true, Hl. congruence. }
    rewrite Ha. cbn. split; [exact IH1 | f_equal; exact IH2].
Qed.

(** Without a handle naming one, no auto-save timer is pending. *)
Lemma no_autosave (l : list Timer) :
  (forall t, In t l -> callback t <> AutoSave) ->
  List.filter isAutoSave l = [].
Proof.
  intros Hl. induction l as [| t l IH]; [reflexivity |].
  cbn. assert (Ha : isAutoSave t = false).
  { apply not_true_iff_false. rewrite isAutoSave_true. apply Hl. left. reflexivity. }
  rewrite Ha. apply IH. intros t' Ht'. apply Hl. right. exact Ht'.
Qed.

Lemma filter_app_single (p : Timer -> bool) (l : list Timer) (t : Timer) :
  List.filter p (l ++ [t]) = (List.filter p l ++ if p t then [t] else [])%list.
Proof. rewrite List.filter_app. cbn. destruct (p t); reflexivity. Qed.

Lemma NoDup_map_filter (p : Timer -> bool) (l : list Timer) :
  List.NoDup (map timerId l) -> List.NoDup (map timerId (List.filter p l)).
Proof.
  induction l as [| t l IH]; intros Hnd; [exact Hnd |].
  cbn in Hnd. apply List.NoDup_cons_iff in Hnd as [Hnotin Hnd].
  cbn. destruct (p t); [| apply IH; exact Hnd].
  cbn. apply List.NoDup_cons; [| apply IH; exact Hnd].
  intros Hin. apply Hnotin. apply in_map_iff in Hin as (t' & He & Ht').
  apply List.filter_In in Ht' as [Ht' _]. rewrite <- He. apply in_map. exact Ht'.
Qed.

Lemma NoDup_map_snoc (l : list Timer) (t : Timer) :
  List.NoDup (map timerId l) ->
  (forall t', In t' l -> timerId t' <> timerId t) ->
  List.NoDup (map timerId (l ++ [t])).
Proof.
  intros Hnd Hfresh. rewrite map_app. cbn.
  induction l as [| x l IH]; cbn.
  - apply List.NoDup_cons; [intros [] | apply List.NoDup_nil].
  - cbn in Hnd. apply List.NoDup_cons_iff in Hnd as [Hnotin Hnd].
    apply List.NoDup_cons.
    + intros Hin. apply in_app_or in Hin as [Hin | [He | []]].
      * apply Hnotin. exact Hin.
      * apply (Hfresh x (or_introl eq_refl)). symmetry. exact He.
    + apply IH; [exact Hnd |]. intros t' Ht'. apply Hfresh. right. exact Ht'.
Qed.

(** What [scheduleAutoSave] leaves pending: the timers of the other
    callbacks, then the new auto-save timer. *)
Lemma scheduleAutoSave_timers (w : World) :
  timersOk w ->
  exists kept,
    timers (scheduleAutoSave w) =
      (kept ++ [mkTimer (nextTimer w) AutoSave autoSaveDelay])%list /\
    nextTimer (scheduleAutoSave w) = S (nextTimer w) /\
    autoSaveTimeout (scheduleAutoSave w) = Some (nextTimer w) /\
    (forall t, In t kept -> In t (timers w) /\ callback t <> AutoSave) /\
    List.NoDup (map timerId kept) /\
    List.filter (fun t => negb (isAutoSave t)) kept =
      List.filter (fun t => negb (isAutoSave t)) (timers w).
Proof.
  intros (Hnext & Hids & Hnodup & Hhandle & Hauto).
  unfold scheduleAutoSave.
  destruct (autoSaveTimeout w) as [[| id] |] eqn:Hh.
  - exists (timers w). cbn.
    split; [reflexivity |]. split; [reflexivity |]. split; [reflexivity |].
    split; [| split; [exact Hnodup | reflexivity]].
    intros t Ht. split; [exact Ht |]. intros Hcb.
    apply (Hauto t Ht) in Hcb. injection Hcb as Hcb.
    specialize (Hids t Ht). lia.
  - exists (List.filter (fun t => negb (Nat.eqb (timerId t) (S id))) (timers w)).
    cbn. split; [reflexivity |]. split; [reflexivity |]. split; [reflexivity |].
    assert (Hl : forall t, In t (timers w) ->
                   callback t = AutoSave <-> S id = timerId t).
    { intros t Ht. rewrite (Hauto t Ht). split; congruence. }
    split; [| split; [apply NoDup_map_filter; exact Hnodup
                     | apply (clear_autosave _ _ Hl)]].
    intros t Ht. apply List.filter_In in Ht as [Ht Hne]. split; [exact Ht |].
    rewrite (Hl t Ht). intros He. rewrite <- He, Nat.eqb_refl in Hne. discriminate.
  - exists (timers w). cbn.
    split; [reflexivity |]. split; [reflexivity |]. split; [reflexivity |].
    split; [| split; [exact Hnodup | reflexivity]].
    intros t Ht. split; [exact Ht |]. intros Hcb.
    apply (Hauto t Ht) in Hcb. discriminate.
Qed.

(** The one auto-save timer after scheduling, and the order of the
    timers. *)
Lemma scheduleAutoSave_single (w : World) :
  timersOk w ->
  List.filter isAutoSave (timers (scheduleAutoSave w)) =
    [mkTimer (nextTimer w) AutoSave 30000] /\
  timersOk (scheduleAutoSave w).
Proof.
  intros Hok.
  destruct (scheduleAutoSave_timers w Hok)
    as (kept & Ht & Hn & Hh & Hkept & Hnd & Hothers).
  destruct Hok as (Hnext & Hids & _ & _ & _).
  rewrite Ht, !filter_app_single. cbn [isAutoSave callback negb].
  split.
  { rewrite no_autosave by (intros t Hin; apply Hkept; exact Hin). reflexivity. }
  unfold timersOk. rewrite Ht, Hn, Hh.
  split; [lia |]. split; [| split; [| split]].
  - intros t Hin. apply in_app_or in Hin as [Hin | [<- | []]].
    + destruct (Hkept t Hin) as [Hin' _]. specialize (Hids t Hin'). lia.
    + cbn. lia.
  - apply NoDup_map_snoc; [exact Hnd |].
    intros t Hin. destruct (Hkept t Hin) as [Hin' _]. specialize (Hids t Hin').
    cbn. lia.
  - intros id [= <-]. lia.
  - intros t Hin. apply in_app_or in Hin as [Hin | [<- | []]].
    + destruct (Hkept t Hin) as [Hin' Hcb]. specialize (Hids t Hin').
      split; [intros Hc; contradiction | intros [= He]; lia].
    + cbn. split; reflexivity.
Qed.

(** X10: scheduling the auto-save resets the timer instead of stacking
    one: in a world whose timers are in order, exactly one auto-save
    timer is pending afterwards, it is the new one with the 30000 ms
    delay and [autoSaveTimeout] names it, the timers of the other
    callbacks are all still pending, the game state is untouched, and
    the timers are in order again. *)
Theorem scheduleAutoSave_debounces (w : World) :
  timersOk w ->
  let w' := scheduleAutoSave w in
  List.filter isAutoSave (timers w') = [mkTimer (nextTimer w) AutoSave 30000] /\
  autoSaveTimeout w' = Some (nextTimer w) /\
  List.filter (fun t => negb (isAutoSave t)) (timers w') =
    List.filter (fun t => negb (isAutoSave t)) (timers w) /\
  gameState w' = gameState w /\
  timersOk w'.
Proof.
  intros Hok. cbv zeta.
  destruct (scheduleAutoSave_single w Hok) as (Hone & Hok').
  destruct (scheduleAutoSave_timers w Hok)
    as (kept & Ht & Hn & Hh & Hkept & Hnd & Hothers).
  split; [exact Hone |]. split; [exact Hh |].
  split.
  { rewrite Ht, filter_app_single. cbn [isAutoSave callback negb].
    rewrite app_nil_r. exact Hothers. }
  split; [apply gameState_scheduleAutoSave | exact Hok'].
Qed.

Lemma scheduleAutoSave_debounces_witness :
  List.filter isAutoSave
    (timers (scheduleAutoSave (scheduleAutoSave (newWorld 0)))) =
  [mkTimer 2 AutoSave 30000].
Proof.
  apply (scheduleAutoSave_debounces (scheduleAutoSave (newWorld 0))).
  apply (scheduleAutoSave_debounces (newWorld 0)).
  unfold timersOk. cbn. repeat split; try lia; try contradiction; try discriminate.
  apply List.NoDup_nil.
Defined.

Lemma setTimeout_ok (cb : Callback) (d : Z) (w : World) :
  cb <> AutoSave -> timersOk w -> timersOk (fst (setTimeout cb d w)).
Proof.
  intros Hcb (Hnext & Hids & Hnodup & Hhandle & Hauto).
  unfold timersOk, setTimeout. cbn.
  split; [lia |]. split; [| split; [| split]].
  - intros t Hin. apply in_app_or in Hin as [Hin | [<- | []]].
    + specialize (Hids t Hin). lia.
    + cbn. lia.
  - apply NoDup_map_snoc; [exact Hnodup |].
    intros t Hin. specialize (Hids t Hin). cbn. lia.
  - intros id Hid. specialize (Hhandle id Hid). lia.
  - intros t Hin. apply in_app_or in Hin as [Hin | [<- | []]].
    + apply Hauto. exact Hin.
    + cbn. split; [intros Hc; contradiction |].
      intros Hid. specialize (Hhandle _ Hid). lia.
Qed.

Lemma timersOk_same (w w' : World) :
  autoSaveTimeout w' = autoSaveTimeout w -> timers w' = timers w ->
  nextTimer w' = nextTimer w -> timersOk w -> timersOk w'.
Proof. unfold timersOk. intros -> -> ->. tauto. Qed.

(** Starting the dice animation keeps the timers in order and adds no
    auto-save timer. *)
Lemma diceTimers_ok (w : World) (difficulty : option string) :
  timersOk w ->
  timersOk (mkWorld (gameState w) (isProcessingAction w) (pendingAction w)
              (autoSaveTimeout w) (timers w ++ diceTimers w difficulty)
              (nextTimer w + length (diceTimers w difficulty))
              (errorShown w) (skillSpendModal w)) /\
  List.filter isAutoSave (timers w ++ diceTimers w difficulty) =
    List.filter isAutoSave (timers w).
Proof.
  intros Hok. rewrite <- animated_world. unfold diceTimers.
  destruct (truthy difficulty).
  - split.
    + exact (setTimeout_ok DiceFrame 100 w ltac:(discriminate) Hok).
    + rewrite filter_app_single. cbn. apply app_nil_r.
  - split; [exact Hok | rewrite app_nil_r; reflexivity].
Qed.

Section TurnTimers.

Variable formatUserMessage : GameState -> string -> option SkillCheck -> string.
Variable callAI : list Message -> string -> AiResult.

(** X11: a call keeps the timers in order, and it adds at most one
    auto-save timer: after it no more than one is pending. *)
Theorem turn_keeps_timers (w : World) (actionText : string) (difficulty : option string)
    (spentPoints : option Z) (rnd : Q) (now : Z) :
  timersOk w ->
  (length (List.filter isAutoSave (timers w)) <= 1)%nat ->
  exists w',
    processPlayerAction formatUserMessage callAI w actionText difficulty spentPoints rnd now
      = Some w' /\
    timersOk w' /\
    (length (List.filter isAutoSave (timers w')) <= 1)%nat.
Proof.
  intros Hok Hone.
  destruct (diceTimers_ok w difficulty Hok) as (Hokd & Hsame).
  set (wd := mkWorld (gameState w) (isProcessingAction w) (pendingAction w)
               (autoSaveTimeout w) (timers w ++ diceTimers w difficulty)
               (nextTimer w + length (diceTimers w difficulty))
               (errorShown w) (skillSpendModal w)) in Hokd.
  assert (Honed : (length (List.filter isAutoSave (timers wd)) <= 1)%nat)
    by (subst wd; cbn [timers]; rewrite Hsame; exact Hone).
  destruct (turn_cases formatUserMessage callAI w actionText difficulty spentPoints rnd now)
    as (w' & Hw & Hcases).
  exists w'. split; [exact Hw |].
  destruct Hcases as [(_ & ->) | [(_ & _ & ->) | [(_ & message & sk & _ & ->)
    | [(_ & response & parsed & sk & _ & _ & _ & ->)
      | (_ & response & parsed & sk & _ & _ & _ & ->)]]]].
  - split; [exact (timersOk_same w _ eq_refl eq_refl eq_refl Hok) | exact Hone].
  - split; assumption.
  - unfold finallyIdle, catchError.
    destruct (Js.includes message "API key").
    + split.
      * apply (timersOk_same
                 (fst (setTimeout ShowApiKeyModal 2000 wd)) _ eq_refl eq_refl eq_refl).
        apply setTimeout_ok; [discriminate | exact Hokd].
      * cbn [setProcessing setTimeout showError fst timers].
        rewrite filter_app_single. cbn [isAutoSave callback]. rewrite app_nil_r.
        exact Honed.
    + split; [exact (timersOk_same wd _ eq_refl eq_refl eq_refl Hokd) | exact Honed].
  - split.
    + apply (timersOk_same
               (fst (setTimeout ShowGameOverModal 1500 wd)) _ eq_refl eq_refl eq_refl).
      apply setTimeout_ok; [discriminate | exact Hokd].
    + cbn [timers]. rewrite filter_app_single. cbn [isAutoSave callback].
      rewrite app_nil_r. exact Honed.
  - match goal with |- timersOk (finallyIdle (scheduleAutoSave ?w0)) /\ _ =>
      assert (Hok0 : timersOk w0)
        by exact (timersOk_same wd w0 eq_refl eq_refl eq_refl Hokd);
      pose proof (scheduleAutoSave_single w0 Hok0) as Hd
    end.
    destruct Hd as (Hf & Hok').
    unfold finallyIdle. split.
    + eapply timersOk_same; [| | | exact Hok']; reflexivity.
    + cbn [setProcessing timers]. rewrite Hf. cbn. lia.
Qed.

End TurnTimers.

Lemma turn_keeps_timers_witness :
  exists w',
    processPlayerAction plainMessage (fixedAnswer (Returned "Dust settles."))
      (newWorld 0) "Climb the ridge" (Some "Hard") (Some 0) (1 # 2) 0 = Some w' /\
    timersOk w' /\
    (length (List.filter isAutoSave (timers w')) <= 1)%nat.
Proof.
  apply turn_keeps_timers.
  - unfold timersOk. cbn. repeat split; try lia; try contradiction; try discriminate.
    apply List.NoDup_nil.
  - cbn. lia.
Defined.

(** ** The wager modal *)

Section WagerFlow.

Variable formatUserMessage : GameState -> string -> option SkillCheck -> string.
Variable callAI : list Message -> string -> AiResult.

(** Once the wager is decided (or there is no difficulty), a call only
    carries the staged action and the modal flag along. *)
Lemma processPlayerAction_pending (pending : option (string * string)) (modal : bool)
    (w : World) (actionText : string) (difficulty : option string)
    (spentPoints : option Z) (rnd : Q) (now : Z) :
  truthy difficulty && isUndefined spentPoints = false ->
  processPlayerAction formatUserMessage callAI (withPending pending modal w)
    actionText difficulty spentPoints rnd now =
  withPending pending modal <$>
    processPlayerAction formatUserMessage callAI w actionText difficulty spentPoints rnd now.
Proof.
  intros Hstaged. unfold processPlayerAction. rewrite Hstaged.
  cbn [withPending isProcessingAction gameState hideError setProcessing].
  destruct (isProcessingAction w); [reflexivity |].
  destruct (beforeOracle (gameState w) actionText difficulty spentPoints rnd)
    as [g1 diceRoll].
  destruct (truthy difficulty);
    (destruct (callAI (conversationHistory g1) (formatUserMessage g1 actionText diceRoll))
       as [message | response];
     [unfold finallyIdle, catchError; destruct (Js.includes message "API key");
        reflexivity |
      destruct (parseGameMasterResponse response) as [parsed |]; [| reflexivity];
      cbn [mbind option_bind]; destruct (isPlayerDead parsed); [reflexivity |];
      unfold finallyIdle, scheduleAutoSave, setGameState, hideError, setProcessing,
        withPending, animateDiceRoll, setInterval;
      cbn [autoSaveTimeout fst];
      destruct (autoSaveTimeout w) as [[| id] |]; reflexivity]).
Qed.

(** X12: clicking an option with a difficulty only stages it: the game
    state, the timers and the in-flight flag are untouched, the action is
    pending and the modal shown, and this whatever the backend would
    answer. From there, cancel gives back the world from before the click;
    spend-and-roll and skip run the very turn that a direct call with that
    wager (the slider value, or 0) would have run from before the click. *)
Theorem wager_flow (w : World) (choice : Choice) (points : Z) (rnd rnd' : Q)
    (now now' : Z) :
  pendingAction w = None -> skillSpendModal w = false -> difficulty choice <> "" ->
  exists staged,
    clickOption formatUserMessage callAI w choice rnd now = Some staged /\
    staged = withPending (Some (text choice, difficulty choice)) true w /\
    cancelAction staged = w /\
    spendAndRoll formatUserMessage callAI staged points rnd' now' =
      processPlayerAction formatUserMessage callAI w (text choice)
        (Some (difficulty choice)) (Some points) rnd' now' /\
    skipSpend formatUserMessage callAI staged rnd' now' =
      processPlayerAction formatUserMessage callAI w (text choice)
        (Some (difficulty choice)) (Some 0) rnd' now'.
Proof.
  intros Hpend Hmodal Hdiff.
  assert (Htruthy : truthy (Some (difficulty choice)) = true).
  { destruct (difficulty choice); [contradiction | reflexivity]. }
  assert (Hw : withPending None false w = w).
  { destruct w; cbn in *; subst; reflexivity. }
  exists (withPending (Some (text choice, difficulty choice)) true w).
  split; [unfold clickOption, processPlayerAction; rewrite Htruthy; reflexivity |].
  split; [reflexivity |].
  split; [exact Hw |].
  assert (Hrun : forall p,
    (w2 ← processPlayerAction formatUserMessage callAI
            (withPending (Some (text choice, difficulty choice)) false w)
            (text choice) (Some (difficulty choice)) (Some p) rnd' now';
     Some (clearPending w2)) =
    processPlayerAction formatUserMessage callAI w (text choice)
      (Some (difficulty choice)) (Some p) rnd' now').
  { intros p. rewrite processPlayerAction_pending by (rewrite Htruthy; reflexivity).
    rewrite <- Hw at 2.
    rewrite (processPlayerAction_pending None false)
      by (rewrite Htruthy; reflexivity).
    destruct (processPlayerAction formatUserMessage callAI w (text choice)
                (Some (difficulty choice)) (Some p) rnd' now'); reflexivity. }
  split; [exact (Hrun points) | exact (Hrun 0)].
Qed.

(** X13: a custom action is never staged for a wager and never rolls:
    the text is trimmed, an empty text does nothing at all, and otherwise
    the call returns with the skills and the staged action as they
    were. *)
Theorem submitCustomAction_no_roll (w : World) (input : string) (rnd : Q) (now : Z) :
  exists w',
    submitCustomAction formatUserMessage callAI w input rnd now = Some w' /\
    (Js.trim input = "" -> w' = w) /\
    skills (gameState w') = skills (gameState w) /\
    pendingAction w' = pendingAction w /\
    skillSpendModal w' = skillSpendModal w.
Proof.
  unfold submitCustomAction.
  destruct (Js.trim input) as [| c rest] eqn:Htrim.
  { exists w. repeat split. }
  unfold processPlayerAction. cbn [truthy andb].
  destruct (isProcessingAction w); [exists w; split; [reflexivity | repeat split; discriminate] |].
  unfold beforeOracle. cbn [truthy hideError setProcessing gameState].
  destruct (callAI _ _) as [message | response].
  - eexists. split; [reflexivity |]. split; [discriminate |].
    unfold finallyIdle, catchError.
    destruct (Js.includes message "API key"); cbn; repeat split.
  - destruct (parseGameMasterResponse_options response) as (parsed & -> & _).
    cbn [mbind option_bind].
    rewrite pruneConversationHistory_eq, !applyStateUpdates_setConversationHistory.
    pose proof (applyStateUpdates_frame (gameState w) (stateUpdate parsed)) as Hf.
    cbv zeta in Hf. destruct Hf as (_ & _ & _ & Hsk & _ & _).
    destruct (isPlayerDead parsed).
    + eexists. split; [reflexivity |]. split; [discriminate |].
      cbn. rewrite Hsk. repeat split.
    + eexists. split; [reflexivity |]. split; [discriminate |].
      unfold finallyIdle, scheduleAutoSave, setGameState, hideError, setProcessing.
      cbn [autoSaveTimeout].
      destruct (autoSaveTimeout w) as [[| id] |];
        cbn [clearTimeout setTimeout gameState skills pendingAction skillSpendModal
             setActionHistory setCurrentOptions setCurrentNarrative
             setConversationHistory];
        rewrite Hsk; repeat split.
Qed.

End WagerFlow.

Lemma wager_flow_witness :
  exists staged,
    clickOption plainMessage (fixedAnswer (Returned "Dust settles.")) (newWorld 0)
      (mkChoice "Climb the ridge" "Hard") (1 # 2) 0 = Some staged /\
    cancelAction staged = newWorld 0.
Proof.
  destruct (wager_flow plainMessage (fixedAnswer (Returned "Dust settles.")) (newWorld 0)
              (mkChoice "Climb the ridge" "Hard") 0 (1 # 2) (1 # 2) 0 0
              eq_refl eq_refl ltac:(discriminate))
    as (staged & Hs & _ & Hc & _).
  exists staged. split; [exact Hs | exact Hc].
Defined.

Lemma submitCustomAction_no_roll_witness :
  submitCustomAction plainMessage (fixedAnswer (Returned "Dust settles."))
    (newWorld 0) "   " (1 # 2) 0 = Some (newWorld 0).
Proof.
  destruct (submitCustomAction_no_roll plainMessage
              (fixedAnswer (Returned "Dust settles.")) (newWorld 0) "   " (1 # 2) 0)
    as (w' & Hw & He & _).
  rewrite Hw. f_equal. apply He. reflexivity.
Defined.

(** ** Literal patterns and substrings *)

(** Under the [i] flag a lower-case letter of the pattern matches exactly
    the characters that [toLowerCase] sends to it. *)
Lemma literal_ignoreCase (x c : ascii) :
  Js.isLowerAZ x = true ->
  Re.atomMatches true (Lit x) c = Ascii.eqb x (Js.lowerChar c).
Proof.
  intros Hx.
  assert (H : forallb (fun x => forallb (fun c =>
                implb (Js.isLowerAZ x)
                  (Bool.eqb (Re.atomMatches true (Lit x) c)
                            (Ascii.eqb x (Js.lowerChar c)))) allAscii) allAscii = true)
    by (vm_compute; reflexivity).
  pose proof (forall_ascii _ (forall_ascii _ H x) c) as Hc. cbn beta in Hc.
  rewrite Hx in Hc. cbn [implb] in Hc. apply Bool.eqb_prop in Hc. exact Hc.
Qed.

(** Running a literal word: it succeeds exactly when the lower-cased text
    starts with the word, and then hands over the text after it. *)
Lemma run_word (w : string) :
  isLowerWord w = true ->
  forall (k : Re.cont) p t c,
    Re.run true (Str w) k (Re.MState p t c) =
    if Js.startsWith w (Js.toLowerCase t)
    then k (Re.MState (p + String.length w) (Js.drop (String.length w) t) c)
    else None.
Proof.
  induction w as [| x w IH]; intros Hw k p t c.
  - cbn. rewrite Nat.add_0_r. destruct t; reflexivity.
  - cbn [isLowerWord] in Hw. apply andb_prop in Hw as [Hx Hw].
    assert (Hstep : Re.run true (Str (String x w)) k (Re.MState p t c) =
                    Re.run true (Atom (Lit x)) (Re.run true (Str w) k)
                      (Re.MState p t c)).
    { destruct w; reflexivity. }
    rewrite Hstep. cbn [Re.run Re.rest Re.pos Re.caps].
    destruct t as [| a t]; [reflexivity |].
    rewrite (literal_ignoreCase x a Hx). cbn [Js.toLowerCase Js.startsWith].
    destruct (Ascii.eqb x (Js.lowerChar a)); [| reflexivity].
    cbn [andb]. rewrite (IH Hw). cbn [String.length Js.drop].
    replace (S p + String.length w)%nat with (p + S (String.length w))%nat by lia.
    reflexivity.
Qed.

(** A pattern that is one lower-case word with the [i] flag tests for the
    word in the lower-cased text. *)
Lemma test_word (w s : string) :
  isLowerWord w = true ->
  Re.test (wordRe w) s = Js.includes (Js.toLowerCase s) w.
Proof.
  intros Hw. unfold Re.test, Re.exec, wordRe. cbn [Re.ignoreCase Re.pattern].
  generalize 0%nat. induction s as [| a s IH]; intros p.
  - cbn [Re.execFrom]. rewrite (run_word w Hw). cbn [Js.toLowerCase Js.includes].
    destruct (Js.startsWith w ""); reflexivity.
  - cbn [Re.execFrom]. rewrite (run_word w Hw).
    cbn [Js.toLowerCase Js.includes].
    destruct (Js.startsWith w (String (Js.lowerChar a) (Js.toLowerCase s)));
      [reflexivity |].
    cbn [orb]. apply IH.
Qed.

(** X14: a clause of the STATE UPDATE section that contains none of the
    words ship, fuel, distance and inventory, in any letter case, is
    ignored: it leaves the delta as it is; a section made of such clauses
    only gives the empty delta. *)
Theorem parseStateUpdate_ignores_unknown (updateText : string) :
  (forall part word, In part (Js.split (chr "|") updateText) -> In word clauseWords ->
     Js.includes (Js.toLowerCase (Js.trim part)) word = false) ->
  parseStateUpdate updateText = Some (mkStateUpdate None None None None).
Proof.
  unfold parseStateUpdate. generalize (mkStateUpdate None None None None).
  induction (Js.split (chr "|") updateText) as [| part parts IH]; intros updates Hparts;
    [reflexivity |].
  cbn [parseClauses].
  assert (Hclause : parseClause updates part = Some updates).
  { unfold parseClause.
    rewrite !test_word by reflexivity.
    rewrite !(Hparts part) by (try (left; reflexivity); cbn; tauto).
    reflexivity. }
  rewrite Hclause. cbn [mbind option_bind]. apply IH.
  intros part' word Hin Hw. apply Hparts; [right; exact Hin | exact Hw].
Qed.

Lemma parseStateUpdate_ignores_unknown_witness :
  parseStateUpdate "Morale: +2 | Weather: storm" =
  Some (mkStateUpdate None None None None).
Proof.
  apply parseStateUpdate_ignores_unknown.
  intros part word Hp Hw.
  cbn in Hp, Hw.
  destruct Hp as [<- | [<- | []]];
    destruct Hw as [<- | [<- | [<- | [<- | []]]]]; reflexivity.
Defined.

(** ** Inventory changes *)

(** X15: the inventory sub-parser always returns, and every item name in
    its result is in lower case, so that Iron, IRON and iron are one item
    for the reducer; [__proto__] is never an item of the result, since
    writing it to an object literal does nothing. *)
Theorem parseInventoryChange_lowercase (text : string) :
  exists changes,
    parseInventoryChange text = Some changes /\
    (forall item amount, changes !! item = Some amount -> Js.toLowerCase item = item) /\
    changes !! "__proto__" = None.
Proof.
  destruct (parseInventoryChange_total text) as [changes Hc].
  exists changes. split; [exact Hc |].
  exact (parseInventoryChange_keys text changes Hc).
Qed.

(** ** Inferred tiers *)

Lemma inferDifficulty_values (actionText : string) :
  In (inferDifficulty actionText) ["Easy"; "Medium"; "Hard"].
Proof.
  unfold inferDifficulty.
  repeat match goal with
         | |- context [if ?b then _ else _] => destruct b
         end; simpl; tauto.
Qed.

(** X16: the difficulty given to a numbered line without a parenthetical
    is Easy, Medium or Hard, and so are the difficulties of the three
    default options; each of them is a tier of the difficulty table, so
    the check of such an option never runs against the fallback class. *)
Theorem inferred_tiers_known (line : string) (o : Choice) :
  Re.exec withDiffRe line = None ->
  optionOfLine line = Some o ->
  In (difficulty o) ["Easy"; "Medium"; "Hard"] /\
  is_Some (DIFFICULTY_DC !! Js.toLowerCase (difficulty o)) /\
  Forall (fun d => is_Some (DIFFICULTY_DC !! Js.toLowerCase (difficulty d)))
    defaultOptions.
Proof.
  intros Hwith Ho. unfold optionOfLine in Ho. rewrite Hwith in Ho.
  destruct (Re.exec noDiffRe line) as [m |]; [| discriminate].
  destruct (5 <? _)%nat; [| discriminate].
  injection Ho as <-. cbn [difficulty].
  pose proof (inferDifficulty_values (Js.trim (default "" (Re.group 2 m)))) as Hin.
  split; [exact Hin |]. split.
  - cbn in Hin. destruct Hin as [<- | [<- | [<- | []]]]; eexists; reflexivity.
  - repeat constructor; eexists; reflexivity.
Qed.

Lemma inferred_tiers_known_witness :
  is_Some (DIFFICULTY_DC !! Js.toLowerCase "Hard") /\
  optionOfLine "4. Repair the antenna" = Some (mkChoice "Repair the antenna" "Hard").
Proof.
  split; [| vm_compute; reflexivity].
  apply (inferred_tiers_known "4. Repair the antenna"
           (mkChoice "Repair the antenna" "Hard")); vm_compute; reflexivity.
Defined.

(** ** Death detection *)

Lemma startsWith_split (p s : string) :
  Js.startsWith p s = true -> exists post, s = p +:+ post.
Proof.
  revert s. induction p as [| a p IH]; intros s H.
  - exists s. reflexivity.
  - destruct s as [| b s]; [discriminate |]. cbn in H.
    apply andb_prop in H as [Hab Hp]. apply Ascii.eqb_eq in Hab as ->.
    destruct (IH s Hp) as (post & ->). exists post. reflexivity.
Qed.

Lemma includes_split (s p : string) :
  Js.includes s p = true -> exists pre post, s = pre +:+ p +:+ post.
Proof.
  induction s as [| a s IH]; cbn; intros H.
  - apply orb_prop in H as [H | H]; [| discriminate].
    apply startsWith_split in H as (post & ->). exists "", post. reflexivity.
  - apply orb_prop in H as [H | H].
    + apply startsWith_split in H as (post & ->). exists "", post. reflexivity.
    + destruct (IH H) as (pre & post & ->). exists (String a pre), post. reflexivity.
Qed.

(** A match that succeeds at some position of the text is found by the
    search from any earlier position. *)
Lemma execFrom_found (ic : bool) (r : Re.regex) (pre t : string) :
  forall p,
    is_Some (Re.run ic r Some (Re.MState (p + String.length pre) t [])) ->
    is_Some (Re.execFrom ic r p (pre +:+ t)).
Proof.
  induction pre as [| a pre IH]; intros p H.
  - cbn in H. rewrite Nat.add_0_r in H. destruct H as [e He].
    change ("" +:+ t) with t.
    destruct t; cbn [Re.execFrom]; rewrite He; eauto.
  - change (String a pre +:+ t) with (String a (pre +:+ t)). cbn [Re.execFrom].
    match goal with
    | |- is_Some (match ?x with _ => _ end) => destruct x; [eauto |]
    end.
    apply IH. cbn [String.length] in H.
    replace (S p + String.length pre)%nat with (p + S (String.length pre))%nat by lia.
    exact H.
Qed.

Lemma far_from_start (p : nat) : Nat.eqb (S (S (S (S p)))) p = false.
Proof. apply Nat.eqb_neq. lia. Qed.

(** Each phrase of [deathWords] is matched, wherever it stands and
    whatever follows it, by one of the patterns. *)
Lemma deathWords_matched (phrase : string) :
  In phrase deathWords ->
  exists re, In re deathPhrases /\
    forall p post,
      is_Some (Re.run (Re.ignoreCase re) (Re.pattern re) Some
                 (Re.MState p (phrase +:+ post) [])).
Proof.
  intros Hin. unfold deathWords in Hin. cbn [In] in Hin.
  repeat (destruct Hin as [<- | Hin];
    [ let rec pick l :=
        match l with
        | ?re :: ?l' =>
            first [ exists re; split;
                    [unfold deathPhrases; cbn [map In]; tauto
                    | intros p post; cbv - [Nat.eqb]; rewrite ?far_from_start;
                      cbv - [Nat.eqb]; eexists; reflexivity]
                  | pick l' ]
        end in
      let l := eval cbv [deathPhrases map] in deathPhrases in pick l
    | ]).
  contradiction.
Qed.

(** X17: whenever the narrative contains, in any letter case and
    anywhere (also inside a longer word), one of the phrases of
    [deathWords], death is detected. *)
Theorem detectDeathInNarrative_phrases (narrative phrase : string) :
  In phrase deathWords ->
  Js.includes (Js.toLowerCase narrative) phrase = true ->
  detectDeathInNarrative narrative = true.
Proof.
  intros Hin Hinc. destruct (deathWords_matched phrase Hin) as (re & Hre & Hrun).
  apply includes_split in Hinc as (pre & post & Htext).
  unfold detectDeathInNarrative. apply existsb_exists. exists re. split; [exact Hre |].
  unfold Re.test, Re.exec. rewrite Htext.
  destruct (execFrom_found (Re.ignoreCase re) (Re.pattern re) pre (phrase +:+ post) 0
              (Hrun _ post)) as [m ->].
  reflexivity.
Qed.

Lemma detectDeathInNarrative_phrases_witness :
  detectDeathInNarrative "You pack the perishable rations." = true.
Proof.
  apply (detectDeathInNarrative_phrases _ "perish"); [cbn; tauto | reflexivity].
Defined.

(** ** Saving and loading *)

Lemma migrate_saved (g : GameState) :
  migrateSkill <$> ((fun sk => SkillPoints (level sk) (xp sk) (points sk)) <$> skills g)
  = skills g.
Proof.
  rewrite <- map_fmap_compose. rewrite <- (map_fmap_id (skills g)) at 2.
  apply map_fmap_ext. intros name [l x p] _. reflexivity.
Qed.

(** An inventory without [NaN] is saved as it is. *)
Lemma no_NaN_json (inv : gmap string Count) :
  (forall item, inv !! item <> Some NaN) -> jsonCount <$> inv = inv.
Proof.
  intros Hnum. apply map_eq. intros item. rewrite lookup_fmap.
  specialize (Hnum item).
  destruct (inv !! item) as [[n | |] |]; try reflexivity. congruence.
Qed.

Section SaveLoad.

Variable serializedLength : SaveData -> Z.


(** X19: a save that does not go through leaves every slot, and with it
    the previous save, exactly as it was: when the serialized save is
    longer than the limit, or when the browser refuses the write, the
    function returns false, shows an error that starts with "Failed to
    save: " and touches neither the storage nor the game state. *)
Theorem saveGame_failure (w : World) (storage : gmap Z Stored) (slotNumber now : Z)
    (writeError : option string) :
  maxSaveSize < serializedLength
                  (mkSaveData slotNumber now (toSaved (gameState w))
                     (thumbnailOf (gameState w)))
  \/ is_Some writeError ->
  exists w' message,
    saveGame serializedLength w storage slotNumber now writeError = (w', storage, false) /\
    errorShown w' = Some ("Failed to save: " +:+ message) /\
    gameState w' = gameState w /\
    timers w' = timers w /\
    isProcessingAction w' = isProcessingAction w.
Proof.
  intros Hfail. unfold saveGame.
  destruct (Z.ltb_spec maxSaveSize
              (serializedLength
                 (mkSaveData slotNumber now (toSaved (gameState w))
                    (thumbnailOf (gameState w))))).
  - exists (showError "Failed to save: Save file too large" w), "Save file too large".
    repeat split.
  - destruct Hfail as [Hbig | [message ->]]; [lia |].
    exists (showError ("Failed to save: " +:+ message) w), message. repeat split.
Qed.

End SaveLoad.


Lemma saveGame_failure_witness :
  snd (fst (saveGame (fun _ => 5000000) (newWorld 0) ∅ 1 77 None)) = ∅.
Proof.
  destruct (saveGame_failure (fun _ => 5000000) (newWorld 0) ∅ 1 77 None)
    as (w' & message & Hs & _); [left; unfold maxSaveSize; lia |].
  rewrite Hs. reflexivity.
Defined.

(** X20: loading fails without touching the running game when the slot
    is empty or holds a text that cannot be parsed: the function returns
    false and only the error banner changes. A save that parses always
    loads: skills saved with points come back as they were, a skill
    saved as a bare level gets 0 points whatever the level, a skill saved
    with level and xp only restarts at level 1 and xp 0 with
    max(0, (level - 1) * 5 + floor(xp / 2)) points, never a negative
    balance, and a save without skills gets the four starting skills. *)
Theorem loadGame_cases (w : World) (storage : gmap Z Stored) (slotNumber : Z) :
  let w' := fst (loadGame w storage slotNumber) in
  let loaded := snd (loadGame w storage slotNumber) in
  (loaded = false <->
     storage !! slotNumber = None \/
     exists message, storage !! slotNumber = Some (Unparsable message)) /\
  (loaded = false ->
     gameState w' = gameState w /\ is_Some (errorShown w') /\
     w' = showError (default "" (errorShown w')) w) /\
  (forall saveData, storage !! slotNumber = Some (Parsed saveData) ->
     let saved := saveGameState saveData in
     w' = setGameState (setSkills (skills (gameState w')) (savedState saved)) w /\
     (savedSkills saved = None -> skills (gameState w') = defaultSkills) /\
     (forall sk name, savedSkills saved = Some sk ->
        match sk !! name with
        | None => skills (gameState w') !! name = None
        | Some (SkillPoints l x p) =>
            skills (gameState w') !! name = Some (mkSkill l x p)
        | Some (SkillNumber n) =>
            skills (gameState w') !! name = Some (mkSkill n 0 0)
        | Some (SkillLevels l x) =>
            exists p,
              skills (gameState w') !! name = Some (mkSkill 1 0 p) /\
              0 <= p /\
              p = Z.max 0 ((orNumber l 1 - 1) * 5 + orNumber x 0 / 2)
        end)).
Proof.
  cbv zeta. unfold loadGame.
  destruct (storage !! slotNumber) as [[message | saveData] |] eqn:Hslot.
  - split; [split; [intros _; right; eauto | reflexivity] |].
    split; [intros _; cbn; repeat split; eauto | discriminate].
  - split; [split; [discriminate | intros [H | (m & H)]; discriminate] |].
    split; [discriminate |].
    intros d [= <-]. cbn [fst gameState setGameState skills setSkills].
    split; [reflexivity |]. split.
    + intros ->. reflexivity.
    + intros sk name ->. rewrite lookup_fmap.
      destruct (sk !! name) as [[n | l x | l x p] |]; cbn; try reflexivity.
      eexists. split; [reflexivity |]. split; [lia | reflexivity].
  - split; [split; [intros _; left; reflexivity | reflexivity] |].
    split; [intros _; cbn; repeat split; eauto | discriminate].
Qed.

Lemma loadGame_cases_witness :
  skills (gameState (fst (loadGame (newWorld 0)
     {[ 2 := Parsed (mkSaveData 2 5
                       (mkSavedGame (createInitialGameState 1)
                          (Some {[ "combat" := SkillLevels (Some 3) (Some 5) ]}))
                       (mkThumbnail "Unknown" "1 planets" "New Game")) ]} 2)))
    !! "combat" = Some (mkSkill 1 0 12).
Proof.
  pose proof (loadGame_cases (newWorld 0)
     {[ 2 := Parsed (mkSaveData 2 5
                       (mkSavedGame (createInitialGameState 1)
                          (Some {[ "combat" := SkillLevels (Some 3) (Some 5) ]}))
                       (mkThumbnail "Unknown" "1 planets" "New Game")) ]} 2) as H.
  cbv zeta in H. destruct H as (_ & _ & H).
  destruct (H _ eq_refl) as (_ & _ & Hsk).
  specialize (Hsk _ "combat" eq_refl).
  rewrite lookup_singleton_eq in Hsk. destruct Hsk as (p & -> & _ & ->). reflexivity.
Defined.

(** ** Starting a game *)

Lemma floor_draw (rnd : Q) (n : Z) :
  (0 <= rnd)%Q -> (rnd < 1)%Q -> 1 <= n ->
  0 <= Qfloor (rnd * inject_Z n) < n.
Proof.
  intros Hlo Hhi Hn.
  assert (Hpos : (inject_Z 0 < inject_Z n)%Q) by (rewrite <- Zlt_Qlt; lia).
  split.
  - rewrite <- (Qfloor_Z 0). apply Qfloor_resp_le.
    apply Qmult_le_0_compat; [exact Hlo | apply Qlt_le_weak; exact Hpos].
  - rewrite Zlt_Qlt. eapply Qle_lt_trans; [apply Qfloor_le |].
    apply Qlt_le_trans with (1 * inject_Z n)%Q.
    + apply Qmult_lt_compat_r; [exact Hpos | exact Hhi].
    + rewrite Qmult_1_l. apply Qle_refl.
Qed.

Lemma scenario_drawn (rnd : Q) :
  (0 <= rnd)%Q -> (rnd < 1)%Q ->
  let index := Qfloor (rnd * inject_Z (Z.of_nat (length STARTING_SCENARIOS))) in
  exists scenario,
    (if index <? 0 then None else STARTING_SCENARIOS !! Z.to_nat index) = Some scenario /\
    In scenario STARTING_SCENARIOS.
Proof.
  intros Hlo Hhi index.
  assert (Hi : 0 <= index < 6) by (apply (floor_draw rnd 6 Hlo Hhi); lia).
  clearbody index.
  destruct (Z.ltb_spec index 0); [lia |].
  assert (Hn : (Z.to_nat index < length STARTING_SCENARIOS)%nat).
  { change (length STARTING_SCENARIOS) with 6%nat. lia. }
  apply lookup_lt_is_Some_2 in Hn as [scenario Hs].
  exists scenario. split; [exact Hs |].
  apply list_elem_of_In. eapply list_elem_of_lookup_2. exact Hs.
Qed.

(** Every scenario starts within the bounds of the reducer. *)
Lemma scenario_inBounds (scenario : Scenario) (now : Z) (g : GameState) :
  In scenario STARTING_SCENARIOS ->
  ship g = mkShip (shipHealth scenario) (scenarioFuel scenario) false false ->
  inventory g =
    (Num <$> scenarioInventory scenario) ∪ inventory (createInitialGameState now) ->
  inBounds g /\ inventory g !! "constructor" = None.
Proof.
  intros Hin Hship Hinv. unfold inBounds. rewrite Hship, Hinv.
  cbn [In STARTING_SCENARIOS] in Hin.
  repeat (destruct Hin as [<- | Hin];
    [ cbn [health fuel shipHealth scenarioFuel];
      split; [| vm_compute; reflexivity];
      split; [lia | split; [lia |]];
      match goal with
      | |- forall item count, ?m !! item = Some count -> _ =>
          assert (H : map_Forall
                        (fun _ count =>
                           match count with
                           | Num n => bool_decide (0 <= n)
                           | _ => false
                           end = true) m)
            by (apply (bool_decide_unpack _); vm_compute; exact I);
          intros item count Hcount; specialize (H item count Hcount);
          destruct count as [n | |]; try discriminate H;
          exists n; split; [reflexivity | exact (bool_decide_eq_true_1 _ H)]
      end
    | ]).
  contradiction.
Qed.

Lemma gameState_autoSave (serializedLength : SaveData -> Z) (autoSaveOn : bool)
    (w : World) (storage : gmap Z Stored) (now : Z) (writeError : option string) :
  let w' := fst (autoSave serializedLength autoSaveOn w storage now writeError) in
  gameState w' = gameState w /\ isProcessingAction w' = isProcessingAction w /\
  pendingAction w' = pendingAction w /\ timers w' = timers w /\
  autoSaveTimeout w' = autoSaveTimeout w /\
  (errorShown w' = errorShown w \/
   exists message, errorShown w' = Some ("Failed to save: " +:+ message)).
Proof.
  unfold autoSave, saveGame. destruct autoSaveOn; [| cbn; tauto].
  destruct (maxSaveSize <? _); [cbn; repeat split; right; eauto |].
  destruct writeError; cbn; repeat split; [right; eauto | left; reflexivity].
Qed.

Section NewGameProperties.

Variable serializedLength : SaveData -> Z.
Variable callAI : list Message -> string -> AiResult.

(** X21: with two draws in [0,1), [startNewGame] always returns, and
    whatever scenario is drawn and whatever the backend answers the new
    game has its health in 0..100, its fuel at 0 or above and every
    inventory count a number at 0 or above, unless the first answer
    names an item constructor, whose count is then [NaN]; it is at a
    distance of 0 or more, with the four starting skills, no death
    counted, an empty action history and at most one message in the
    conversation. The in-flight flag, the staged action and the timers of
    the old game are carried over untouched. If the options are empty
    afterwards, the backend call failed and the banner says so. *)
Theorem startNewGame_state (w : World) (storage : gmap Z Stored) (rnd1 rnd2 : Q)
    (now : Z) (autoSaveOn : bool) (saveNow : Z) (writeError : option string) :
  (0 <= rnd1)%Q -> (rnd1 < 1)%Q -> (0 <= rnd2)%Q -> (rnd2 < 1)%Q ->
  exists w' storage',
    startNewGame serializedLength callAI w storage rnd1 rnd2 now autoSaveOn saveNow
      writeError = Some (w', storage') /\
    (inBounds (gameState w') \/
     inventory (gameState w') !! "constructor" = Some NaN) /\
    inBoundsExcept "constructor" (gameState w') /\
    0 <= distanceFromCenter (currentLocation (gameState w')) /\
    skills (gameState w') = defaultSkills /\
    deathCount (stats (gameState w')) = 0 /\
    actionHistory (gameState w') = [] /\
    (length (conversationHistory (gameState w')) <= 1)%nat /\
    isProcessingAction w' = isProcessingAction w /\
    pendingAction w' = pendingAction w /\
    timers w' = timers w /\
    (currentOptions (gameState w') = [] ->
     storage' = storage /\
     650000 <= distanceFromCenter (currentLocation (gameState w')) < 780000 /\
     exists message, errorShown w' = Some ("Failed to start game: " +:+ message)).
Proof.
  intros Hlo1 Hhi1 Hlo2 Hhi2.
  destruct (scenario_drawn rnd1 Hlo1 Hhi1) as (scenario & Hdrawn & Hin).
  cbv zeta in Hdrawn. unfold startNewGame. rewrite Hdrawn.
  pose proof (floor_draw rnd2 130000 Hlo2 Hhi2 ltac:(lia)) as Hdist.
  generalize dependent (Qfloor (rnd2 * inject_Z 130000)). intros d Hdist.
  set (g4 := setLocation _ _).
  assert (Hb4 : inBounds g4)
    by (apply (scenario_inBounds scenario now g4 Hin); reflexivity).
  destruct (callAI (conversationHistory g4) (prompt scenario)) as [message | response].
  - eexists _, _. split; [reflexivity |].
    cbn [gameState showError hideError setGameState].
    split; [left; exact Hb4 |].
    split; [apply inBounds_inBoundsExcept; exact Hb4 |].
    cbn. repeat split; try lia.
    eauto.
  - destruct (parseGameMasterResponse_options response) as (parsed & Hparsed & Ho).
    rewrite Hparsed.
    cbn [mbind option_bind].
    set (g5 := setConversationHistory _ g4).
    pose proof (gameState_autoSave serializedLength autoSaveOn
                  (setGameState
                     (setCurrentOptions (options parsed)
                        (setCurrentNarrative (narrative parsed)
                           (applyStateUpdates g5 (stateUpdate parsed))))
                     (hideError (setGameState g4 w)))
                  storage saveNow writeError) as Hsave.
    cbv zeta in Hsave. destruct Hsave as (Hg & Hp & Hpe & Ht & _ & _).
    destruct (autoSave _ _ _ _ _ _) as [w' storage'].
    cbn [fst] in Hg, Hp, Hpe, Ht.
    exists w', storage'. split; [reflexivity |].
    rewrite Hg, Hp, Hpe, Ht. cbn [gameState setGameState hideError isProcessingAction
                                  pendingAction timers].
    pose proof (applyStateUpdates_frame g5 (stateUpdate parsed)) as Hf.
    cbv zeta in Hf. destruct Hf as (Hconv & _ & _ & Hsk & Hah & Hdc).
    assert (Hb5 : inBounds g5) by exact (inBounds_same g4 g5 eq_refl eq_refl Hb4).
    split.
    { destruct (applyStateUpdates_or_NaN "constructor" g5 (stateUpdate parsed) Hb5
                  (parsed_delta_methods response parsed Hparsed)) as [Hok | Hnan].
      - left. exact (inBounds_same _ _ eq_refl eq_refl Hok).
      - right. exact Hnan. }
    split.
    { exact (inBoundsExcept_same _ _ _ eq_refl eq_refl
               (applyStateUpdates_inBoundsExcept _ g5 (stateUpdate parsed)
                  (inBounds_inBoundsExcept _ _ Hb5)
                  (parsed_delta_methods response parsed Hparsed))). }
    split.
    { cbn [currentLocation setCurrentOptions setCurrentNarrative].
      destruct (stateUpdate parsed) as [u |].
      - rewrite (applyStateUpdates_location g5 u). cbn. destruct (uDistance u); lia.
      - cbn. lia. }
    cbn [skills actionHistory conversationHistory stats currentOptions
         setCurrentOptions setCurrentNarrative].
    rewrite Hsk, Hah, Hdc, Hconv.
    split; [reflexivity |]. split; [reflexivity |]. split; [reflexivity |].
    split; [cbn; lia |]. split; [reflexivity |]. split; [reflexivity |].
    split; [reflexivity |].
    intros Hempty. exfalso. rewrite Ho in Hempty.
    exact (chosenOptions_nonempty response Hempty).
Qed.

End NewGameProperties.

Lemma startNewGame_state_witness :
  exists w' storage',
    startNewGame (fun _ => 1000) (fixedAnswer (Threw "offline")) (newWorld 0) ∅
      (1 # 2) (1 # 2) 5 true 6 None = Some (w', storage') /\
    inBoundsExcept "constructor" (gameState w') /\
    errorShown w' = Some "Failed to start game: offline".
Proof.
  destruct (startNewGame_state (fun _ => 1000) (fixedAnswer (Threw "offline"))
              (newWorld 0) ∅ (1 # 2) (1 # 2) 5 true 6 None)
    as (w' & storage' & Hs & _ & Hb & _); try (unfold Qle, Qlt; simpl; lia).
  exists w', storage'. split; [exact Hs |]. split; [exact Hb |].
  vm_compute in Hs. injection Hs as <- _. reflexivity.
Defined.

(** ** The API key *)

Lemma includes_first (c : ascii) (p s : string) :
  Js.includes s (String c EmptyString) = false ->
  Js.includes s (String c p) = false.
Proof.
  induction s as [| b t IH]; cbn [Js.includes Js.startsWith]; [reflexivity |].
  intros H. apply orb_false_iff in H as [Hb Ht].
  rewrite andb_true_r in Hb. rewrite Hb, (IH Ht). reflexivity.
Qed.

Lemma digits_without_A (d : Decimal.uint) :
  Js.includes (DecimalString.NilEmpty.string_of_uint d) "A" = false.
Proof.
  induction d; cbn; try rewrite IHd; reflexivity.
Qed.

Lemma numberToString_without_A (n : Z) :
  Js.includes (numberToString n) "A" = false.
Proof.
  unfold numberToString, DecimalString.NilZero.string_of_int,
    DecimalString.NilZero.string_of_uint.
  destruct (Z.to_int n) as [d | d].
  - destruct d; try reflexivity; apply digits_without_A.
  - cbn [Js.includes Js.startsWith Ascii.eqb Bool.eqb andb orb].
    destruct d; try reflexivity; apply digits_without_A.
Qed.

(** The message for a status other than 401 does not ask for a key. *)
Lemma api_error_without_key (n : Z) :
  Js.includes ("API error: " +:+ numberToString n) "API key" = false.
Proof.
  pose proof (includes_first "A" "PI key" _ (numberToString_without_A n)) as H.
  revert H. generalize (numberToString n). intros s H.
  cbv [String.append]. cbn [Js.includes Js.startsWith Ascii.eqb Bool.eqb andb orb].
  exact H.
Qed.

Section ClaudeBackend.

Variable formatUserMessage : GameState -> string -> option SkillCheck -> string.

(** The world a turn ends in when the backend fails. *)
Lemma failed_turn_world (callAI : list Message -> string -> AiResult)
    (w : World) (actionText : string) (difficulty : option string)
    (spentPoints : option Z) (rnd : Q) (now : Z) (message : string) :
  reachesOracle w difficulty spentPoints ->
  oracleAnswer formatUserMessage callAI (gameState w) actionText difficulty spentPoints rnd
    = Threw message ->
  exists sk,
    processPlayerAction formatUserMessage callAI w actionText difficulty spentPoints rnd now =
    Some (finallyIdle (catchError message
            (mkWorld (setSkills sk (gameState w)) true (pendingAction w)
               (autoSaveTimeout w) (timers w ++ diceTimers w difficulty)
               (nextTimer w + length (diceTimers w difficulty)) None
               (skillSpendModal w)))).
Proof.
  intros Hreach Hanswer.
  destruct (turn_cases formatUserMessage callAI w actionText difficulty spentPoints rnd now)
    as (w' & Hrun & Hcase).
  rewrite Hrun. destruct Hreach as [Hstaged Hidle].
  destruct Hcase as [(Hs & _) | [(_ & Hb & _) | [(_ & m & sk & Hm & ->) |
    [(_ & r & p & sk & Hr & _) | (_ & r & p & sk & Hr & _)]]]]; try congruence.
  exists sk. congruence.
Qed.

Variable fetch : string -> list Message -> FetchResult.

(** The answer of the Claude backend and the key it leaves, for the
    request of the turn. *)
Lemma claude_turn_request (apiKey : option string) (w : World) (actionText : string)
    (difficulty : option string) (spentPoints : option Z) (rnd : Q) :
  reachesOracle w difficulty spentPoints ->
  let outcome :=
    callClaudeBackend fetch apiKey (conversationHistory (gameState w))
      (sentMessage formatUserMessage (gameState w) actionText difficulty spentPoints rnd) in
  oracleAnswer formatUserMessage (claudeAI fetch apiKey) (gameState w) actionText
    difficulty spentPoints rnd = snd outcome /\
  keyAfterTurn formatUserMessage fetch apiKey w actionText difficulty spentPoints rnd =
    fst outcome.
Proof.
  intros [Hstaged Hidle]. cbv zeta.
  unfold oracleAnswer, keyAfterTurn, sentMessage, claudeAI.
  rewrite Hstaged, Hidle. cbn [orb].
  destruct (beforeOracle_frame (gameState w) actionText difficulty spentPoints rnd)
    as [(sk & Hsk) _].
  destruct (beforeOracle (gameState w) actionText difficulty spentPoints rnd)
    as [g1 diceRoll].
  cbn [fst] in Hsk. subst g1.
  replace (conversationHistory (setSkills sk (gameState w)))
    with (conversationHistory (gameState w)) by (destruct (gameState w); reflexivity).
  split; reflexivity.
Qed.



End ClaudeBackend.



(** Trimming keeps a prefix that has no white space. *)
Lemma trimEnd_prefix (p s : string) :
  (forall c, In c (list_ascii_of_string p) -> Js.isSpace c = false) ->
  Js.startsWith p s = true ->
  Js.startsWith p (Js.trimEnd s) = true.
Proof.
  revert s. induction p as [| a p IH]; intros s Hp Hs; [reflexivity |].
  destruct s as [| b t]; [discriminate |].
  cbn [Js.startsWith] in Hs. apply andb_true_iff in Hs as [Hab Ht].
  assert (Hb : Js.isSpace b = false).
  { apply Ascii.eqb_eq in Hab. subst b. apply Hp. left. reflexivity. }
  assert (IH' : Js.startsWith p (Js.trimEnd t) = true).
  { apply IH; [| exact Ht]. intros c Hc. apply Hp. right. exact Hc. }
  cbn [Js.trimEnd]. destruct (Js.trimEnd t) as [| c t'].
  - rewrite Hb. cbn [Js.startsWith]. rewrite Hab, IH'. reflexivity.
  - cbn [Js.startsWith]. rewrite Hab. exact IH'.
Qed.

Lemma trim_anthropic_key (k : string) :
  Js.startsWith "sk-ant-" k = true ->
  Js.startsWith "sk-ant-" (Js.trim k) = true.
Proof.
  intros Hk. unfold Js.trim.
  replace (Js.trimStart k) with k.
  - apply trimEnd_prefix; [| exact Hk].
    intros c Hc. cbn in Hc.
    repeat (destruct Hc as [<- | Hc]; [reflexivity |]). destruct Hc.
  - destruct k as [| c t]; [reflexivity |].
    cbn [Js.startsWith] in Hk. apply andb_true_iff in Hk as [Hc _].
    apply Ascii.eqb_eq in Hc. subst c. reflexivity.
Qed.


